(** * PoseGuard AI: risk engine, event pipeline, chat and player profile

    A shallow embedding of [backend/main.py] and of the interactive console
    [backend/live-webCam/app_realtime (1).py].

    Number representations used throughout:
    - Python [int] values are [Z].
    - Python [float] values that only go through [+], [*], [/] and
      comparisons (the composite score, the mean risk, the frame clock) are
      IEEE binary64 numbers, [PrimFloat.float].
    - Pixel coordinates, confidences and joint angles, which go through
      [np.linalg.norm], [np.arccos], [np.degrees] and [math.atan2], are real
      numbers [R]; the library functions are given their mathematical
      meaning.
    - A Python [dict] is an association list in insertion order. *)

From Stdlib Require Import ZArith List String Ascii Bool Lia Lra.
From Stdlib Require Import Reals Floats DecimalString Sorted Permutation.
Import ListNotations.

Set Warnings "-inexact-float".
Local Open Scope string_scope.
Local Open Scope Z_scope.

(** ** Python runtime *)

Module Py.

(** *** Dictionaries *)

Definition dict (V : Type) : Type := list (string * V).

Fixpoint dict_get {V : Type} (d : dict V) (k : string) : option V :=
  match d with
  | [] => None
  | (k', v) :: rest => if String.eqb k' k then Some v else dict_get rest k
  end.

Definition dict_mem {V : Type} (d : dict V) (k : string) : bool :=
  match dict_get d k with Some _ => true | None => false end.

(** [d[k] = v]: an existing key keeps its position, a new one goes last. *)
Fixpoint dict_set {V : Type} (d : dict V) (k : string) (v : V) : dict V :=
  match d with
  | [] => [(k, v)]
  | (k', v') :: rest =>
      if String.eqb k' k then (k, v) :: rest else (k', v') :: dict_set rest k v
  end.

Definition dict_keys {V : Type} (d : dict V) : list string := map fst d.
Definition dict_values {V : Type} (d : dict V) : list V := map snd d.

(** [d.get(k, default)] *)
Definition dict_get_default {V : Type} (d : dict V) (k : string) (default : V) : V :=
  match dict_get d k with Some v => v | None => default end.

(** *** Floats *)

(** [float(n)] for an [int] of magnitude below [2^63]. *)
Definition float_of_Z (n : Z) : float :=
  if n <? 0 then PrimFloat.opp (PrimFloat.of_uint63 (Uint63.of_Z (- n)))
  else PrimFloat.of_uint63 (Uint63.of_Z n).

(** [int(x)]: truncation toward zero.  Python raises on [nan] and on the
    infinities; [None] stands for that. *)
Definition int_of_float (x : float) : option Z :=
  match Prim2SF x with
  | S754_zero _ => Some 0
  | S754_finite s m e =>
      let mag := if 0 <=? e then Z.pos m * 2 ^ e else Z.pos m / 2 ^ (- e) in
      Some (if s then - mag else mag)
  | S754_infinity _ | S754_nan => None
  end.

(** [sum(xs)] over floats: the accumulator starts at the integer [0] and the
    items are added from left to right, each addition rounded.  (CPython
    from 3.12 on carries a compensation term along, which can change the
    last bit of a sum of two items or more; a sum of no item or of one item
    is the same either way.) *)
Definition sum_float (xs : list float) : float :=
  fold_left PrimFloat.add xs 0%float.

Definition sum_Z (xs : list Z) : Z := fold_left Z.add xs 0.

(** *** Lists *)

(** [l.append(x)] *)
Definition append {A : Type} (l : list A) (x : A) : list A := (l ++ [x])%list.

(** *** Strings *)

(** [str(n)] and [f"{n}"] for an [int]. *)
Definition str_of_Z (n : Z) : string := NilZero.string_of_int (Z.to_int n).

(** Strings are sequences of bytes here; case conversion acts on the ASCII
    letters and leaves every other byte as it is. *)
Definition is_upper (c : ascii) : bool :=
  ((65 <=? nat_of_ascii c) && (nat_of_ascii c <=? 90))%nat.

Definition is_lower (c : ascii) : bool :=
  ((97 <=? nat_of_ascii c) && (nat_of_ascii c <=? 122))%nat.

Definition to_lower (c : ascii) : ascii :=
  if is_upper c then ascii_of_nat (nat_of_ascii c + 32) else c.

Definition to_upper (c : ascii) : ascii :=
  if is_lower c then ascii_of_nat (nat_of_ascii c - 32) else c.

(** [s.lower()] *)
Fixpoint lower (s : string) : string :=
  match s with
  | EmptyString => EmptyString
  | String c rest => String (to_lower c) (lower rest)
  end.

(** [s.title()]: a letter that follows a letter is lowered, any other letter
    is raised. *)
Fixpoint title_from (after_letter : bool) (s : string) : string :=
  match s with
  | EmptyString => EmptyString
  | String c rest =>
      let letter := is_upper c || is_lower c in
      String (if after_letter then to_lower c else to_upper c) (title_from letter rest)
  end.

Definition title (s : string) : string := title_from false s.

(** [s.replace(old, new)] for single characters. *)
Fixpoint replace_char (old new : ascii) (s : string) : string :=
  match s with
  | EmptyString => EmptyString
  | String c rest =>
      String (if Ascii.eqb c old then new else c) (replace_char old new rest)
  end.

(** [sub in s] *)
Fixpoint contains (sub s : string) : bool :=
  prefix sub s ||
  match s with
  | EmptyString => false
  | String _ rest => contains sub rest
  end.

(** [sep.join(items)] *)
Fixpoint join (sep : string) (items : list string) : string :=
  match items with
  | [] => ""
  | [x] => x
  | x :: rest => x ++ sep ++ join sep rest
  end.

(** [l[-n:]] for a positive [n]. *)
Definition last_n {A : Type} (n : nat) (l : list A) : list A :=
  skipn (List.length l - n) l.

End Py.
Import Py.

(** ** Real-valued library functions (numpy and math) *)

Module Np.

Definition point : Type := (R * R)%type.

Definition Rltb (x y : R) : bool := if Rlt_dec x y then true else false.
Definition Rgtb (x y : R) : bool := Rltb y x.
Definition Reqb (x y : R) : bool := if Req_dec_T x y then true else false.

(** [a - b] on arrays of two coordinates. *)
Definition sub (a b : point) : point := (fst a - fst b, snd a - snd b)%R.

(** [np.dot] *)
Definition dot (u v : point) : R := (fst u * fst v + snd u * snd v)%R.

(** [np.linalg.norm] *)
Definition norm (u : point) : R := R_sqrt.sqrt (dot u u).

(** [np.clip(x, lo, hi)] is [minimum(maximum(x, lo), hi)]. *)
Definition clip (x lo hi : R) : R := Rmin (Rmax x lo) hi.

(** [np.degrees] and [math.degrees] *)
Definition degrees (x : R) : R := (x * (180 / PI))%R.

(** [np.arccos] *)
Definition arccos (x : R) : R := acos x.

(** [math.atan2(y, x)]: the angle of the vector [(x, y)] in [(-PI, PI]]. *)
Definition atan2 (y x : R) : R :=
  if Rlt_dec 0 x then atan (y / x)
  else if Rlt_dec x 0 then
    (if Rle_dec 0 y then atan (y / x) + PI else atan (y / x) - PI)%R
  else if Rlt_dec 0 y then (PI / 2)%R
  else if Rlt_dec y 0 then (- (PI / 2))%R
  else 0%R.

End Np.

(** ** The interactive console: [backend/live-webCam/app_realtime (1).py] *)

Module Console.
Import Np.

(** The console's own copy of the angle helper. *)
Definition calculate_angle (a b c : point) : R :=
  let ba := sub a b in
  let bc := sub c b in
  let n1 := norm ba in
  let n2 := norm bc in
  if Reqb n1 0 || Reqb n2 0 then 180%R
  else degrees (arccos (clip (dot ba bc / (n1 * n2)) (-1) 1)).

Definition weights : dict float :=
  [ ("L_ACL", 0.25); ("R_ACL", 0.25); ("L_Hip", 0.10);
    ("R_Hip", 0.10); ("Trunk", 0.12) ]%float.

(** The entries of [risks] whose key is in [weights], with their weight. *)
Fixpoint weighted (weights : dict float) (risks : dict Z) : list (Z * float) :=
  match risks with
  | [] => []
  | (k, r) :: rest =>
      match dict_get weights k with
      | Some w => (r, w) :: weighted weights rest
      | None => weighted weights rest
      end
  end.

(** Lines 108-112: [tw], [comp]. *)
Definition composite (risks : dict Z) : option Z :=
  let tw := sum_float (map snd (weighted weights risks)) in
  match
    (if (0 <? tw)%float then
       int_of_float
         (sum_float (map (fun rw => float_of_Z (fst rw) * snd rw) (weighted weights risks))
          / tw)%float
     else Some 0)
  with
  | Some comp => Some (Z.min comp 100)
  | None => None
  end.

Definition kp (conf_thresh : R) (pkp : nat -> point) (pconf : nat -> R) (i : nat)
  : option point :=
  if Rgtb (pconf i) conf_thresh && (Rgtb (fst (pkp i)) 0 && Rgtb (snd (pkp i)) 0)
  then Some (pkp i) else None.

(** Lines 83-106: the [risks] dict of one person. *)
Definition risk_factors (conf_thresh : R) (pkp : nat -> point) (pconf : nat -> R)
  : dict Z :=
  let kp := kp conf_thresh pkp pconf in
  let ls := kp 5%nat in let rs := kp 6%nat in
  let lh := kp 11%nat in let rh := kp 12%nat in
  let lk := kp 13%nat in let rk := kp 14%nat in
  let la := kp 15%nat in let ra := kp 16%nat in
  let risks : dict Z := [] in
  let risks :=
    match lh, lk, la with
    | Some lh, Some lk, Some la =>
        let a := calculate_angle lh lk la in
        dict_set risks "L_ACL"
          (if Rltb a 120 then 90 else if Rltb a 140 then 60 else if Rltb a 160 then 30 else 0)
    | _, _, _ => risks
    end in
  let risks :=
    match rh, rk, ra with
    | Some rh, Some rk, Some ra =>
        let a := calculate_angle rh rk ra in
        dict_set risks "R_ACL"
          (if Rltb a 120 then 90 else if Rltb a 140 then 60 else if Rltb a 160 then 30 else 0)
    | _, _, _ => risks
    end in
  let risks :=
    match ls, lh, lk with
    | Some ls, Some lh, Some lk =>
        let a := calculate_angle ls lh lk in
        dict_set risks "L_Hip"
          (if Rltb a 100 then 80 else if Rltb a 130 then 45 else if Rltb a 150 then 20 else 0)
    | _, _, _ => risks
    end in
  let risks :=
    match rs, rh, rk with
    | Some rs, Some rh, Some rk =>
        let a := calculate_angle rs rh rk in
        dict_set risks "R_Hip"
          (if Rltb a 100 then 80 else if Rltb a 130 then 45 else if Rltb a 150 then 20 else 0)
    | _, _, _ => risks
    end in
  let risks :=
    match ls, rs, lh, rh with
    | Some ls, Some rs, Some lh, Some rh =>
        let sm := ((fst ls + fst rs) / 2, (snd ls + snd rs) / 2)%R in
        let hm := ((fst lh + fst rh) / 2, (snd lh + snd rh) / 2)%R in
        let dx := (fst hm - fst sm)%R in
        let dy := (snd hm - snd sm)%R in
        let lean := if negb (Reqb dy 0) then Rabs (degrees (atan2 dx dy)) else 0%R in
        dict_set risks "Trunk"
          (if Rgtb lean 35 then 75 else if Rgtb lean 25 then 50 else if Rgtb lean 15 then 25 else 0)
    | _, _, _, _ => risks
    end in
  risks.

(** The body of the loop over detected persons: risks and composite. *)
Definition analyze_pose (conf_thresh : R) (pkp : nat -> point) (pconf : nat -> R)
  : option (dict Z * Z) :=
  let risks := risk_factors conf_thresh pkp pconf in
  match composite risks with
  | Some comp => Some (risks, comp)
  | None => None
  end.

(** [analyze(frame)] after detection: the highest composite among the
    persons of the frame, with that person's risks. *)
Fixpoint analyze_persons (conf_thresh : R) (persons : list ((nat -> point) * (nat -> R)))
    (max_risk : Z) (max_risks : dict Z) : option (Z * dict Z) :=
  match persons with
  | [] => Some (max_risk, max_risks)
  | (pkp, pconf) :: rest =>
      match analyze_pose conf_thresh pkp pconf with
      | Some (risks, comp) =>
          if max_risk <? comp then analyze_persons conf_thresh rest comp risks
          else analyze_persons conf_thresh rest max_risk max_risks
      | None => None
      end
  end.

Definition analyze (conf_thresh : R) (persons : list ((nat -> point) * (nat -> R)))
  : option (Z * dict Z) :=
  analyze_persons conf_thresh persons 0 [].

(** [risk_label] *)
Definition risk_label (s : Z) : string :=
  if s <? 30 then "LOW" else if s <? 60 then "MODERATE"
  else if s <? 80 then "HIGH" else "CRITICAL".

(** [risk_hex] *)
Definition risk_hex (s : Z) : string :=
  if s <? 30 then "#27ae60" else if s <? 60 then "#f39c12"
  else if s <? 80 then "#e67e22" else "#e74c3c".

(** [risk_bgr] *)
Definition risk_bgr (s : Z) : Z * Z * Z :=
  if s <? 30 then (0, 200, 0) else if s <? 60 then (0, 200, 255)
  else if s <? 80 then (0, 100, 255) else (0, 0, 230).

(** [render_breakdown]: the labels in the order of the source, and the
    markup built row after row. *)
Definition labels : dict string :=
  [ ("L_ACL", "L Knee (ACL)"); ("R_ACL", "R Knee (ACL)");
    ("L_Hip", "L Hip Flex"); ("R_Hip", "R Hip Flex"); ("Trunk", "Trunk Lean") ].

Definition render_row (risks : dict Z) (md : string) (item : string * string) : string :=
  let '(k, lb) := item in
  let v := dict_get_default risks k 0 in
  let c2 := risk_hex v in
  let md := md ++ "<div style='margin:6px 0;'>" in
  let md := md ++ "<div style='display:flex;justify-content:space-between;'>" in
  let md := md ++ "<span style='color:#ccc;font-size:12px;'>" ++ lb ++ "</span>" in
  let md := md ++ "<span style='color:" ++ c2 ++ ";font-size:12px;font-weight:bold;'>"
               ++ str_of_Z v ++ "%</span></div>" in
  let md := md ++ "<div style='background:#333;border-radius:4px;height:8px;margin:2px 0;'>" in
  let md := md ++ "<div style='background:" ++ c2 ++ ";width:" ++ str_of_Z v
               ++ "%;height:8px;border-radius:4px;'></div></div></div>" in
  md.

Definition render_breakdown (risks : dict Z) : string :=
  let md := "<div style='background:#1a1a2e;border-radius:10px;padding:14px;'>" in
  let md := md ++ "<p style='color:#aaa;margin:0 0 10px;font-size:13px;'>📐 Joint Breakdown</p>" in
  let md := fold_left (render_row risks) labels md in
  let md := md ++ "</div>" in
  md.

End Console.

(** ** The backend: [backend/main.py] *)

Module Backend.
Import Np.

Definition CONF_THRESH : R := (5 / 10)%R.

Definition FACTOR_TO_PART : dict string :=
  [ ("L_ACL", "knee"); ("R_ACL", "knee");
    ("L_Hip", "hip"); ("R_Hip", "hip");
    ("Trunk", "lower_back");
    ("Shoulder_Asym", "shoulder");
    ("Hip_Asym", "hip");
    ("L_Ankle", "ankle"); ("R_Ankle", "ankle") ].

(** Angle at joint B, formed by A-B-C (in degrees). *)
Definition calculate_angle (a b c : point) : R :=
  let ba := sub a b in
  let bc := sub c b in
  let norm_ba := norm ba in
  let norm_bc := norm bc in
  if Reqb norm_ba 0 || Reqb norm_bc 0 then 180%R
  else
    let cosine := (dot ba bc / (norm_ba * norm_bc))%R in
    degrees (arccos (clip cosine (-1) 1)).

(** Angle of the torso line from vertical. *)
Definition trunk_lean_angle (shoulder_mid hip_mid : point) : R :=
  let dx := (fst hip_mid - fst shoulder_mid)%R in
  let dy := (snd hip_mid - snd shoulder_mid)%R in
  if Reqb dy 0 then 0%R
  else Rabs (degrees (atan2 dx dy)).

Definition is_visible (kp : point) : bool :=
  Rgtb (fst kp) 0 && Rgtb (snd kp) 0.

(** The four threshold ladders of [analyze_person]. *)
Definition acl_risk (angle : R) : Z :=
  if Rltb angle 120 then 90
  else if Rltb angle 140 then 60
  else if Rltb angle 160 then 30
  else 0.

Definition hip_risk (angle : R) : Z :=
  if Rltb angle 100 then 80
  else if Rltb angle 130 then 45
  else if Rltb angle 150 then 20
  else 0.

Definition trunk_risk (lean : R) : Z :=
  if Rgtb lean 35 then 75
  else if Rgtb lean 25 then 50
  else if Rgtb lean 15 then 25
  else 0.

Definition asym_risk (diff : R) : Z :=
  if Rgtb diff 40 then 70
  else if Rgtb diff 25 then 40
  else if Rgtb diff 15 then 20
  else 0.

Definition ankle_risk (angle : R) : Z :=
  if Rgtb angle 120 then 60
  else if Rgtb angle 110 then 30
  else 0.

Definition weights : dict float :=
  [ ("L_ACL", 0.25); ("R_ACL", 0.25);
    ("L_Hip", 0.10); ("R_Hip", 0.10);
    ("Trunk", 0.12);
    ("Shoulder_Asym", 0.05); ("Hip_Asym", 0.05);
    ("L_Ankle", 0.04); ("R_Ankle", 0.04) ]%float.

(** The entries of [risks] whose key is in [weights], with their weight:
    what both generators [... for k in risks if k in weights] range over. *)
Fixpoint weighted (weights : dict float) (risks : dict Z) : list (Z * float) :=
  match risks with
  | [] => []
  | (k, r) :: rest =>
      match dict_get weights k with
      | Some w => (r, w) :: weighted weights rest
      | None => weighted weights rest
      end
  end.

(** Lines 223-229: the composite weighted score, already clamped.  [None]
    is the exception [int] raises on a float that is not finite. *)
Definition composite_score (risks : dict Z) : option Z :=
  let total_weight := sum_float (map snd (weighted weights risks)) in
  if (0 <? total_weight)%float then
    let composite :=
      (sum_float (map (fun rw => float_of_Z (fst rw) * snd rw) (weighted weights risks))
       / total_weight)%float in
    option_map (fun c => Z.min c 100) (int_of_float composite)
  else Some (Z.min 0 100).

(** The usable keypoint [kp(idx)] of [analyze_person]. *)
Definition kp (person_kp : nat -> point) (person_conf : nat -> R) (idx : nat)
  : option point :=
  if Rgtb (person_conf idx) CONF_THRESH && is_visible (person_kp idx)
  then Some (person_kp idx) else None.

(** Lines 123-213 of [analyze_person]: the [risks] and [details] dicts. *)
Definition risk_factors (person_kp : nat -> point) (person_conf : nat -> R)
  : dict Z * dict R :=
  let kp := kp person_kp person_conf in
  let risks : dict Z := [] in
  let details : dict R := [] in
  let l_shoulder := kp 5%nat in let r_shoulder := kp 6%nat in
  let l_hip := kp 11%nat in let r_hip := kp 12%nat in
  let l_knee := kp 13%nat in let r_knee := kp 14%nat in
  let l_ankle := kp 15%nat in let r_ankle := kp 16%nat in
  (* 1. Left Knee ACL *)
  let '(risks, details) :=
    match l_hip, l_knee, l_ankle with
    | Some l_hip, Some l_knee, Some l_ankle =>
        let angle := calculate_angle l_hip l_knee l_ankle in
        (dict_set risks "L_ACL" (acl_risk angle), dict_set details "L_Knee" angle)
    | _, _, _ => (risks, details)
    end in
  (* 2. Right Knee ACL *)
  let '(risks, details) :=
    match r_hip, r_knee, r_ankle with
    | Some r_hip, Some r_knee, Some r_ankle =>
        let angle := calculate_angle r_hip r_knee r_ankle in
        (dict_set risks "R_ACL" (acl_risk angle), dict_set details "R_Knee" angle)
    | _, _, _ => (risks, details)
    end in
  (* 3. Left Hip *)
  let '(risks, details) :=
    match l_shoulder, l_hip, l_knee with
    | Some l_shoulder, Some l_hip, Some l_knee =>
        let angle := calculate_angle l_shoulder l_hip l_knee in
        (dict_set risks "L_Hip" (hip_risk angle), dict_set details "L_Hip" angle)
    | _, _, _ => (risks, details)
    end in
  (* 4. Right Hip *)
  let '(risks, details) :=
    match r_shoulder, r_hip, r_knee with
    | Some r_shoulder, Some r_hip, Some r_knee =>
        let angle := calculate_angle r_shoulder r_hip r_knee in
        (dict_set risks "R_Hip" (hip_risk angle), dict_set details "R_Hip" angle)
    | _, _, _ => (risks, details)
    end in
  (* 5. Trunk Lean *)
  let '(risks, details) :=
    match l_shoulder, r_shoulder, l_hip, r_hip with
    | Some l_shoulder, Some r_shoulder, Some l_hip, Some r_hip =>
        let shoulder_mid := ((fst l_shoulder + fst r_shoulder) / 2,
                             (snd l_shoulder + snd r_shoulder) / 2)%R in
        let hip_mid := ((fst l_hip + fst r_hip) / 2,
                        (snd l_hip + snd r_hip) / 2)%R in
        let lean := trunk_lean_angle shoulder_mid hip_mid in
        (dict_set risks "Trunk" (trunk_risk lean), dict_set details "Trunk" lean)
    | _, _, _, _ => (risks, details)
    end in
  (* 6. Shoulder Asymmetry *)
  let risks :=
    match l_shoulder, r_shoulder with
    | Some l_shoulder, Some r_shoulder =>
        let diff := Rabs (snd l_shoulder - snd r_shoulder) in
        dict_set risks "Shoulder_Asym" (asym_risk diff)
    | _, _ => risks
    end in
  (* 7. Hip Asymmetry *)
  let risks :=
    match l_hip, r_hip with
    | Some l_hip, Some r_hip =>
        let diff := Rabs (snd l_hip - snd r_hip) in
        dict_set risks "Hip_Asym" (asym_risk diff)
    | _, _ => risks
    end in
  (* 8. Left Ankle *)
  let risks :=
    match l_knee, l_ankle with
    | Some l_knee, Some l_ankle =>
        let virtual_toe := (fst l_ankle + (fst l_ankle - fst l_knee) * (3 / 10),
                            snd l_ankle + 30)%R in
        let angle := calculate_angle l_knee l_ankle virtual_toe in
        dict_set risks "L_Ankle" (ankle_risk angle)
    | _, _ => risks
    end in
  (* 9. Right Ankle *)
  let risks :=
    match r_knee, r_ankle with
    | Some r_knee, Some r_ankle =>
        let virtual_toe := (fst r_ankle + (fst r_ankle - fst r_knee) * (3 / 10),
                            snd r_ankle + 30)%R in
        let angle := calculate_angle r_knee r_ankle virtual_toe in
        dict_set risks "R_Ankle" (ankle_risk angle)
    | _, _ => risks
    end in
  (risks, details).

(** Analyze one detected person's pose.  Returns (risks dict, composite score
    0-100, details dict with angles). *)
Definition analyze_person (person_kp : nat -> point) (person_conf : nat -> R)
  : option (dict Z * Z * dict R) :=
  let '(risks, details) := risk_factors person_kp person_conf in
  match composite_score risks with
  | Some composite => Some (risks, composite, details)
  | None => None
  end.


(** *** Helpers *)

Definition risk_severity (score : Z) : string :=
  if score <? 30 then "LOW"
  else if score <? 60 then "MEDIUM"
  else if score <? 80 then "HIGH"
  else "CRITICAL".

Definition risk_color_bgr (score : Z) : Z * Z * Z :=
  if score <? 30 then (0, 200, 0)
  else if score <? 60 then (0, 200, 255)
  else if score <? 80 then (0, 100, 255)
  else (0, 0, 230).

(** [f"{secs:02d}"] for a non-negative [secs]. *)
Definition pad2 (secs : Z) : string :=
  if secs <? 10 then "0" ++ str_of_Z secs else str_of_Z secs.

(** [f"{mins}:{secs:02d}"] with [mins = int(seconds // 60)] and
    [secs = int(seconds % 60)].  [int] raises on a float that is not finite:
    [None].  For [0 <= seconds < 2^53] Python's [seconds // 60] and
    [seconds % 60] are exact, so that the two integers are the quotient and
    the remainder of [int(seconds)] by 60; the clock is not modelled outside
    that range ([None] as well). *)
Definition clock (seconds : float) : option string :=
  if ((0 <=? seconds) && (seconds <? 9007199254740992))%float then
    match int_of_float seconds with
    | Some whole =>
        let mins := whole / 60 in
        let secs := whole mod 60 in
        Some (str_of_Z mins ++ ":" ++ pad2 secs)
    | None => None
    end
  else None.

(** [frames_to_timestamp]; [frame / fps] raises on [fps == 0]. *)
Definition frames_to_timestamp (frame : Z) (fps : float) : option string :=
  if (fps =? 0)%float then None
  else
    let seconds := (float_of_Z frame / fps)%float in
    clock seconds.

(** *** Risk events *)

Record RiskEvent : Type := {
  timestamp : string;
  frame : Z;
  risk : Z;
  part : string;
  severity : string;
  description : string;
  angle : option R
}.

Definition FACTOR_DESCRIPTIONS : dict string :=
  [ ("L_ACL", "Left knee valgus detected — ACL injury risk from inward knee collapse during movement.");
    ("R_ACL", "Right knee valgus detected — ACL injury risk from inward knee collapse during movement.");
    ("L_Hip", "Left hip flexion exceeds safe range — potential hip flexor strain.");
    ("R_Hip", "Right hip flexion exceeds safe range — potential hip flexor strain.");
    ("Trunk", "Excessive trunk lean detected — increased spinal load and lower back injury risk.");
    ("Shoulder_Asym", "Shoulder asymmetry detected — compensatory strain pattern increasing injury risk.");
    ("Hip_Asym", "Hip asymmetry detected — uneven load distribution may lead to overuse injury.");
    ("L_Ankle", "Left ankle dorsiflexion concern — poor landing mechanics increasing joint stress.");
    ("R_Ankle", "Right ankle dorsiflexion concern — poor landing mechanics increasing joint stress.") ].

Definition generate_suggestions (events : list RiskEvent) (avg_risk : float) : list string :=
  let suggestions : list string := [] in
  let parts_at_risk := map part events in
  let at_risk (p : string) := existsb (String.eqb p) parts_at_risk in
  let suggestions :=
    if at_risk "knee" then
      append suggestions "Implement knee valgus correction drills — single-leg squats and knee-over-toe exercises"
    else suggestions in
  let suggestions :=
    if at_risk "hip" then
      append suggestions "Add hip mobility and glute activation warm-up before training sessions"
    else suggestions in
  let suggestions :=
    if at_risk "lower_back" then
      append suggestions "Strengthen core with anti-extension exercises (planks, dead bugs, pallof press)"
    else suggestions in
  let suggestions :=
    if at_risk "shoulder" then
      append suggestions "Include rotator cuff strengthening and shoulder mobility work pre-session"
    else suggestions in
  let suggestions :=
    if at_risk "ankle" then
      append suggestions "Work on ankle mobility and dorsiflexion with banded stretches"
    else suggestions in
  let suggestions :=
    if (60 <? avg_risk)%float then
      append suggestions "Overall risk is HIGH — consider reducing training intensity and scheduling a biomechanics review"
    else if (40 <? avg_risk)%float then
      append suggestions "Moderate risk levels detected — monitor form closely during high-intensity phases"
    else suggestions in
  let suggestions :=
    match suggestions with
    | [] => append suggestions "Good biomechanics observed — maintain current form and continue injury prevention exercises"
    | _ :: _ => suggestions
    end in
  suggestions.

(** *** Event detection *)

Record FactorState : Type := {
  active : bool;
  start_frame : Z;
  peak_risk : Z;
  peak_frame : Z;
  peak_angle : option R
}.

Definition initial_state : FactorState :=
  {| active := false; start_frame := 0; peak_risk := 0; peak_frame := 0;
     peak_angle := None |}.

Definition DETAIL_KEY : dict string :=
  [ ("L_ACL", "L_Knee"); ("R_ACL", "R_Knee");
    ("L_Hip", "L_Hip"); ("R_Hip", "R_Hip"); ("Trunk", "Trunk") ].

(** [frame_details_all.get(detail_key)] *)
Definition detail_of (frame_details_all : dict R) (factor : string) : option R :=
  match dict_get DETAIL_KEY factor with
  | Some detail_key => dict_get frame_details_all detail_key
  | None => None
  end.

(** Nearest integer, ties to the even one. *)
Definition round_half_even (x : R) : Z :=
  let n := Int_part x in
  let d := (x - IZR n)%R in
  if Np.Rltb d (1 / 2) then n
  else if Np.Rltb (1 / 2) d then n + 1
  else if Z.even n then n else n + 1.

(** [round(x, 1)] *)
Definition round1 (x : R) : R := (IZR (round_half_even (x * 10)) / 10)%R.

(** The record appended to [risk_events], from a factor's state. *)
Definition make_event (fps : float) (factor : string) (state : FactorState)
  : option RiskEvent :=
  match frames_to_timestamp (peak_frame state) fps with
  | Some ts =>
      Some {| timestamp := ts;
              frame := peak_frame state;
              risk := peak_risk state;
              part := dict_get_default FACTOR_TO_PART factor factor;
              severity := risk_severity (peak_risk state);
              description :=
                dict_get_default FACTOR_DESCRIPTIONS factor ("Risk detected in " ++ factor);
              angle := option_map round1 (peak_angle state) |}
  | None => None
  end.

(** Lines 355-387: one iteration of the loop over [frame_risks_all.items()].
    The state of the factor is updated in [factor_states]; an event may be
    appended to [risk_events]. *)
Definition detect_factor (fps : float) (frame_count : Z) (frame_details_all : dict R)
    (factor : string) (risk_val : Z)
    (factor_states : dict FactorState) (risk_events : list RiskEvent)
  : option (dict FactorState * list RiskEvent) :=
  let factor_states :=
    if dict_mem factor_states factor then factor_states
    else dict_set factor_states factor initial_state in
  let state := dict_get_default factor_states factor initial_state in
  if (30 <=? risk_val) && negb (active state) then
    Some (dict_set factor_states factor
            {| active := true; start_frame := frame_count;
               peak_risk := risk_val; peak_frame := frame_count;
               peak_angle := detail_of frame_details_all factor |},
          risk_events)
  else if (30 <=? risk_val) && active state then
    if peak_risk state <? risk_val then
      Some (dict_set factor_states factor
              {| active := active state; start_frame := start_frame state;
                 peak_risk := risk_val; peak_frame := frame_count;
                 peak_angle := detail_of frame_details_all factor |},
            risk_events)
    else Some (factor_states, risk_events)
  else if (risk_val <? 30) && active state then
    match make_event fps factor state with
    | Some event =>
        Some (dict_set factor_states factor
                {| active := false; start_frame := start_frame state;
                   peak_risk := peak_risk state; peak_frame := peak_frame state;
                   peak_angle := peak_angle state |},
              append risk_events event)
    | None => None
    end
  else Some (factor_states, risk_events).

(** Lines 354-387: the loop over the factors of one frame. *)
Fixpoint detect_frame (fps : float) (frame_count : Z) (frame_details_all : dict R)
    (items : dict Z) (factor_states : dict FactorState) (risk_events : list RiskEvent)
  : option (dict FactorState * list RiskEvent) :=
  match items with
  | [] => Some (factor_states, risk_events)
  | (factor, risk_val) :: rest =>
      match detect_factor fps frame_count frame_details_all factor risk_val
              factor_states risk_events with
      | Some (factor_states, risk_events) =>
          detect_frame fps frame_count frame_details_all rest factor_states risk_events
      | None => None
      end
  end.

(** Lines 408-419: flush any still-active events. *)
Fixpoint flush (fps : float) (states : dict FactorState) (risk_events : list RiskEvent)
  : option (list RiskEvent) :=
  match states with
  | [] => Some risk_events
  | (factor, state) :: rest =>
      if active state && (30 <=? peak_risk state) then
        match make_event fps factor state with
        | Some event => flush fps rest (append risk_events event)
        | None => None
        end
      else flush fps rest risk_events
  end.

(** *** Deduplication *)

(** [sorted(events, key=lambda x: -x["risk"])]: a stable sort. *)
Fixpoint insert_by_risk (e : RiskEvent) (sorted : list RiskEvent) : list RiskEvent :=
  match sorted with
  | [] => [e]
  | e' :: rest =>
      if - risk e <=? - risk e' then e :: e' :: rest
      else e' :: insert_by_risk e rest
  end.

Fixpoint sorted_by_risk (events : list RiskEvent) : list RiskEvent :=
  match events with
  | [] => []
  | e :: rest => insert_by_risk e (sorted_by_risk rest)
  end.

Definition key_eqb (k1 k2 : string * string) : bool :=
  String.eqb (fst k1) (fst k2) && String.eqb (snd k1) (snd k2).

(** Lines 422-428, after the sort: [seen] and [unique_events]. *)
Fixpoint keep_first (seen : list (string * string)) (events : list RiskEvent)
  : list RiskEvent :=
  match events with
  | [] => []
  | e :: rest =>
      let key := (timestamp e, part e) in
      if existsb (key_eqb key) seen then keep_first seen rest
      else e :: keep_first (key :: seen) rest
  end.

Definition deduplicate (risk_events : list RiskEvent) : list RiskEvent :=
  keep_first [] (sorted_by_risk risk_events).

(** *** The analysis store *)

(** A completed analysis.  The fields [pose_keypoints] and
    [annotatedVideoUrl] of the source record, which nothing in the backend
    reads again, are left out. *)
Record Completed : Type := {
  videoId : string;
  sport : string;
  playerName : string;
  overallRisk : Z;
  overallSeverity : string;
  duration : string;
  fps : Z;
  risks : list RiskEvent;
  suggestions : list string;
  riskTimeline : list Z;
  totalFrames : Z;
  peakRisk : Z
}.

(** An entry of [analyses], by its ["status"]. *)
Inductive Analysis : Type :=
| Processing (video_id : string)
| Failed (video_id : string) (error : option string)
| Done (data : Completed).

Definition status (a : Analysis) : string :=
  match a with
  | Processing _ => "processing"
  | Failed _ _ => "error"
  | Done _ => "done"
  end.

(** *** The video processing pipeline *)

Definition person : Type := ((nat -> Np.point) * (nat -> R))%type.

(** Lines 333-337: the loop over the persons detected in one frame. *)
Fixpoint analyze_frame (persons : list person) (frame_max_risk : Z)
    (frame_risks_all : dict Z) (frame_details_all : dict R)
  : option (Z * dict Z * dict R) :=
  match persons with
  | [] => Some (frame_max_risk, frame_risks_all, frame_details_all)
  | (person_kp, person_conf) :: rest =>
      match analyze_person person_kp person_conf with
      | Some (risks, composite, details) =>
          analyze_frame rest (Z.max frame_max_risk composite) risks details
      | None => None
      end
  end.

(** Lines 313-387: the loop over the frames of the video, each given by the
    persons detected in it. *)
Fixpoint process_frames (fps : float) (frames : list (list person)) (frame_count : Z)
    (all_risk_scores : list Z) (factor_states : dict FactorState)
    (risk_events : list RiskEvent)
  : option (Z * list Z * dict FactorState * list RiskEvent) :=
  match frames with
  | [] => Some (frame_count, all_risk_scores, factor_states, risk_events)
  | persons :: rest =>
      let frame_count := frame_count + 1 in
      match analyze_frame persons 0 [] [] with
      | Some (frame_max_risk, frame_risks_all, frame_details_all) =>
          let all_risk_scores := append all_risk_scores frame_max_risk in
          match detect_frame fps frame_count frame_details_all frame_risks_all
                  factor_states risk_events with
          | Some (factor_states, risk_events) =>
              process_frames fps rest frame_count all_risk_scores factor_states risk_events
          | None => None
          end
      | None => None
      end
  end.

(** The event loop alone, over the [(frame_risks_all, frame_details_all)] of
    the successive frames. *)
Fixpoint detect_frames (fps : float) (frames : list (dict Z * dict R)) (frame_count : Z)
    (factor_states : dict FactorState) (risk_events : list RiskEvent)
  : option (dict FactorState * list RiskEvent) :=
  match frames with
  | [] => Some (factor_states, risk_events)
  | (frame_risks_all, frame_details_all) :: rest =>
      let frame_count := frame_count + 1 in
      match detect_frame fps frame_count frame_details_all frame_risks_all
              factor_states risk_events with
      | Some (factor_states, risk_events) =>
          detect_frames fps rest frame_count factor_states risk_events
      | None => None
      end
  end.

(** [risk_events] as it stands before deduplication: the events of the loop,
    then those of the flush. *)
Definition detect_events (fps : float) (frames : list (dict Z * dict R))
  : option (list RiskEvent) :=
  match detect_frames fps frames 0 [] [] with
  | Some (factor_states, risk_events) => flush fps factor_states risk_events
  | None => None
  end.

(** [scores_arr.mean()]: the scores are small integers, their sum is exact. *)
Definition mean (scores : list Z) : float :=
  (float_of_Z (sum_Z scores) / float_of_Z (Z.of_nat (List.length scores)))%float.

(** [process_video], from the opening of the video to the record stored in
    [analyses].  [opened] is [cap.isOpened()], [fps_raw] and [total_frames]
    are what [cap.get] returns for the frame rate and the frame count,
    [frames] the detections of the frames read.  An exception anywhere gives
    the [error] record (its text is not modelled).  Reading, drawing and
    re-encoding the video are outside the model, and so is a duration
    outside the range of [clock] (a negative frame count). *)
Definition process_video (video_id : string) (opened : bool) (fps_raw : float)
    (total_frames : Z) (frames : list (list person)) (sport : string) : Analysis :=
  if negb opened then Failed video_id (Some "Could not open video file")
  else
    let fps := if (fps_raw =? 0)%float then 30%float else fps_raw in
    let duration_secs :=
      if (0 <? fps)%float then (float_of_Z total_frames / fps)%float else 0%float in
    match process_frames fps frames 0 [] [] [] with
    | Some (frame_count, all_risk_scores, factor_states, risk_events) =>
        match flush fps factor_states risk_events with
        | Some risk_events =>
            let unique_events := deduplicate risk_events in
            let scores_arr :=
              match all_risk_scores with [] => [0] | _ :: _ => all_risk_scores end in
            match int_of_float (mean scores_arr), clock duration_secs, int_of_float fps with
            | Some overall_risk, Some duration_str, Some fps_int =>
                let peak_risk := fold_left Z.max (tl scores_arr) (hd 0 scores_arr) in
                Done {| videoId := video_id;
                        sport := sport;
                        playerName := "Athlete";
                        overallRisk := overall_risk;
                        overallSeverity := risk_severity overall_risk;
                        duration := duration_str;
                        fps := fps_int;
                        risks := firstn 20 unique_events;
                        suggestions := generate_suggestions unique_events (mean scores_arr);
                        riskTimeline := all_risk_scores;
                        totalFrames := frame_count;
                        peakRisk := peak_risk |}
            | _, _, _ => Failed video_id None
            end
        | None => Failed video_id None
        end
    | None => Failed video_id None
    end.

(** *** The upload and analysis endpoints *)

Record UploadResponse : Type := {
  upload_videoId : string;
  filename : string;
  upload_status : string
}.

(** [upload_video]: the store after the request, and the response.
    [video_id] is the identifier drawn for the upload, [file_name] the name
    the client gave to the file, if any.  Copying the file is outside the
    model. *)
Definition upload_video (analyses : dict Analysis) (video_id : string)
    (file_name : option string) : dict Analysis * UploadResponse :=
  let analyses := dict_set analyses video_id (Processing video_id) in
  (analyses,
   {| upload_videoId := video_id;
      filename :=
        match file_name with
        | Some given => if String.eqb given "" then "uploaded_video.mp4" else given
        | None => "uploaded_video.mp4"
        end;
      upload_status := "processing" |}).

(** The task [upload_video] leaves to run in the background:
    [process_video(video_id, filepath)], the sport left to its default, and
    the record it stores under [video_id]. *)
Definition background_task (analyses : dict Analysis) (video_id : string) (opened : bool)
    (fps_raw : float) (total_frames : Z) (frames : list (list person)) : dict Analysis :=
  dict_set analyses video_id
    (process_video video_id opened fps_raw total_frames frames "general").

Inductive HTTPException : Type :=
| http_exception (status_code : Z) (detail : string).

(** [get_analysis]: the stored record, whatever its status; the [sport]
    of the query is not read. *)
Definition get_analysis (analyses : dict Analysis) (video_id : string) (sport : string)
  : HTTPException + Analysis :=
  match dict_get analyses video_id with
  | None => inl (http_exception 404 "Analysis not found. Upload a video first.")
  | Some data => inr data
  end.

(** *** The chat responder *)

Record ChatMessage : Type := {
  message : string;
  message_videoId : option string
}.

Record ChatResponse : Type := {
  reply : string;
  confidence : float;
  relatedTimestamp : option string
}.

Definition nl : string := String (ascii_of_nat 10) EmptyString.

Definition part_keywords : dict (list string) :=
  [ ("knee", ["knee"; "acl"; "valgus"]);
    ("hip", ["hip"]);
    ("lower_back", ["back"; "lumbar"; "spine"; "trunk"]);
    ("shoulder", ["shoulder"; "rotation"]);
    ("ankle", ["ankle"; "dorsiflexion"]) ].

(** The inner loop of lines 553-556: some entry of [part_keywords] has the
    part of [risk] and a keyword that occurs in [text]. *)
Definition matches (text : string) (risk : RiskEvent) : bool :=
  existsb
    (fun entry : string * list string =>
       String.eqb (part risk) (fst entry)
       && existsb (fun kw => contains kw text) (snd entry))
    part_keywords.

(** [max(events, key=lambda x: x["risk"])]: the first event of highest risk;
    [None] is the exception raised on an empty list. *)
Fixpoint max_from (best : RiskEvent) (rest : list RiskEvent) : RiskEvent :=
  match rest with
  | [] => best
  | e :: rest' => if risk best <? risk e then max_from e rest' else max_from best rest'
  end.

Definition max_by_risk (events : list RiskEvent) : option RiskEvent :=
  match events with
  | [] => None
  | e :: rest => Some (max_from e rest)
  end.

Definition is_empty {A : Type} (l : list A) : bool :=
  match l with [] => true | _ :: _ => false end.

(** [r == top] on event records: every field is compared. *)
Definition angle_eqb (a b : option R) : bool :=
  match a, b with
  | Some x, Some y => Np.Reqb x y
  | None, None => true
  | _, _ => false
  end.

Definition event_eqb (r top : RiskEvent) : bool :=
  String.eqb (timestamp r) (timestamp top)
  && (frame r =? frame top)
  && (risk r =? risk top)
  && String.eqb (part r) (part top)
  && String.eqb (severity r) (severity top)
  && String.eqb (description r) (description top)
  && angle_eqb (angle r) (angle top).

(** The reply given while the analysis is missing or not done. *)
Definition processing_reply : ChatResponse :=
  {| reply := "⏳ The analysis is still processing. Please wait for it to complete before asking questions.";
     confidence := 0.5%float;
     relatedTimestamp := None |}.

Section Chat.

(** [f"{x}"] for a float: the text Python prints for an angle. *)
Variable str_of_float : R -> string.

(** Lines 558-570: the reply about the matched body part. *)
Definition part_reply (risks : list RiskEvent) (top : RiskEvent) : ChatResponse :=
  let part_name := title (replace_char "_" " " (part top)) in
  let reply :=
    "🔍 **" ++ part_name ++ " Analysis** — At " ++ timestamp top
    ++ ", I detected a risk level of " ++ "**" ++ str_of_Z (risk top) ++ "% ("
    ++ severity top ++ ")**." ++ nl ++ nl ++ description top in
  let reply :=
    match angle top with
    | Some a =>
        if negb (Np.Reqb a 0) then
          reply ++ nl ++ nl ++ "Measured angle deviation: **" ++ str_of_float a ++ "°**."
        else reply
    | None => reply
    end in
  let related :=
    filter (fun r => String.eqb (part r) (part top) && negb (event_eqb r top)) risks in
  let reply :=
    if negb (is_empty related) then
      reply ++ nl ++ nl ++ "Additionally found "
      ++ str_of_Z (Z.of_nat (List.length related)) ++ " other " ++ lower part_name
      ++ " event(s) in this session."
    else reply in
  {| reply := reply; confidence := 0.92%float;
     relatedTimestamp := Some (timestamp top) |}.

(** Context-aware chat powered by actual analysis results.  [None] stands
    for an exception. *)
Definition chat_with_ai (analyses : dict Analysis) (video_id : string) (msg : ChatMessage)
  : option ChatResponse :=
  match dict_get analyses video_id with
  | Some (Done data) =>
      let text := lower (message msg) in
      let risks := risks data in
      let matched_risks := filter (matches text) risks in
      if negb (is_empty matched_risks) then
        match max_by_risk matched_risks with
        | Some top => Some (part_reply risks top)
        | None => None
        end
      else if contains "overall" text || contains "summary" text
              || contains "assessment" text then
        let overall := overallRisk data in
        let total_events := Z.of_nat (List.length risks) in
        let high_events :=
          Z.of_nat (List.length
            (filter (fun r => String.eqb (severity r) "HIGH"
                              || String.eqb (severity r) "CRITICAL") risks)) in
        let reply :=
          "📊 **Overall Assessment** — Session risk score: **" ++ str_of_Z overall
          ++ "% (" ++ overallSeverity data ++ ")**." ++ nl ++ nl
          ++ "Detected **" ++ str_of_Z total_events ++ " risk events**, of which **"
          ++ str_of_Z high_events ++ "** are high/critical severity." in
        let reply :=
          if negb (is_empty risks) then
            match max_by_risk risks with
            | Some top =>
                Some (reply ++ nl ++ nl ++ "Highest risk: **"
                      ++ title (replace_char "_" " " (part top)) ++ "** at "
                      ++ timestamp top ++ " (" ++ str_of_Z (risk top) ++ "%).")
            | None => None
            end
          else Some reply in
        match reply with
        | Some reply =>
            let reply :=
              if negb (is_empty (suggestions data)) then
                reply ++ nl ++ nl ++ "**Top Recommendations:**" ++ nl
                ++ join nl (map (fun s => "• " ++ s) (firstn 3 (suggestions data)))
              else reply in
            Some {| reply := reply; confidence := 0.93%float; relatedTimestamp := None |}
        | None => None
        end
      else
        (* Default response with session context *)
        let reply :=
          if negb (is_empty risks) then
            match max_by_risk risks with
            | Some top =>
                Some ("🤖 I analyzed this session and found **"
                      ++ str_of_Z (Z.of_nat (List.length risks)) ++ " risk events**. "
                      ++ "The highest priority is **" ++ replace_char "_" " " (part top)
                      ++ "** at " ++ timestamp top ++ " (" ++ str_of_Z (risk top)
                      ++ "% risk)." ++ nl ++ nl
                      ++ "Ask me about any specific body part — knee, hip, shoulder, back, or ankle!")
            | None => None
            end
          else
            Some "✅ No significant risks were detected in this session. The biomechanics look good! Keep up the great form." in
        match reply with
        | Some reply =>
            Some {| reply := reply; confidence := 0.85%float; relatedTimestamp := None |}
        | None => None
        end
  | Some (Processing _) | Some (Failed _ _) | None => Some processing_reply
  end.

End Chat.

(** *** The player profile *)

Record HistoryPoint : Type := {
  history_date : string;
  history_risk : Z;
  history_label : string
}.

Record PastMatch : Type := {
  match_date : string;
  match_opponent : string;
  match_riskScore : Z;
  match_status : string;
  match_highlights : string
}.

Record InjuryZone : Type := {
  zone_part : string;
  zone_risk : Z;
  zone_trend : string
}.

Record Drill : Type := {
  drill_id : Z;
  drill_name : string;
  drill_description : string;
  drill_duration : string;
  drill_frequency : string;
  drill_targetArea : string;
  drill_difficulty : string;
  drill_riskReduction : Z
}.

Record PlayerProfile : Type := {
  playerId : Z;
  name : string;
  profile_sport : string;
  team : string;
  age : Z;
  position : string;
  riskHistory : list HistoryPoint;
  pastMatches : list PastMatch;
  drills : list Drill;
  injuryZones : list InjuryZone
}.

(** [[a for a in analyses.values() if a.get("status") == "done"]] *)
Fixpoint completed_of (values : list Analysis) : list Completed :=
  match values with
  | [] => []
  | Done data :: rest => data :: completed_of rest
  | _ :: rest => completed_of rest
  end.

(** Lines 642-647: the events of one session added to [injury_counts], a
    dict from a part to [(total_risk, count)]. *)
Fixpoint count_injuries (events : list RiskEvent) (injury_counts : dict (Z * Z))
  : dict (Z * Z) :=
  match events with
  | [] => injury_counts
  | r :: rest =>
      let part := part r in
      let injury_counts :=
        if dict_mem injury_counts part then injury_counts
        else dict_set injury_counts part (0, 0) in
      let '(total_risk, count) := dict_get_default injury_counts part (0, 0) in
      count_injuries rest (dict_set injury_counts part (total_risk + risk r, count + 1))
  end.

(** Lines 625-647: the loop over [enumerate(completed)]. *)
Fixpoint sessions (i : Z) (completed : list Completed)
    (risk_history : list HistoryPoint) (past_matches : list PastMatch)
    (injury_counts : dict (Z * Z))
  : list HistoryPoint * list PastMatch * dict (Z * Z) :=
  match completed with
  | [] => (risk_history, past_matches, injury_counts)
  | a :: rest =>
      let risk_history :=
        append risk_history
          {| history_date := "Session " ++ str_of_Z (i + 1);
             history_risk := overallRisk a;
             history_label := "Session " ++ str_of_Z (i + 1) |} in
      let top_risk_desc :=
        match risks a with
        | [] => ""
        | e :: others =>
            let top := max_from e others in
            title (replace_char "_" " " (part top)) ++ " risk " ++ str_of_Z (risk top) ++ "%"
        end in
      let past_matches :=
        append past_matches
          {| match_date := "Session " ++ str_of_Z (i + 1);
             match_opponent := sport a;
             match_riskScore := overallRisk a;
             match_status := "Completed";
             match_highlights :=
               if String.eqb top_risk_desc "" then "Analysis complete" else top_risk_desc |} in
      sessions (i + 1) rest risk_history past_matches (count_injuries (risks a) injury_counts)
  end.

(** Lines 649-653 *)
Definition injury_zone (entry : string * (Z * Z)) : InjuryZone :=
  let '(part, (total_risk, count)) := entry in
  let avg := total_risk / count in
  {| zone_part := part;
     zone_risk := avg;
     zone_trend :=
       if 50 <? avg then "increasing" else if 30 <? avg then "stable" else "decreasing" |}.

Definition has_zone (injury_zones : list InjuryZone) (p : string) : bool :=
  existsb (fun z => String.eqb (zone_part z) p) injury_zones.

(** Lines 655-681: drills based on the injury zones. *)
Definition drills_for (injury_zones : list InjuryZone) : list Drill :=
  let drills : list Drill := [] in
  let drill_id := 1 in
  let '(drills, drill_id) :=
    if has_zone injury_zones "knee" then
      (append drills
         {| drill_id := drill_id; drill_name := "Single-Leg Squat Stabilizer";
            drill_description := "Strengthen VMO and glute medius to correct knee valgus pattern.";
            drill_duration := "15 min"; drill_frequency := "Daily";
            drill_targetArea := "Knee"; drill_difficulty := "Intermediate";
            drill_riskReduction := 23 |}, drill_id + 1)
    else (drills, drill_id) in
  let '(drills, drill_id) :=
    if has_zone injury_zones "shoulder" then
      (append drills
         {| drill_id := drill_id; drill_name := "Rotator Cuff Band Series";
            drill_description := "External/internal rotation with resistance band for shoulder stability.";
            drill_duration := "10 min"; drill_frequency := "Pre-session";
            drill_targetArea := "Shoulder"; drill_difficulty := "Beginner";
            drill_riskReduction := 15 |}, drill_id + 1)
    else (drills, drill_id) in
  let '(drills, drill_id) :=
    if has_zone injury_zones "lower_back" then
      (append drills
         {| drill_id := drill_id; drill_name := "Anti-Extension Core Circuit";
            drill_description := "Dead bugs, pallof press, and bird-dogs for lumbar stability.";
            drill_duration := "20 min"; drill_frequency := "3x/week";
            drill_targetArea := "Lower Back"; drill_difficulty := "Advanced";
            drill_riskReduction := 19 |}, drill_id + 1)
    else (drills, drill_id) in
  let '(drills, drill_id) :=
    if has_zone injury_zones "hip" then
      (append drills
         {| drill_id := drill_id; drill_name := "Hip Mobility & Activation";
            drill_description := "Banded hip circles, clamshells, and hip flexor stretches.";
            drill_duration := "12 min"; drill_frequency := "Daily";
            drill_targetArea := "Hip"; drill_difficulty := "Beginner";
            drill_riskReduction := 18 |}, drill_id + 1)
    else (drills, drill_id) in
  drills.

(** Build player profile from actual analysis history. *)
Definition get_player (analyses : dict Analysis) (player_id : Z) : PlayerProfile :=
  let completed := completed_of (dict_values analyses) in
  match completed with
  | [] =>
      {| playerId := player_id;
         name := "Athlete";
         profile_sport := "General";
         team := "—";
         age := 0;
         position := "—";
         riskHistory := [];
         pastMatches := [];
         drills := [];
         injuryZones := [] |}
  | first :: others =>
      let '(risk_history, past_matches, injury_counts) := sessions 0 completed [] [] [] in
      let latest := last others first in
      let injury_zones := map injury_zone injury_counts in
      {| playerId := player_id;
         name := playerName latest;
         profile_sport := sport latest;
         team := "—";
         age := 0;
         position := "—";
         riskHistory := last_n 10 risk_history;
         pastMatches := last_n 10 past_matches;
         drills := drills_for injury_zones;
         injuryZones := injury_zones |}
  end.

End Backend.

(** ** Reference definitions for the statements *)

Module Reference.
Import Np Backend.

(** The entry a factor adds to [risks]: none when the factor is not
    computable. *)
Definition entry (key : string) (value : option Z) : dict Z :=
  match value with
  | Some r => [(key, r)]
  | None => []
  end.

(** The nine factors in the order of the source, each with its risk when
    every keypoint it requires is usable. *)
Definition factor_table (person_kp : nat -> point) (person_conf : nat -> R)
  : list (string * option Z) :=
  let kp := Backend.kp person_kp person_conf in
  [ ("L_ACL",
      match kp 11%nat, kp 13%nat, kp 15%nat with
      | Some hip, Some knee, Some ankle => Some (acl_risk (calculate_angle hip knee ankle))
      | _, _, _ => None
      end);
    ("R_ACL",
      match kp 12%nat, kp 14%nat, kp 16%nat with
      | Some hip, Some knee, Some ankle => Some (acl_risk (calculate_angle hip knee ankle))
      | _, _, _ => None
      end);
    ("L_Hip",
      match kp 5%nat, kp 11%nat, kp 13%nat with
      | Some shoulder, Some hip, Some knee =>
          Some (hip_risk (calculate_angle shoulder hip knee))
      | _, _, _ => None
      end);
    ("R_Hip",
      match kp 6%nat, kp 12%nat, kp 14%nat with
      | Some shoulder, Some hip, Some knee =>
          Some (hip_risk (calculate_angle shoulder hip knee))
      | _, _, _ => None
      end);
    ("Trunk",
      match kp 5%nat, kp 6%nat, kp 11%nat, kp 12%nat with
      | Some ls, Some rs, Some lh, Some rh =>
          Some (trunk_risk
                  (trunk_lean_angle
                     ((fst ls + fst rs) / 2, (snd ls + snd rs) / 2)%R
                     ((fst lh + fst rh) / 2, (snd lh + snd rh) / 2)%R))
      | _, _, _, _ => None
      end);
    ("Shoulder_Asym",
      match kp 5%nat, kp 6%nat with
      | Some ls, Some rs => Some (asym_risk (Rabs (snd ls - snd rs)))
      | _, _ => None
      end);
    ("Hip_Asym",
      match kp 11%nat, kp 12%nat with
      | Some lh, Some rh => Some (asym_risk (Rabs (snd lh - snd rh)))
      | _, _ => None
      end);
    ("L_Ankle",
      match kp 13%nat, kp 15%nat with
      | Some knee, Some ankle =>
          Some (ankle_risk
                  (calculate_angle knee ankle
                     (fst ankle + (fst ankle - fst knee) * (3 / 10), snd ankle + 30)%R))
      | _, _ => None
      end);
    ("R_Ankle",
      match kp 14%nat, kp 16%nat with
      | Some knee, Some ankle =>
          Some (ankle_risk
                  (calculate_angle knee ankle
                     (fst ankle + (fst ankle - fst knee) * (3 / 10), snd ankle + 30)%R))
      | _, _ => None
      end) ].

(** The risk levels each factor can take, in the order of [weights]. *)
Definition risk_levels : list (list Z) :=
  [ [90; 60; 30; 0]; [90; 60; 30; 0];
    [80; 45; 20; 0]; [80; 45; 20; 0];
    [75; 50; 25; 0];
    [70; 40; 20; 0]; [70; 40; 20; 0];
    [60; 30; 0]; [60; 30; 0] ].

(** The weight of a factor. *)
Definition weight_of (k : string) : float := dict_get_default weights k 0%float.

(** The divisor and the dividend of the composite, over weighted risks. *)
Definition total_weight (ws : list (Z * float)) : float := sum_float (map snd ws).

Definition weighted_sum (ws : list (Z * float)) : float :=
  sum_float (map (fun rw => float_of_Z (fst rw) * snd rw)%float ws).

(** Every way of leaving out or giving a level to each factor of [levels],
    checked by [check] on the weighted risks it yields. *)
Fixpoint all_choices (check : list (Z * float) -> bool)
    (levels : list (float * list Z)) (chosen : list (Z * float)) : bool :=
  match levels with
  | [] => check chosen
  | (w, values) :: rest =>
      all_choices check rest chosen
      && forallb (fun v => all_choices check rest (chosen ++ [(v, w)])%list) values
  end.

(** What the exhaustive check establishes of a list of weighted risks: a
    positive total weight unless the list is empty, and a quotient that is a
    float between 0 and 100. *)
Definition composite_in_range (ws : list (Z * float)) : bool :=
  match ws with
  | [] => true
  | _ :: _ =>
      ((0 <? total_weight ws)
       && (0 <=? weighted_sum ws / total_weight ws)
       && (weighted_sum ws / total_weight ws <=? 100))%float
  end.

(** A factor's entry among the weighted risks. *)
Definition weighted_entry (w : float) (value : option Z) : list (Z * float) :=
  match value with
  | Some r => [(r, w)]
  | None => []
  end.


Definition level_ok (value : option Z) (level : float * list Z) : Prop :=
  match value with
  | Some v => In v (snd level)
  | None => True
  end.


(** The weights next to the levels of each factor. *)
Definition weighted_levels : list (float * list Z) :=
  combine (map snd weights) risk_levels.




(** The key of the deduplication. *)
Definition event_key (e : RiskEvent) : string * string := (timestamp e, part e).

(** Descending risk. *)
Definition by_risk (a b : RiskEvent) : Prop := risk b <= risk a.

(** [e] is a first occurrence of its key in [l]. *)
Definition first_occurrence (e : RiskEvent) (l : list RiskEvent) : Prop :=
  exists before after : list RiskEvent,
    l = (before ++ e :: after)%list
    /\ forall x, In x before -> event_key x <> event_key e.

(** An event with the fields the deduplication reads. *)
Definition sample_event (ts p : string) (r : Z) : RiskEvent :=
  {| timestamp := ts; frame := 150; risk := r; part := p;
     severity := risk_severity r;
     description := dict_get_default FACTOR_DESCRIPTIONS "L_ACL" "";
     angle := None |}.

(** The per-part suggestions, in the order of the source. *)
Definition suggestion_catalog : list (string * string) :=
  [ ("knee", "Implement knee valgus correction drills — single-leg squats and knee-over-toe exercises");
    ("hip", "Add hip mobility and glute activation warm-up before training sessions");
    ("lower_back", "Strengthen core with anti-extension exercises (planks, dead bugs, pallof press)");
    ("shoulder", "Include rotator cuff strengthening and shoulder mobility work pre-session");
    ("ankle", "Work on ankle mobility and dorsiflexion with banded stretches") ].

Definition high_band_suggestion : string :=
  "Overall risk is HIGH — consider reducing training intensity and scheduling a biomechanics review".

Definition moderate_band_suggestion : string :=
  "Moderate risk levels detected — monitor form closely during high-intensity phases".

Definition positive_suggestion : string :=
  "Good biomechanics observed — maintain current form and continue injury prevention exercises".

(** Some event is on part [p]. *)
Definition on_part (events : list RiskEvent) (p : string) : bool :=
  existsb (fun e => String.eqb (part e) p) events.

(** The catalog filtered to the parts present among the events. *)
Definition part_suggestions (events : list RiskEvent) : list string :=
  map snd (filter (fun entry => on_part events (fst entry)) suggestion_catalog).

(** The risk-band suggestion, if any. *)
Definition band_suggestion (avg_risk : float) : list string :=
  if (60 <? avg_risk)%float then [high_band_suggestion]
  else if (40 <? avg_risk)%float then [moderate_band_suggestion]
  else [].

(** The profile returned when no analysis is done. *)
Definition empty_profile (player_id : Z) : PlayerProfile :=
  {| playerId := player_id;
     name := "Athlete";
     profile_sport := "General";
     team := "—";
     age := 0;
     position := "—";
     riskHistory := [];
     pastMatches := [];
     drills := [];
     injuryZones := [] |}.

(** The analysis of [video_id] is missing from the store or not done. *)
Definition not_done (analyses : dict Analysis) (video_id : string) : Prop :=
  forall a : Analysis, dict_get analyses video_id = Some a -> status a <> "done".

(** The description that tells the events of a factor from the others. *)
Definition description_of (factor : string) : string :=
  dict_get_default FACTOR_DESCRIPTIONS factor ("Risk detected in " ++ factor).

Definition of_factor (factor : string) (e : RiskEvent) : bool :=
  String.eqb (description e) (description_of factor).

(** One visit of the event loop to a factor: the frame number, the details
    of the frame and the risk value of the factor. *)
Definition visit : Type := (Z * dict R * Z)%type.

Definition visit_frame (v : visit) : Z := fst (fst v).
Definition visit_details (v : visit) : dict R := snd (fst v).
Definition visit_risk (v : visit) : Z := snd v.

(** The visits to [factor], frame after frame, from frame [frame_count + 1]. *)
Fixpoint visits (factor : string) (frames : list (dict Z * dict R)) (frame_count : Z)
  : list visit :=
  match frames with
  | [] => []
  | (frame_risks_all, frame_details_all) :: rest =>
      (map (fun kr => (frame_count + 1, frame_details_all, snd kr))
         (filter (fun kr => String.eqb (fst kr) factor) frame_risks_all)
       ++ visits factor rest (frame_count + 1))%list
  end.

(** The state machine of one factor: its next state and the events it emits
    at a visit. *)
Definition step (fps : float) (factor : string) (v : visit) (state : FactorState)
  : option (FactorState * list RiskEvent) :=
  if (30 <=? visit_risk v) && negb (active state) then
    Some ({| active := true; start_frame := visit_frame v;
             peak_risk := visit_risk v; peak_frame := visit_frame v;
             peak_angle := detail_of (visit_details v) factor |}, [])
  else if (30 <=? visit_risk v) && active state then
    if peak_risk state <? visit_risk v then
      Some ({| active := active state; start_frame := start_frame state;
               peak_risk := visit_risk v; peak_frame := visit_frame v;
               peak_angle := detail_of (visit_details v) factor |}, [])
    else Some (state, [])
  else if (visit_risk v <? 30) && active state then
    match make_event fps factor state with
    | Some event =>
        Some ({| active := false; start_frame := start_frame state;
                 peak_risk := peak_risk state; peak_frame := peak_frame state;
                 peak_angle := peak_angle state |}, [event])
    | None => None
    end
  else Some (state, []).

Fixpoint run (fps : float) (factor : string) (vs : list visit) (state : FactorState)
  : option (FactorState * list RiskEvent) :=
  match vs with
  | [] => Some (state, [])
  | v :: rest =>
      match step fps factor v state with
      | Some (state', emitted) =>
          match run fps factor rest state' with
          | Some (final, later) => Some (final, (emitted ++ later)%list)
          | None => None
          end
      | None => None
      end
  end.

(** The state of [factor] in [factor_states]. *)
Definition state_of (states : dict FactorState) (factor : string) : FactorState :=
  dict_get_default states factor initial_state.

(** [v] is the first visit of highest risk among [vs]. *)
Definition first_peak (v : visit) (vs : list visit) : Prop :=
  exists before after : list visit,
    vs = (before ++ v :: after)%list
    /\ (forall x, In x before -> visit_risk x < visit_risk v)
    /\ (forall x, In x after -> visit_risk x <= visit_risk v).

(** The frame clock gives a timestamp to each of the first [n] frames. *)
Definition clock_ok (fps : float) (n : Z) : Prop :=
  forall k : Z, 1 <= k <= n -> frames_to_timestamp k fps <> None.

(** What the loop keeps true of a factor's state at frame [n]. *)
Definition state_ok (n : Z) (state : FactorState) : Prop :=
  active state = true -> 30 <= peak_risk state /\ 1 <= peak_frame state <= n.

(** What holds of every event emitted. *)
Definition event_ok (e : RiskEvent) : Prop :=
  30 <= risk e /\ severity e = risk_severity (risk e).

(** An emitted event is at least at the activation threshold, and its label
    is the one of its risk, never "LOW". *)
Definition never_low (e : RiskEvent) : Prop :=
  30 <= risk e
  /\ severity e = risk_severity (risk e)
  /\ severity e <> "LOW"
  /\ (severity e = "MEDIUM" \/ severity e = "HIGH" \/ severity e = "CRITICAL").

(** The frames of a video in which one factor alone is computed, with the
    given risk values. *)
Definition frames_of (factor : string) (values : list Z) : list (dict Z * dict R) :=
  map (fun v => ([(factor, v)], [])) values.

(** The event of the sequence 0, 40, 55, 20, 0 of the left knee at 30
    frames per second: the peak 55 of frame 3. *)
Definition hysteresis_event : RiskEvent :=
  {| timestamp := "0:00"; frame := 3; risk := 55; part := "knee";
     severity := "MEDIUM"; description := description_of "L_ACL"; angle := None |}.

(** A person standing straight and level, facing the camera. *)
Definition standing_kp (idx : nat) : point :=
  match idx with
  | 5%nat => (100, 100)%R
  | 6%nat => (200, 100)%R
  | 11%nat => (100, 300)%R
  | 12%nat => (200, 300)%R
  | 13%nat => (100, 400)%R
  | 14%nat => (200, 400)%R
  | 15%nat => (100, 500)%R
  | 16%nat => (200, 500)%R
  | _ => (0, 0)%R
  end.

Definition standing_conf (idx : nat) : R := (9 / 10)%R.

(** A keypoint is usable: confident enough and inside the image. *)
Definition usable (person_kp : nat -> point) (person_conf : nat -> R) (idx : nat) : bool :=
  Rgtb (person_conf idx) CONF_THRESH && is_visible (person_kp idx).

(** The levels of each factor, by its key. *)
Definition factor_levels : dict (list Z) := combine (dict_keys weights) risk_levels.

(** The weights in hundredths, and the weighted mean of a [risks] dict in
    exact integer arithmetic, rounded down. *)
Definition percent : dict Z :=
  [ ("L_ACL", 25); ("R_ACL", 25); ("L_Hip", 10); ("R_Hip", 10); ("Trunk", 12);
    ("Shoulder_Asym", 5); ("Hip_Asym", 5); ("L_Ankle", 4); ("R_Ankle", 4) ].

Definition percent_of (k : string) : Z := dict_get_default percent k 0.

Definition exact_composite (risks : dict Z) : Z :=
  sum_Z (map (fun kr => snd kr * percent_of (fst kr)) risks)
  / sum_Z (map (fun kr => percent_of (fst kr)) risks).

(** The value of a finite positive float of mantissa [m] and exponent [e],
    in units of [2^-1074], the smallest positive float. *)
Definition scaled (m : positive) (e : Z) : Z := Z.pos m * 2 ^ (e + 1074).

(** [float(n)] is a valid finite positive float of value [n]. *)
Definition small_float_ok (n : Z) : bool :=
  match Prim2SF (float_of_Z n) with
  | S754_finite false m e => bounded prec emax m e && (scaled m e =? n * 2 ^ 1074)
  | _ => false
  end.

(** The float weight and the hundredths of each factor, next to its levels. *)
Definition percent_levels : list ((float * Z) * list Z) :=
  combine (combine (map snd weights) (map snd percent)) risk_levels.

Definition pick_ok (value : option Z) (level : (float * Z) * list Z) : Prop :=
  match value with
  | Some v => In v (snd level)
  | None => True
  end.

Definition picked (w : float * Z) (value : option Z) : list (Z * (float * Z)) :=
  match value with
  | Some r => [(r, w)]
  | None => []
  end.

(** The four running sums of the composite: the dividend and the divisor in
    floats, and the same two in hundredths. *)
Definition sums : Type := (float * float * Z * Z)%type.

Definition add_risk (acc : sums) (x : Z * (float * Z)) : sums :=
  let '(fsum, ftot, num, den) := acc in
  ((fsum + float_of_Z (fst x) * fst (snd x))%float, (ftot + fst (snd x))%float,
   num + fst x * snd (snd x), den + snd (snd x)).

(** Every way of leaving out or giving a level to each factor, the sums
    carried along. *)
Fixpoint all_sums (check : sums -> bool) (levels : list ((float * Z) * list Z))
    (acc : sums) : bool :=
  match levels with
  | [] => check acc
  | (w, values) :: rest =>
      all_sums check rest acc
      && forallb (fun v => all_sums check rest (add_risk acc (v, w))) values
  end.

(** What the exhaustive check establishes of the composite: the float
    quotient lies from the exact weighted mean rounded down, less one, up to
    the next integer above it, and that mean is between 0 and 90. *)
Definition composite_near_exact (acc : sums) : bool :=
  let '(fsum, ftot, num, den) := acc in
  (den =? 0)
  || (let q := num / den in
      let c := (fsum / ftot)%float in
      (0 <=? q) && (q <=? 90)
      && (float_of_Z (Z.max (q - 1) 0) <=? c)%float && (c <? float_of_Z (q + 1))%float).

(** [enumerate(l, start)] *)
Fixpoint enumerate {A : Type} (start : Z) (l : list A) : list (Z * A) :=
  match l with
  | [] => []
  | x :: rest => (start, x) :: enumerate (start + 1) rest
  end.

(** The two records a session adds to the profile. *)
Definition history_point (ia : Z * Completed) : HistoryPoint :=
  {| history_date := "Session " ++ str_of_Z (fst ia + 1);
     history_risk := overallRisk (snd ia);
     history_label := "Session " ++ str_of_Z (fst ia + 1) |}.

Definition past_match (ia : Z * Completed) : PastMatch :=
  {| match_date := "Session " ++ str_of_Z (fst ia + 1);
     match_opponent := sport (snd ia);
     match_riskScore := overallRisk (snd ia);
     match_status := "Completed";
     match_highlights :=
       match max_by_risk (risks (snd ia)) with
       | Some top =>
           let text := title (replace_char "_" " " (part top)) ++ " risk "
                       ++ str_of_Z (risk top) ++ "%" in
           if String.eqb text "" then "Analysis complete" else text
       | None => "Analysis complete"
       end |}.

(** The events on part [p]. *)
Definition events_on (p : string) (events : list RiskEvent) : list RiskEvent :=
  filter (fun e => String.eqb (part e) p) events.

(** The events of every completed analysis, oldest first. *)
Definition all_events (completed : list Completed) : list RiskEvent :=
  flat_map risks completed.

(** The largest of a list of scores, 0 for none. *)
Definition highest (scores : list Z) : Z := fold_right Z.max 0 scores.

(** The risks and details of a detected person, and the composite. *)
Definition pose_risks (p : person) : dict Z * dict R := risk_factors (fst p) (snd p).

Definition pose_composite (p : person) : Z :=
  match composite_score (fst (pose_risks p)) with
  | Some composite => composite
  | None => 0
  end.

(** The console's risks and composite of a detected person. *)
Definition console_risks (conf_thresh : R) (p : person) : dict Z :=
  Console.risk_factors conf_thresh (fst p) (snd p).

Definition console_composite (conf_thresh : R) (p : person) : Z :=
  match Console.composite (console_risks conf_thresh p) with
  | Some comp => comp
  | None => 0
  end.

(** A detection none of whose keypoints is usable. *)
Definition nobody : person := (fun _ => (0, 0)%R, fun _ => 0%R).

(** The score of a frame: the highest composite among its persons. *)
Definition frame_score (persons : list person) : Z :=
  fold_left Z.max (map pose_composite persons) 0.

(** The record of a video of two frames without any person, at 30 frames
    per second. *)
Definition quiet_video : Completed :=
  {| videoId := "ab12cd34"; sport := "general"; playerName := "Athlete";
     overallRisk := 0; overallSeverity := "LOW"; duration := "0:00"; fps := 30;
     risks := []; suggestions := [positive_suggestion]; riskTimeline := [0; 0];
     totalFrames := 2; peakRisk := 0 |}.

(** The identifier an entry of the store carries. *)
Definition analysis_id (a : Analysis) : string :=
  match a with
  | Processing video_id => video_id
  | Failed video_id _ => video_id
  | Done data => videoId data
  end.

(** The question asks for the overall picture. *)
Definition asks_overview (text : string) : bool :=
  contains "overall" text || contains "summary" text || contains "assessment" text.

(** The parts that have a drill, with the area the drill names, in the
    order of the source. *)
Definition drill_catalog : list (string * string) :=
  [ ("knee", "Knee"); ("shoulder", "Shoulder"); ("lower_back", "Lower Back");
    ("hip", "Hip") ].

(** An event of a video of [n] frames is placed: it lies in a frame of the
    video, carries the timestamp of that frame, and has the part and the
    description of one of the nine factors. *)
Definition event_placed (fps : float) (n : Z) (e : RiskEvent) : Prop :=
  1 <= frame e <= n
  /\ frames_to_timestamp (frame e) fps = Some (timestamp e)
  /\ exists factor : string,
       In factor (dict_keys weights)
       /\ part e = dict_get_default FACTOR_TO_PART factor factor
       /\ description e = description_of factor.

(** The episodes of a factor: its visits cut into the maximal runs of values
    at 30 or above.  [current] is the run under way; the result holds the
    runs that a value below 30 has ended, in order, and the run still under
    way after the last visit. *)
Fixpoint episodes (vs : list visit) (current : list visit)
  : list (list visit) * list visit :=
  match vs with
  | [] => ([], current)
  | v :: rest =>
      if 30 <=? visit_risk v then episodes rest (current ++ [v])
      else
        match current with
        | [] => episodes rest []
        | _ :: _ => (current :: fst (episodes rest []), snd (episodes rest []))
        end
  end.

(** [e] is the event of the run [burst] of [factor]: it carries the first
    highest value of the run, the frame of that value with its timestamp,
    and the angle measured in that frame. *)
Definition burst_event (fps : float) (factor : string) (burst : list visit)
    (e : RiskEvent) : Prop :=
  exists peak : visit,
    first_peak peak burst
    /\ risk e = visit_risk peak
    /\ frame e = visit_frame peak
    /\ frames_to_timestamp (visit_frame peak) fps = Some (timestamp e)
    /\ severity e = risk_severity (visit_risk peak)
    /\ part e = dict_get_default FACTOR_TO_PART factor factor
    /\ description e = description_of factor
    /\ angle e = option_map round1 (detail_of (visit_details peak) factor).

(** The state of a factor follows the run under way: inactive when there is
    none, and else active with the first highest value of the run so far. *)
Definition tracks (factor : string) (current : list visit) (state : FactorState) : Prop :=
  match current with
  | [] => active state = false
  | _ :: _ =>
      active state = true
      /\ exists peak : visit,
           first_peak peak current
           /\ peak_risk state = visit_risk peak
           /\ peak_frame state = visit_frame peak
           /\ peak_angle state = detail_of (visit_details peak) factor
  end.

(** The two events of the sequence 55, 0, 40, 0 of the left knee at one
    frame per second: the factor is activated twice. *)
Definition first_burst_event : RiskEvent :=
  {| timestamp := "0:01"; frame := 1; risk := 55; part := "knee";
     severity := "MEDIUM"; description := description_of "L_ACL"; angle := None |}.

Definition second_burst_event : RiskEvent :=
  {| timestamp := "0:03"; frame := 3; risk := 40; part := "knee";
     severity := "MEDIUM"; description := description_of "L_ACL"; angle := None |}.

(** A person of whom only the left shoulder, hip and knee are detected, the
    thigh at a right angle to the torso. *)
Definition seated_kp (idx : nat) : point :=
  match idx with
  | 5%nat => (100, 100)%R
  | 11%nat => (100, 200)%R
  | 13%nat => (200, 200)%R
  | _ => (0, 0)%R
  end.

Definition seated_conf (idx : nat) : R :=
  match idx with
  | 5%nat | 11%nat | 13%nat => (9 / 10)%R
  | _ => 0%R
  end.

(** The event and the record of a video of one frame, at 30 frames per
    second, that shows one person standing straight. *)
Definition standing_event : RiskEvent :=
  {| timestamp := "0:00"; frame := 1; risk := 60; part := "ankle";
     severity := "HIGH"; description := description_of "L_Ankle"; angle := None |}.

Definition standing_video : Completed :=
  {| videoId := "ab12cd34"; sport := "general"; playerName := "Athlete";
     overallRisk := 4; overallSeverity := "LOW"; duration := "0:00"; fps := 30;
     risks := [standing_event];
     suggestions := ["Work on ankle mobility and dorsiflexion with banded stretches"];
     riskTimeline := [4]; totalFrames := 1; peakRisk := 4 |}.

End Reference.

(** * Properties *)

Import Np Backend.

(** ** Comparisons on real numbers *)

Lemma Rltb_true (x y : R) : Rltb x y = true <-> (x < y)%R.
Proof. unfold Rltb; destruct (Rlt_dec x y); split; intros; try easy. Qed.

Lemma Rltb_false (x y : R) : Rltb x y = false <-> (y <= x)%R.
Proof.
  unfold Rltb; destruct (Rlt_dec x y); split; intros; try easy; lra.
Qed.

Lemma Reqb_true (x y : R) : Reqb x y = true <-> x = y.
Proof. unfold Reqb; destruct (Req_dec_T x y); split; intros; easy. Qed.

Lemma Reqb_false (x y : R) : Reqb x y = false <-> x <> y.
Proof. unfold Reqb; destruct (Req_dec_T x y); split; intros; easy. Qed.

(** Decides a comparison between two real numbers that [lra] can order. *)
Ltac real_test :=
  repeat match goal with
  | |- context [Rgtb ?x ?y] => unfold Rgtb
  | |- context [Rltb ?x ?y] =>
      first [ rewrite (proj2 (Rltb_true x y)) by lra
            | rewrite (proj2 (Rltb_false x y)) by lra ]
  | |- context [Reqb ?x ?y] =>
      first [ rewrite (proj2 (Reqb_true x y)) by lra
            | rewrite (proj2 (Reqb_false x y)) by lra ]
  end.

(** ** Geometry *)

Lemma norm_nonneg (u : point) : (0 <= norm u)%R.
Proof. apply sqrt_pos. Qed.

Lemma dot_self_nonneg (u : point) : (0 <= dot u u)%R.
Proof. unfold dot; nra. Qed.

Lemma norm_zero_iff (u : point) : norm u = 0%R <-> u = (0%R, 0%R).
Proof.
  destruct u as [x y]; unfold norm; split.
  - intros H. apply sqrt_eq_0 in H; [| apply dot_self_nonneg].
    unfold dot in H; simpl in H.
    assert (x = 0%R) by nra. assert (y = 0%R) by nra. congruence.
  - intros H; inversion H; subst. unfold dot; simpl.
    replace (0 * 0 + 0 * 0)%R with 0%R by lra. apply sqrt_0.
Qed.

Lemma sub_zero_iff (a b : point) : sub a b = (0%R, 0%R) <-> a = b.
Proof.
  destruct a as [ax ay], b as [bx b_y]; unfold sub; simpl; split; intros H.
  - inversion H. f_equal; lra.
  - inversion H; subst. f_equal; lra.
Qed.

Lemma arm_zero_iff (a b : point) : norm (sub a b) = 0%R <-> a = b.
Proof. rewrite norm_zero_iff. apply sub_zero_iff. Qed.

Lemma degrees_PI : degrees PI = 180%R.
Proof. unfold degrees. field. apply PI_neq0. Qed.

Lemma degrees_half_PI : degrees (PI / 2) = 90%R.
Proof. unfold degrees. field. apply PI_neq0. Qed.

Lemma acos_minus_1 : acos (-1) = PI.
Proof.
  replace (-1)%R with (- (1))%R by lra.
  rewrite acos_opp, acos_1. lra.
Qed.

Lemma clip_inside (x : R) : (-1 <= x <= 1)%R -> clip x (-1) 1 = x.
Proof.
  intros [H1 H2]. unfold clip.
  rewrite Rmax_left by lra. apply Rmin_left; lra.
Qed.

Lemma clip_bounds (x : R) : (-1 <= clip x (-1) 1 <= 1)%R.
Proof.
  unfold clip. split.
  - apply Rmin_glb; [| lra]. apply Rmax_r.
  - apply Rmin_r.
Qed.

(** The value of [calculate_angle] when both arms have a length. *)
Lemma calculate_angle_arms (a b c : point) :
  a <> b -> c <> b ->
  calculate_angle a b c =
  degrees (acos (clip (dot (sub a b) (sub c b) / (norm (sub a b) * norm (sub c b))) (-1) 1)).
Proof.
  intros Ha Hc. unfold calculate_angle; cbv zeta.
  rewrite (proj2 (Reqb_false (norm (sub a b)) 0)) by (rewrite arm_zero_iff; exact Ha).
  rewrite (proj2 (Reqb_false (norm (sub c b)) 0)) by (rewrite arm_zero_iff; exact Hc).
  reflexivity.
Qed.

Lemma calculate_angle_degenerate (a b c : point) :
  a = b \/ c = b -> calculate_angle a b c = 180%R.
Proof.
  intros H. unfold calculate_angle; cbv zeta.
  destruct H as [H | H]; apply arm_zero_iff in H.
  - rewrite (proj2 (Reqb_true _ _) H). reflexivity.
  - rewrite (proj2 (Reqb_true (norm (sub c b)) 0) H), orb_true_r. reflexivity.
Qed.

Lemma calculate_angle_range (a b c : point) :
  (0 <= calculate_angle a b c <= 180)%R.
Proof.
  unfold calculate_angle; cbv zeta.
  destruct (Reqb (norm (sub a b)) 0 || Reqb (norm (sub c b)) 0); [lra |].
  set (x := clip _ _ _).
  pose proof (acos_bound x) as [H0 H1].
  pose proof PI_RGT_0 as Hpi.
  unfold arccos, degrees. split.
  - apply Rmult_le_pos; [exact H0 |]. apply Rlt_le, Rdiv_lt_0_compat; lra.
  - assert (Hk : (0 <= 180 / PI)%R) by (apply Rlt_le, Rdiv_lt_0_compat; lra).
    pose proof (Rmult_le_compat_r _ _ _ Hk H1) as Hle.
    pose proof degrees_PI as Hd. unfold degrees in Hd. lra.
Qed.

(** Three points on a vertical line, the vertex between the two others:
    a straight joint. *)
Lemma calculate_angle_vertical (a b c : point) :
  fst a = fst b -> fst c = fst b -> (snd a < snd b)%R -> (snd b < snd c)%R ->
  calculate_angle a b c = 180%R.
Proof.
  destruct a as [ax ay], b as [bx b_y], c as [cx cy]; simpl.
  intros -> -> Hab Hbc.
  assert (Hn1 : norm (sub (bx, ay) (bx, b_y)) = (b_y - ay)%R).
  { unfold norm, sub, dot; simpl.
    replace ((bx - bx) * (bx - bx) + (ay - b_y) * (ay - b_y))%R
      with (Rsqr (b_y - ay)) by (unfold Rsqr; ring).
    apply sqrt_Rsqr; lra. }
  assert (Hn2 : norm (sub (bx, cy) (bx, b_y)) = (cy - b_y)%R).
  { unfold norm, sub, dot; simpl.
    replace ((bx - bx) * (bx - bx) + (cy - b_y) * (cy - b_y))%R
      with (Rsqr (cy - b_y)) by (unfold Rsqr; ring).
    apply sqrt_Rsqr; lra. }
  unfold calculate_angle; cbv zeta. rewrite Hn1, Hn2.
  real_test. simpl orb. cbv iota.
  replace (dot (sub (bx, ay) (bx, b_y)) (sub (bx, cy) (bx, b_y)) / ((b_y - ay) * (cy - b_y)))%R
    with (-1)%R.
  - rewrite clip_inside by lra. unfold arccos. rewrite acos_minus_1. apply degrees_PI.
  - unfold dot, sub; simpl. field. lra.
Qed.

Lemma calculate_angle_straight :
  calculate_angle (0, 1)%R (0, 0)%R (0, -1)%R = 180%R.
Proof.
  unfold calculate_angle, norm, sub, dot; simpl.
  replace (0 - 0)%R with 0%R by lra.
  replace (1 - 0)%R with 1%R by lra.
  replace (-1 - 0)%R with (-1)%R by lra.
  replace (0 * 0 + 1 * 1)%R with 1%R by lra.
  replace (0 * 0 + -1 * -1)%R with 1%R by lra.
  rewrite sqrt_1. real_test. simpl orb. cbv iota.
  replace ((0 * 0 + 1 * -1) / (1 * 1))%R with (-1)%R by lra.
  rewrite clip_inside by lra. unfold arccos. rewrite acos_minus_1. apply degrees_PI.
Qed.

Lemma calculate_angle_right :
  calculate_angle (1, 0)%R (0, 0)%R (0, 1)%R = 90%R.
Proof.
  unfold calculate_angle, norm, sub, dot; simpl.
  replace (0 - 0)%R with 0%R by lra.
  replace (1 - 0)%R with 1%R by lra.
  replace (1 * 1 + 0 * 0)%R with 1%R by lra.
  replace (0 * 0 + 1 * 1)%R with 1%R by lra.
  rewrite sqrt_1. real_test. simpl orb. cbv iota.
  replace ((1 * 0 + 0 * 1) / (1 * 1))%R with 0%R by lra.
  rewrite clip_inside by lra. unfold arccos. rewrite acos_0. apply degrees_half_PI.
Qed.

(** C5: [calculate_angle a b c] is the angle in degrees whose cosine is the
    normalised dot product of the two arms [a - b] and [c - b], clamped to
    [[-1, 1]], whenever both arms have a length; it is 180 as soon as an arm
    has none ([a = b] or [c = b]).  The opposite points (0,1), (0,0), (0,-1)
    give 180 and the right angle (1,0), (0,0), (0,1) gives 90. *)
Theorem calculate_angle_spec (a b c : point) :
  (a <> b -> c <> b ->
   calculate_angle a b c =
   degrees (acos (clip (dot (sub a b) (sub c b) / (norm (sub a b) * norm (sub c b))) (-1) 1)))
  /\ (a = b \/ c = b -> calculate_angle a b c = 180%R)
  /\ (norm (sub a b) = 0%R <-> a = b)
  /\ (norm (sub c b) = 0%R <-> c = b)
  /\ calculate_angle (0, 1)%R (0, 0)%R (0, -1)%R = 180%R
  /\ calculate_angle (1, 0)%R (0, 0)%R (0, 1)%R = 90%R.
Proof.
  split; [apply calculate_angle_arms |].
  split; [apply calculate_angle_degenerate |].
  split; [apply arm_zero_iff |].
  split; [apply arm_zero_iff |].
  split; [apply calculate_angle_straight | apply calculate_angle_right].
Qed.

(** The witness of [calculate_angle_spec]: the right angle, whose two arms
    have a length. *)
Lemma calculate_angle_spec_witness :
  calculate_angle (1, 0)%R (0, 0)%R (0, 1)%R
  = degrees (acos (clip (dot (sub (1, 0)%R (0, 0)%R) (sub (0, 1)%R (0, 0)%R)
                         / (norm (sub (1, 0)%R (0, 0)%R) * norm (sub (0, 1)%R (0, 0)%R)))
                     (-1) 1)).
Proof.
  apply (proj1 (calculate_angle_spec (1, 0)%R (0, 0)%R (0, 1)%R)).
  - intros H. inversion H. lra.
  - intros H. inversion H. lra.
Defined.

(** ** The risk factors of a pose *)

Import Reference.
Local Open Scope list_scope.

Lemma risk_factors_table (person_kp : nat -> point) (person_conf : nat -> R) :
  fst (risk_factors person_kp person_conf)
  = List.concat (map (fun kv => entry (fst kv) (snd kv)) (factor_table person_kp person_conf)).
Proof.
  unfold risk_factors, factor_table; cbv zeta.
  destruct (kp person_kp person_conf 5), (kp person_kp person_conf 6),
    (kp person_kp person_conf 11), (kp person_kp person_conf 12),
    (kp person_kp person_conf 13), (kp person_kp person_conf 14),
    (kp person_kp person_conf 15), (kp person_kp person_conf 16);
    reflexivity.
Qed.

(** ** Floats *)

Lemma int_of_float_in_range (c : float) :
  (0 <=? c)%float = true -> (c <=? 100)%float = true ->
  exists z, int_of_float c = Some z /\ 0 <= z.
Proof.
  rewrite !leb_spec. unfold int_of_float.
  change (Prim2SF 0) with (S754_zero false).
  set (hundred := Prim2SF 100).
  destruct (Prim2SF c) as [s | s | | s m e]; intros Hlo Hhi.
  - exists 0. split; [reflexivity | lia].
  - destruct s; [discriminate Hlo | discriminate Hhi].
  - discriminate Hlo.
  - destruct s; [discriminate Hlo |].
    eexists; split; [reflexivity |].
    destruct (0 <=? e) eqn:He.
    + apply Z.mul_nonneg_nonneg; [lia |]. apply Z.pow_nonneg; lia.
    + apply Z.div_pos; [lia |]. apply Z.pow_pos_nonneg; lia.
Qed.

(** ** The composite score *)

Lemma weighted_app (ws : dict float) (a b : dict Z) :
  weighted ws (a ++ b) = (weighted ws a ++ weighted ws b)%list.
Proof.
  induction a as [| [k r] a IH]; simpl; [reflexivity |].
  destruct (dict_get ws k); simpl; rewrite IH; reflexivity.
Qed.

(** The weighted risks of a pose, through [factor_table]. *)
Lemma weighted_table (o1 o2 o3 o4 o5 o6 o7 o8 o9 : option Z) :
  weighted weights
    (List.concat (map (fun kv => entry (fst kv) (snd kv))
       [ ("L_ACL", o1); ("R_ACL", o2); ("L_Hip", o3); ("R_Hip", o4); ("Trunk", o5);
         ("Shoulder_Asym", o6); ("Hip_Asym", o7); ("L_Ankle", o8); ("R_Ankle", o9) ]))
  = List.concat
      [ weighted_entry 0.25 o1; weighted_entry 0.25 o2; weighted_entry 0.10 o3;
        weighted_entry 0.10 o4; weighted_entry 0.12 o5; weighted_entry 0.05 o6;
        weighted_entry 0.05 o7; weighted_entry 0.04 o8; weighted_entry 0.04 o9 ]%float.
Proof.
  cbn [map List.concat fst snd]. rewrite !weighted_app.
  repeat (f_equal; [match goal with |- context [entry _ ?o] => destruct o end; reflexivity |]).
  destruct o9; reflexivity.
Qed.

(** Every key of [risks] has a weight: the filter [if k in weights] of the
    source lets every computed factor through. *)
Lemma weighted_all (o1 o2 o3 o4 o5 o6 o7 o8 o9 : option Z) :
  let risks :=
    List.concat (map (fun kv => entry (fst kv) (snd kv))
       [ ("L_ACL", o1); ("R_ACL", o2); ("L_Hip", o3); ("R_Hip", o4); ("Trunk", o5);
         ("Shoulder_Asym", o6); ("Hip_Asym", o7); ("L_Ankle", o8); ("R_Ankle", o9) ]) in
  weighted weights risks = map (fun kr => (snd kr, weight_of (fst kr))) risks
  /\ forallb (fun kr => dict_mem weights (fst kr)) risks = true.
Proof.
  cbv zeta. cbn [map List.concat fst snd].
  rewrite !weighted_app, !map_app, !forallb_app.
  split.
  - repeat (f_equal; [match goal with |- context [entry _ ?o] => destruct o end; reflexivity |]).
    destruct o9; reflexivity.
  - repeat (apply andb_true_intro; split;
            [match goal with |- context [entry _ ?o] => destruct o end; reflexivity |]).
    destruct o9; reflexivity.
Qed.

Lemma all_choices_sound (check : list (Z * float) -> bool) :
  forall (levels : list (float * list Z)) (chosen : list (Z * float)),
    all_choices check levels chosen = true ->
    forall picks : list (option Z),
      Forall2 level_ok picks levels ->
      check (chosen
             ++ List.concat (map (fun p => weighted_entry (fst (snd p)) (fst p))
                               (combine picks levels)))%list = true.
Proof.
  induction levels as [| [w values] levels IH]; intros chosen Hall picks Hpicks.
  - inversion Hpicks; subst. simpl. rewrite app_nil_r. exact Hall.
  - inversion Hpicks as [| o lv picks' levels' Ho Hrest]; subst.
    simpl in Hall. apply andb_prop in Hall as [Hnone Hsome].
    cbn [combine map List.concat fst snd].
    destruct o as [v |]; cbn [weighted_entry].
    + rewrite forallb_forall in Hsome. specialize (Hsome v Ho).
      specialize (IH _ Hsome picks' Hrest).
      rewrite <- app_assoc in IH. exact IH.
    + exact (IH _ Hnone picks' Hrest).
Qed.

(** The exhaustive check: 1 250 000 combinations of present factors and
    levels. *)
Lemma all_composites_in_range :
  all_choices composite_in_range weighted_levels [] = true.
Proof. vm_compute. reflexivity. Qed.

Lemma acl_risk_levels (x : R) : In (acl_risk x) [90; 60; 30; 0].
Proof.
  unfold acl_risk.
  destruct (Rltb x 120); [simpl; tauto |].
  destruct (Rltb x 140); [simpl; tauto |].
  destruct (Rltb x 160); simpl; tauto.
Qed.

Lemma hip_risk_levels (x : R) : In (hip_risk x) [80; 45; 20; 0].
Proof.
  unfold hip_risk.
  destruct (Rltb x 100); [simpl; tauto |].
  destruct (Rltb x 130); [simpl; tauto |].
  destruct (Rltb x 150); simpl; tauto.
Qed.

Lemma trunk_risk_levels (x : R) : In (trunk_risk x) [75; 50; 25; 0].
Proof.
  unfold trunk_risk.
  destruct (Rgtb x 35); [simpl; tauto |].
  destruct (Rgtb x 25); [simpl; tauto |].
  destruct (Rgtb x 15); simpl; tauto.
Qed.

Lemma asym_risk_levels (x : R) : In (asym_risk x) [70; 40; 20; 0].
Proof.
  unfold asym_risk.
  destruct (Rgtb x 40); [simpl; tauto |].
  destruct (Rgtb x 25); [simpl; tauto |].
  destruct (Rgtb x 15); simpl; tauto.
Qed.

Lemma ankle_risk_levels (x : R) : In (ankle_risk x) [60; 30; 0].
Proof.
  unfold ankle_risk.
  destruct (Rgtb x 120); [simpl; tauto |].
  destruct (Rgtb x 110); simpl; tauto.
Qed.

(** The table of a pose holds nine optional risks, each one of the levels
    of its factor. *)
Lemma factor_table_levels (person_kp : nat -> point) (person_conf : nat -> R) :
  exists o1 o2 o3 o4 o5 o6 o7 o8 o9 : option Z,
    factor_table person_kp person_conf
    = [ ("L_ACL", o1); ("R_ACL", o2); ("L_Hip", o3); ("R_Hip", o4); ("Trunk", o5);
        ("Shoulder_Asym", o6); ("Hip_Asym", o7); ("L_Ankle", o8); ("R_Ankle", o9) ]
    /\ Forall2 level_ok [o1; o2; o3; o4; o5; o6; o7; o8; o9] weighted_levels.
Proof.
  unfold factor_table; cbv zeta.
  do 9 eexists. split; [reflexivity |].
  unfold weighted_levels; cbn [combine map snd weights risk_levels].
  destruct (kp person_kp person_conf 5), (kp person_kp person_conf 6),
    (kp person_kp person_conf 11), (kp person_kp person_conf 12),
    (kp person_kp person_conf 13), (kp person_kp person_conf 14),
    (kp person_kp person_conf 15), (kp person_kp person_conf 16);
    repeat (constructor;
            [first [ exact I | apply acl_risk_levels | apply hip_risk_levels
                   | apply trunk_risk_levels | apply asym_risk_levels
                   | apply ankle_risk_levels ] |]);
    constructor.
Qed.

(** The composite of a pose: [int] does not raise, and the score is within
    0 and 100. *)
Lemma composite_score_pose (person_kp : nat -> point) (person_conf : nat -> R) :
  let risks := fst (risk_factors person_kp person_conf) in
  let present := map (fun kr => (snd kr, weight_of (fst kr))) risks in
  forallb (fun kr => dict_mem weights (fst kr)) risks = true
  /\ exists composite : Z,
       composite_score risks = Some composite
       /\ 0 <= composite <= 100
       /\ match risks with
          | [] => composite = 0
          | _ :: _ =>
              (0 <? total_weight present)%float = true
              /\ exists q : Z,
                   int_of_float (weighted_sum present / total_weight present) = Some q
                   /\ composite = Z.min q 100
          end.
Proof.
  cbv zeta. rewrite risk_factors_table.
  destruct (factor_table_levels person_kp person_conf)
    as (o1 & o2 & o3 & o4 & o5 & o6 & o7 & o8 & o9 & -> & Hlevels).
  destruct (weighted_all o1 o2 o3 o4 o5 o6 o7 o8 o9) as [Hw Hmem].
  split; [exact Hmem |].
  pose proof (all_choices_sound composite_in_range weighted_levels []
                all_composites_in_range _ Hlevels) as Hcheck.
  unfold composite_score.
  set (risks := List.concat _) in *.
  rewrite <- Hw.
  assert (Hws : weighted weights risks
                = List.concat (map (fun p => weighted_entry (fst (snd p)) (fst p))
                     (combine [o1; o2; o3; o4; o5; o6; o7; o8; o9] weighted_levels))).
  { subst risks. rewrite weighted_table. reflexivity. }
  assert (Hrange : composite_in_range (weighted weights risks) = true)
    by (rewrite Hws; exact Hcheck).
  clear Hcheck Hws. rename Hrange into Hcheck.
  fold (total_weight (weighted weights risks)).
  fold (weighted_sum (weighted weights risks)).
  destruct risks as [| kr risks'] eqn:Hrisks.
  - exists 0. simpl. repeat split; lia.
  - destruct (weighted weights (kr :: risks')) as [| rw ws] eqn:Hnonempty.
    { simpl in Hw. discriminate Hw. }
    unfold composite_in_range in Hcheck.
    apply andb_prop in Hcheck as [Hcheck Hhi].
    apply andb_prop in Hcheck as [Hpos Hlo].
    destruct (int_of_float_in_range _ Hlo Hhi) as (q & Hq & Hq0).
    rewrite Hpos, Hq. exists (Z.min q 100). simpl.
    repeat split; try lia.
    exists q. split; reflexivity.
Qed.

Example composite_ankles_only :
  composite_score [("L_Ankle", 30); ("R_Ankle", 60)] = Some 44.
Proof. vm_compute. reflexivity. Qed.

(** C1: for every pose, [analyze_person] returns; its [risks] hold exactly
    the computable factors of [factor_table]; its composite is the float
    quotient of the weighted sum of those risks by the sum of their weights,
    truncated by [int] and clamped at 100, and it is 0 when no factor is
    computable.  With Trunk alone at 75 the quotient gives 75; with no
    factor it gives 0. *)
Theorem composite_score_spec (person_kp : nat -> point) (person_conf : nat -> R) :
  let risks := fst (risk_factors person_kp person_conf) in
  let details := snd (risk_factors person_kp person_conf) in
  let present := map (fun kr => (snd kr, weight_of (fst kr))) risks in
  risks = List.concat (map (fun kv => entry (fst kv) (snd kv))
                         (factor_table person_kp person_conf))
  /\ (exists composite : Z,
        analyze_person person_kp person_conf = Some (risks, composite, details)
        /\ 0 <= composite <= 100
        /\ match risks with
           | [] => composite = 0
           | _ :: _ =>
               (0 <? total_weight present)%float = true
               /\ exists q : Z,
                    int_of_float (weighted_sum present / total_weight present) = Some q
                    /\ composite = Z.min q 100
           end)
  /\ composite_score [("Trunk", 75)] = Some 75
  /\ composite_score [] = Some 0.
Proof.
  cbv zeta. split; [apply risk_factors_table |].
  split; [| split; vm_compute; reflexivity].
  destruct (composite_score_pose person_kp person_conf) as [_ (composite & Hc & Hrange & Hq)].
  exists composite. split; [| split; assumption].
  unfold analyze_person.
  destruct (risk_factors person_kp person_conf) as [risks details]; simpl in *.
  rewrite Hc. reflexivity.
Qed.

(** ** The L_ACL ladder *)

Lemma acl_risk_bands (angle : R) :
  ((angle < 120)%R -> acl_risk angle = 90)
  /\ ((120 <= angle < 140)%R -> acl_risk angle = 60)
  /\ ((140 <= angle < 160)%R -> acl_risk angle = 30)
  /\ ((160 <= angle)%R -> acl_risk angle = 0).
Proof.
  unfold acl_risk. repeat split; intros H; real_test; reflexivity.
Qed.

Lemma acl_risk_boundaries :
  acl_risk 119 = 90 /\ acl_risk 120 = 60 /\ acl_risk 139 = 60
  /\ acl_risk 140 = 30 /\ acl_risk 159 = 30 /\ acl_risk 160 = 0.
Proof.
  unfold acl_risk. repeat split; real_test; reflexivity.
Qed.

Lemma dict_get_app_entry (key k : string) (v : option Z) (rest : dict Z) :
  dict_get (entry key v ++ rest) k
  = if String.eqb key k then
      match v with Some r => Some r | None => dict_get rest k end
    else dict_get rest k.
Proof.
  destruct v as [r |]; simpl.
  - destruct (String.eqb key k); reflexivity.
  - destruct (String.eqb key k); reflexivity.
Qed.

(** C4: whenever the left hip, knee and ankle are usable, [risks["L_ACL"]] is
    the step function [acl_risk] of the left-knee angle alone: 90 below 120
    degrees, 60 from 120 to below 140, 30 from 140 to below 160, 0 from 160
    on; the angles 119, 120, 139, 140, 159, 160 give 90, 60, 60, 30, 30, 0. *)
Theorem l_acl_step_function (person_kp : nat -> point) (person_conf : nat -> R)
    (hip knee ankle : point) :
  kp person_kp person_conf 11 = Some hip ->
  kp person_kp person_conf 13 = Some knee ->
  kp person_kp person_conf 15 = Some ankle ->
  dict_get (fst (risk_factors person_kp person_conf)) "L_ACL"
  = Some (acl_risk (calculate_angle hip knee ankle))
  /\ (forall angle : R,
        ((angle < 120)%R -> acl_risk angle = 90)
        /\ ((120 <= angle < 140)%R -> acl_risk angle = 60)
        /\ ((140 <= angle < 160)%R -> acl_risk angle = 30)
        /\ ((160 <= angle)%R -> acl_risk angle = 0))
  /\ acl_risk 119 = 90 /\ acl_risk 120 = 60 /\ acl_risk 139 = 60
  /\ acl_risk 140 = 30 /\ acl_risk 159 = 30 /\ acl_risk 160 = 0.
Proof.
  intros Hhip Hknee Hankle.
  split; [| split; [exact acl_risk_bands | exact acl_risk_boundaries]].
  rewrite risk_factors_table. unfold factor_table; cbv zeta.
  rewrite Hhip, Hknee, Hankle. reflexivity.
Qed.

(** ** The standing pose *)

Lemma standing_usable (idx : nat) :
  In idx [5; 6; 11; 12; 13; 14; 15; 16]%nat ->
  kp standing_kp standing_conf idx = Some (standing_kp idx).
Proof.
  intros H. unfold kp, is_visible, CONF_THRESH, standing_conf.
  simpl in H.
  repeat (destruct H as [<- | H]; [simpl; real_test; reflexivity |]).
  contradiction.
Qed.

Lemma trunk_lean_level (x y1 y2 : R) :
  (y1 < y2)%R -> trunk_lean_angle (x, y1) (x, y2) = 0%R.
Proof.
  intros H. unfold trunk_lean_angle; simpl. real_test.
  unfold atan2. destruct (Rlt_dec 0 (y2 - y1)) as [_ | Hn]; [| lra].
  replace ((x - x) / (y2 - y1))%R with 0%R by (field; lra).
  rewrite atan_0. unfold degrees. rewrite Rmult_0_l. apply Rabs_R0.
Qed.

Lemma standing_table :
  factor_table standing_kp standing_conf
  = [ ("L_ACL", Some 0); ("R_ACL", Some 0); ("L_Hip", Some 0); ("R_Hip", Some 0);
      ("Trunk", Some 0); ("Shoulder_Asym", Some 0); ("Hip_Asym", Some 0);
      ("L_Ankle", Some 60); ("R_Ankle", Some 60) ].
Proof.
  unfold factor_table; cbv zeta.
  rewrite !standing_usable by (simpl; tauto).
  cbn [standing_kp fst snd].
  rewrite !calculate_angle_vertical by (simpl; lra).
  replace ((100 + 200) / 2)%R with 150%R by lra.
  replace ((100 + 100) / 2)%R with 100%R by lra.
  replace ((300 + 300) / 2)%R with 300%R by lra.
  rewrite trunk_lean_level by lra.
  replace (Rabs (100 - 100)) with 0%R by (replace (100 - 100)%R with 0%R by lra; symmetry; apply Rabs_R0).
  replace (Rabs (300 - 300)) with 0%R by (replace (300 - 300)%R with 0%R by lra; symmetry; apply Rabs_R0).
  unfold acl_risk, hip_risk, trunk_risk, asym_risk, ankle_risk.
  real_test. reflexivity.
Qed.

(** The witness of [l_acl_step_function]: the standing pose. *)
Lemma l_acl_step_function_witness :
  dict_get (fst (risk_factors standing_kp standing_conf)) "L_ACL"
  = Some (acl_risk (calculate_angle (100, 300)%R (100, 400)%R (100, 500)%R)).
Proof.
  apply (l_acl_step_function standing_kp standing_conf
           (100, 300)%R (100, 400)%R (100, 500)%R).
  - apply (standing_usable 11). simpl; tauto.
  - apply (standing_usable 13). simpl; tauto.
  - apply (standing_usable 15). simpl; tauto.
Defined.

(** In the backend Trunk is never the only factor: the two asymmetry factors
    need no keypoint that Trunk does not need. *)
Lemma trunk_never_alone (person_kp : nat -> point) (person_conf : nat -> R) (r : Z) :
  fst (risk_factors person_kp person_conf) <> [("Trunk", r)].
Proof.
  rewrite risk_factors_table. unfold factor_table; cbv zeta.
  destruct (kp person_kp person_conf 5), (kp person_kp person_conf 6),
    (kp person_kp person_conf 11), (kp person_kp person_conf 12),
    (kp person_kp person_conf 13), (kp person_kp person_conf 14),
    (kp person_kp person_conf 15), (kp person_kp person_conf 16);
    cbn [map List.concat entry fst snd app]; discriminate.
Qed.

(** ** The console against the backend *)

Lemma console_kp_eq (person_kp : nat -> point) (person_conf : nat -> R) (idx : nat) :
  Console.kp CONF_THRESH person_kp person_conf idx = kp person_kp person_conf idx.
Proof. reflexivity. Qed.

Lemma console_calculate_angle_eq (a b c : point) :
  Console.calculate_angle a b c = calculate_angle a b c.
Proof. reflexivity. Qed.

Lemma console_lean_eq (shoulder_mid hip_mid : point) :
  (if negb (Reqb (snd hip_mid - snd shoulder_mid) 0)
   then Rabs (degrees (atan2 (fst hip_mid - fst shoulder_mid) (snd hip_mid - snd shoulder_mid)))
   else 0%R)
  = trunk_lean_angle shoulder_mid hip_mid.
Proof.
  unfold trunk_lean_angle; cbv zeta.
  destruct (Reqb (snd hip_mid - snd shoulder_mid) 0); reflexivity.
Qed.

(** The console computes the first five entries of the backend's table. *)
Lemma console_risk_factors_table (person_kp : nat -> point) (person_conf : nat -> R) :
  Console.risk_factors CONF_THRESH person_kp person_conf
  = List.concat (map (fun kv => entry (fst kv) (snd kv))
                   (firstn 5 (factor_table person_kp person_conf))).
Proof.
  unfold Console.risk_factors, factor_table; cbv zeta.
  change (Console.kp CONF_THRESH person_kp person_conf) with (kp person_kp person_conf).
  destruct (kp person_kp person_conf 5), (kp person_kp person_conf 6),
    (kp person_kp person_conf 11), (kp person_kp person_conf 12),
    (kp person_kp person_conf 13), (kp person_kp person_conf 14),
    (kp person_kp person_conf 15), (kp person_kp person_conf 16);
    try match goal with
        | |- context [if negb (Reqb ?d 0) then ?a else ?b] =>
            replace (if negb (Reqb d 0) then a else b) with (if Reqb d 0 then b else a)
              by (destruct (Reqb d 0); reflexivity)
        end;
    reflexivity.
Qed.



Lemma console_weight_eq (k : string) :
  dict_mem Console.weights k = true -> dict_get Console.weights k = dict_get weights k.
Proof.
  unfold dict_mem, Console.weights, weights. cbn [dict_get].
  repeat (destruct (String.eqb _ k); [intros _; reflexivity |]).
  intros H; discriminate H.
Qed.

Lemma console_weighted_eq (risks : dict Z) :
  forallb (fun kr => dict_mem Console.weights (fst kr)) risks = true ->
  Console.weighted Console.weights risks = weighted weights risks.
Proof.
  induction risks as [| [k r] risks IH]; [reflexivity |].
  cbn [Console.weighted weighted forallb fst].
  intros H. apply andb_prop in H as [Hk Hrest].
  rewrite <- (console_weight_eq k Hk).
  destruct (dict_get Console.weights k); rewrite (IH Hrest); reflexivity.
Qed.

(** On a dict of shared factors the two composite formulas agree. *)
Lemma console_composite_eq (risks : dict Z) :
  forallb (fun kr => dict_mem Console.weights (fst kr)) risks = true ->
  Console.composite risks = composite_score risks.
Proof.
  intros H. unfold Console.composite, composite_score.
  rewrite (console_weighted_eq risks H).
  destruct (0 <? _)%float; [| reflexivity].
  destruct (int_of_float _); reflexivity.
Qed.


Lemma standing_backend :
  fst (risk_factors standing_kp standing_conf)
  = [ ("L_ACL", 0); ("R_ACL", 0); ("L_Hip", 0); ("R_Hip", 0); ("Trunk", 0);
      ("Shoulder_Asym", 0); ("Hip_Asym", 0); ("L_Ankle", 60); ("R_Ankle", 60) ].
Proof. rewrite risk_factors_table, standing_table. reflexivity. Qed.

Lemma standing_console :
  Console.risk_factors CONF_THRESH standing_kp standing_conf
  = [ ("L_ACL", 0); ("R_ACL", 0); ("L_Hip", 0); ("R_Hip", 0); ("Trunk", 0) ].
Proof. rewrite console_risk_factors_table, standing_table. reflexivity. Qed.

(** Of the standing pose the backend computes all nine factors: the console's
    composite, over the five it weighs, is 0 and the backend's is 4. *)
Lemma standing_composites :
  option_map snd (Console.analyze_pose CONF_THRESH standing_kp standing_conf) = Some 0
  /\ option_map (fun r => snd (fst r)) (analyze_person standing_kp standing_conf) = Some 4.
Proof.
  split.
  - unfold Console.analyze_pose. rewrite standing_console. vm_compute. reflexivity.
  - unfold analyze_person.
    pose proof standing_backend as H.
    destruct (risk_factors standing_kp standing_conf) as [risks details].
    simpl in H. subst risks.
    replace (composite_score _) with (Some 4) by (vm_compute; reflexivity).
    reflexivity.
Qed.

(** ** The seated pose *)

(** A right angle: one arm straight up from the vertex, the other level. *)
Lemma calculate_angle_square (x y d : R) :
  (0 < d)%R -> calculate_angle (x, y - d)%R (x, y) (x + d, y)%R = 90%R.
Proof.
  intros Hd.
  assert (Hn1 : norm (sub (x, y - d)%R (x, y)) = d).
  { unfold norm, sub, dot; simpl.
    replace ((x - x) * (x - x) + (y - d - y) * (y - d - y))%R
      with (Rsqr d) by (unfold Rsqr; ring).
    apply sqrt_Rsqr; lra. }
  assert (Hn2 : norm (sub (x + d, y)%R (x, y)) = d).
  { unfold norm, sub, dot; simpl.
    replace ((x + d - x) * (x + d - x) + (y - y) * (y - y))%R
      with (Rsqr d) by (unfold Rsqr; ring).
    apply sqrt_Rsqr; lra. }
  unfold calculate_angle; cbv zeta. rewrite Hn1, Hn2.
  real_test. simpl orb. cbv iota.
  replace (dot (sub (x, y - d)%R (x, y)) (sub (x + d, y)%R (x, y)) / (d * d))%R with 0%R.
  - rewrite clip_inside by lra. unfold arccos. rewrite acos_0. apply degrees_half_PI.
  - unfold dot, sub; simpl. field. lra.
Qed.

Lemma seated_usable (idx : nat) :
  kp seated_kp seated_conf idx
  = if existsb (Nat.eqb idx) [5; 11; 13]%nat then Some (seated_kp idx) else None.
Proof.
  unfold kp, is_visible, CONF_THRESH, seated_conf, seated_kp.
  do 14 (destruct idx as [| idx]; [simpl; real_test; reflexivity |]).
  simpl; real_test; reflexivity.
Qed.

Lemma seated_table :
  factor_table seated_kp seated_conf
  = [ ("L_ACL", None); ("R_ACL", None); ("L_Hip", Some 80); ("R_Hip", None);
      ("Trunk", None); ("Shoulder_Asym", None); ("Hip_Asym", None);
      ("L_Ankle", None); ("R_Ankle", None) ].
Proof.
  unfold factor_table; cbv zeta.
  rewrite !seated_usable. cbn [existsb Nat.eqb orb seated_kp].
  replace (100, 100)%R with (100, 200 - 100)%R by (f_equal; lra).
  replace (200, 200)%R with (100 + 100, 200)%R by (f_equal; lra).
  rewrite calculate_angle_square by lra.
  unfold hip_risk. real_test. reflexivity.
Qed.

(** Of the seated pose the backend computes the left hip alone, and so does
    the console; both composites are 80. *)
Lemma seated_backend :
  fst (risk_factors seated_kp seated_conf) = [("L_Hip", 80)].
Proof. rewrite risk_factors_table, seated_table. reflexivity. Qed.

Lemma seated_console :
  Console.risk_factors CONF_THRESH seated_kp seated_conf = [("L_Hip", 80)].
Proof. rewrite console_risk_factors_table, seated_table. reflexivity. Qed.

Lemma seated_composites :
  Console.analyze_pose CONF_THRESH seated_kp seated_conf = Some ([("L_Hip", 80)], 80)
  /\ option_map fst (analyze_person seated_kp seated_conf) = Some ([("L_Hip", 80)], 80).
Proof.
  split.
  - unfold Console.analyze_pose. rewrite seated_console. vm_compute. reflexivity.
  - unfold analyze_person.
    pose proof seated_backend as H.
    destruct (risk_factors seated_kp seated_conf) as [risks details].
    simpl in H. subst risks.
    replace (composite_score _) with (Some 80) by (vm_compute; reflexivity).
    reflexivity.
Qed.






(** ** Deduplication *)

Lemma key_eqb_eq (k1 k2 : string * string) : key_eqb k1 k2 = true <-> k1 = k2.
Proof.
  destruct k1 as [a1 b1], k2 as [a2 b2]; unfold key_eqb; simpl.
  rewrite andb_true_iff, !String.eqb_eq. split.
  - intros [-> ->]; reflexivity.
  - intros H; inversion H; auto.
Qed.

Lemma seen_spec (key : string * string) (seen : list (string * string)) :
  existsb (key_eqb key) seen = true <-> In key seen.
Proof.
  rewrite existsb_exists. split.
  - intros (k & Hin & Heq). apply key_eqb_eq in Heq. subst; exact Hin.
  - intros Hin. exists key. split; [exact Hin | apply key_eqb_eq; reflexivity].
Qed.

Lemma insert_by_risk_perm (e : RiskEvent) (l : list RiskEvent) :
  Permutation (insert_by_risk e l) (e :: l).
Proof.
  induction l as [| e' l IH]; simpl; [reflexivity |].
  destruct (- risk e <=? - risk e'); [reflexivity |].
  rewrite IH. apply perm_swap.
Qed.

Lemma sorted_by_risk_perm (l : list RiskEvent) : Permutation (sorted_by_risk l) l.
Proof.
  induction l as [| e l IH]; simpl; [reflexivity |].
  rewrite insert_by_risk_perm. apply perm_skip, IH.
Qed.

Lemma insert_by_risk_sorted (e : RiskEvent) (l : list RiskEvent) :
  StronglySorted by_risk l -> StronglySorted by_risk (insert_by_risk e l).
Proof.
  induction l as [| e' l IH]; intros Hs; simpl.
  - constructor; constructor.
  - destruct (- risk e <=? - risk e') eqn:Hle.
    + apply Z.leb_le in Hle. constructor; [exact Hs |].
      inversion Hs as [| ? ? Hs' Hall]; subst.
      constructor; [unfold by_risk; lia |].
      rewrite Forall_forall in *. intros x Hx. specialize (Hall x Hx).
      unfold by_risk in *. lia.
    + apply Z.leb_gt in Hle.
      inversion Hs as [| ? ? Hs' Hall]; subst.
      constructor; [apply IH; exact Hs' |].
      rewrite Forall_forall in *. intros x Hx.
      apply (Permutation_in _ (insert_by_risk_perm e l)) in Hx.
      destruct Hx as [<- | Hx]; [unfold by_risk; lia | apply Hall; exact Hx].
Qed.

Lemma sorted_by_risk_sorted (l : list RiskEvent) : StronglySorted by_risk (sorted_by_risk l).
Proof.
  induction l as [| e l IH]; simpl; [constructor | apply insert_by_risk_sorted, IH].
Qed.

(** The sort is stable: events of equal risk keep their order. *)
Lemma insert_by_risk_stable (r : Z) (e : RiskEvent) (l : list RiskEvent) :
  filter (fun x => risk x =? r) (insert_by_risk e l)
  = filter (fun x => risk x =? r) (e :: l).
Proof.
  induction l as [| e' l IH]; [reflexivity |].
  cbn [insert_by_risk]. destruct (- risk e <=? - risk e') eqn:Hle; [reflexivity |].
  apply Z.leb_gt in Hle.
  cbn [filter] in *. rewrite IH.
  destruct (risk e =? r) eqn:He; [| reflexivity].
  apply Z.eqb_eq in He.
  destruct (risk e' =? r) eqn:He'; [| reflexivity].
  apply Z.eqb_eq in He'. lia.
Qed.

Lemma sorted_by_risk_stable (r : Z) (l : list RiskEvent) :
  filter (fun x => risk x =? r) (sorted_by_risk l) = filter (fun x => risk x =? r) l.
Proof.
  induction l as [| e l IH]; [reflexivity |].
  cbn [sorted_by_risk]. rewrite insert_by_risk_stable.
  cbn [filter]. rewrite IH. reflexivity.
Qed.

(** [keep_first seen l] keeps the first occurrences of the keys not in
    [seen]. *)
Lemma keep_first_spec (l : list RiskEvent) :
  forall (seen : list (string * string)) (e : RiskEvent),
    In e (keep_first seen l)
    <-> first_occurrence e l /\ ~ In (event_key e) seen.
Proof.
  induction l as [| x l IH]; intros seen e; cbn [keep_first].
  - split; [intros [] |].
    intros [(before & after & Heq & _) _]. destruct before; discriminate Heq.
  - fold (event_key x).
    destruct (existsb (key_eqb (event_key x)) seen) eqn:Hseen.
    + apply seen_spec in Hseen. rewrite IH. split.
      * intros [(before & after & -> & Hfirst) Hnew]. split; [| exact Hnew].
        exists (x :: before), after. split; [reflexivity |].
        intros y [<- | Hy]; [| apply Hfirst; exact Hy].
        intros Heq. apply Hnew. rewrite <- Heq. exact Hseen.
      * intros [(before & after & Heq & Hfirst) Hnew]. split; [| exact Hnew].
        destruct before as [| b before]; simpl in Heq; inversion Heq; subst.
        -- contradiction.
        -- exists before, after. split; [reflexivity |].
           intros y Hy. apply Hfirst. right; exact Hy.
    + assert (Hnotseen : ~ In (event_key x) seen).
      { intros Hin. apply seen_spec in Hin. congruence. }
      cbn [In]. rewrite IH. split.
      * intros [<- | [(before & after & -> & Hfirst) Hnew]].
        -- split; [| exact Hnotseen]. exists [], l. split; [reflexivity |]. intros y [].
        -- split.
           ++ exists (x :: before), after. split; [reflexivity |].
              intros y [<- | Hy]; [| apply Hfirst; exact Hy].
              intros Heq. apply Hnew. left. exact Heq.
           ++ intros Hin. apply Hnew. right. exact Hin.
      * intros [(before & after & Heq & Hfirst) Hnew].
        destruct before as [| b before]; simpl in Heq; inversion Heq; subst.
        -- left; reflexivity.
        -- right. split.
           ++ exists before, after. split; [reflexivity |].
              intros y Hy. apply Hfirst. right; exact Hy.
           ++ intros [Hk | Hin]; [| contradiction].
              apply (Hfirst b); [left; reflexivity | exact Hk].
Qed.

Lemma keep_first_keys (l : list RiskEvent) :
  forall seen : list (string * string),
    NoDup (map event_key (keep_first seen l))
    /\ forall k, In k (map event_key (keep_first seen l)) -> ~ In k seen.
Proof.
  induction l as [| x l IH]; intros seen; cbn [keep_first].
  - split; [constructor | intros k []].
  - fold (event_key x).
    destruct (existsb (key_eqb (event_key x)) seen) eqn:Hseen; [apply IH |].
    destruct (IH (event_key x :: seen)) as [Hnd Hnew].
    assert (Hnotseen : ~ In (event_key x) seen).
    { intros Hin. apply seen_spec in Hin. congruence. }
    cbn [map]. split.
    + constructor; [| exact Hnd].
      intros Hin. apply (Hnew _ Hin). left; reflexivity.
    + intros k [<- | Hin]; [exact Hnotseen |].
      intros Hk. apply (Hnew _ Hin). right; exact Hk.
Qed.

Lemma keep_first_sorted (l : list RiskEvent) :
  forall seen : list (string * string),
    StronglySorted by_risk l -> StronglySorted by_risk (keep_first seen l).
Proof.
  induction l as [| x l IH]; intros seen Hs; cbn [keep_first]; [constructor |].
  inversion Hs as [| ? ? Hs' Hall]; subst.
  destruct (existsb _ seen); [apply IH; exact Hs' |].
  constructor; [apply IH; exact Hs' |].
  rewrite Forall_forall in *. intros y Hy.
  apply keep_first_spec in Hy as [(before & after & -> & _) _].
  apply Hall. apply in_or_app. right; left; reflexivity.
Qed.

Lemma first_occurrence_exists (l : list RiskEvent) (e : RiskEvent) :
  In e l -> exists e', first_occurrence e' l /\ event_key e' = event_key e.
Proof.
  induction l as [| x l IH]; intros Hin; [destruct Hin |].
  destruct (key_eqb (event_key x) (event_key e)) eqn:Hk.
  - apply key_eqb_eq in Hk. exists x. split; [| exact Hk].
    exists [], l. split; [reflexivity | intros y []].
  - destruct Hin as [<- | Hin].
    + assert (key_eqb (event_key x) (event_key x) = true) by (apply key_eqb_eq; reflexivity).
      congruence.
    + destruct (IH Hin) as (e' & (before & after & -> & Hfirst) & Heq).
      exists e'. split; [| exact Heq].
      exists (x :: before), after. split; [reflexivity |].
      intros y [<- | Hy]; [| apply Hfirst; exact Hy].
      intros Hxk. rewrite Heq in Hxk.
      apply key_eqb_eq in Hxk. congruence.
Qed.

Lemma first_occurrence_highest (l : list RiskEvent) (e e' : RiskEvent) :
  StronglySorted by_risk l -> first_occurrence e l -> In e' l ->
  event_key e' = event_key e -> risk e' <= risk e.
Proof.
  intros Hs (before & after & -> & Hfirst) Hin Hk.
  apply in_app_or in Hin as [Hin | [<- | Hin]].
  - exfalso. apply (Hfirst e' Hin Hk).
  - lia.
  - clear Hfirst. induction before as [| b before IH]; simpl in Hs.
    + inversion Hs as [| ? ? _ Hall]; subst.
      rewrite Forall_forall in Hall. exact (Hall e' Hin).
    + inversion Hs; subst. apply IH; assumption.
Qed.

(** C3: the events are first sorted by descending risk (a stable sort: a
    permutation, in descending order, events of equal risk in their original
    order); the result keeps exactly the first occurrence of each
    (timestamp, part) pair of the sorted list, so no key twice, every key of
    the input once, in descending order of risk, each survivor the highest
    risk of its key.  Two events at "0:05" on "knee" with risks 40 and 70
    leave the one with risk 70. *)
Theorem deduplicate_spec (risk_events : list RiskEvent) :
  let sorted := sorted_by_risk risk_events in
  let unique_events := deduplicate risk_events in
  Permutation sorted risk_events
  /\ StronglySorted by_risk sorted
  /\ (forall r, filter (fun x => risk x =? r) sorted
                = filter (fun x => risk x =? r) risk_events)
  /\ (forall e, In e unique_events <-> first_occurrence e sorted)
  /\ NoDup (map event_key unique_events)
  /\ StronglySorted by_risk unique_events
  /\ (forall e, In e risk_events ->
        exists e', In e' unique_events /\ event_key e' = event_key e)
  /\ (forall e e', In e unique_events -> In e' risk_events ->
        event_key e' = event_key e -> risk e' <= risk e)
  /\ deduplicate [sample_event "0:05" "knee" 40; sample_event "0:05" "knee" 70]
     = [sample_event "0:05" "knee" 70]
  /\ deduplicate [sample_event "0:05" "knee" 70; sample_event "0:05" "knee" 40]
     = [sample_event "0:05" "knee" 70].
Proof.
  cbv zeta. unfold deduplicate.
  pose proof (sorted_by_risk_perm risk_events) as Hperm.
  pose proof (sorted_by_risk_sorted risk_events) as Hsorted.
  assert (Hspec : forall e, In e (keep_first [] (sorted_by_risk risk_events))
                            <-> first_occurrence e (sorted_by_risk risk_events)).
  { intros e. rewrite keep_first_spec. simpl. tauto. }
  repeat split.
  - exact Hperm.
  - exact Hsorted.
  - intros r. apply sorted_by_risk_stable.
  - apply Hspec.
  - apply Hspec.
  - apply keep_first_keys.
  - apply keep_first_sorted, Hsorted.
  - intros e Hin.
    apply (Permutation_in _ (Permutation_sym Hperm)) in Hin.
    destruct (first_occurrence_exists _ _ Hin) as (e' & Hfirst & Hk).
    exists e'. split; [apply Hspec; exact Hfirst | exact Hk].
  - intros e e' He He' Hk.
    apply Hspec in He.
    apply (Permutation_in _ (Permutation_sym Hperm)) in He'.
    exact (first_occurrence_highest _ _ _ Hsorted He He' Hk).
Qed.

(** ** Suggestions *)

Lemma at_risk_on_part (events : list RiskEvent) (p : string) :
  existsb (String.eqb p) (map part events) = on_part events p.
Proof.
  unfold on_part. induction events as [| e events IH]; [reflexivity |].
  cbn [map existsb]. rewrite IH, (String.eqb_sym p). reflexivity.
Qed.

(** C7: the suggestions are the catalog entries (knee, hip, lower_back,
    shoulder, ankle, in that order) of the parts present among the events,
    followed by at most one risk-band suggestion, the one for a mean above 60
    or else the one for a mean above 40, never both; when that leaves nothing
    the result is the single positive suggestion. *)
Theorem generate_suggestions_spec (events : list RiskEvent) (avg_risk : float) :
  generate_suggestions events avg_risk
  = match part_suggestions events ++ band_suggestion avg_risk with
    | [] => [positive_suggestion]
    | s :: rest => s :: rest
    end
  /\ (List.length (band_suggestion avg_risk) <= 1)%nat
  /\ (In high_band_suggestion (band_suggestion avg_risk)
      <-> (60 <? avg_risk)%float = true)
  /\ (In moderate_band_suggestion (band_suggestion avg_risk)
      <-> (60 <? avg_risk)%float = false /\ (40 <? avg_risk)%float = true)
  /\ generate_suggestions events avg_risk <> []
  /\ generate_suggestions
       [sample_event "0:05" "knee" 40; sample_event "0:07" "shoulder" 70] 65%float
     = [ "Implement knee valgus correction drills — single-leg squats and knee-over-toe exercises";
         "Include rotator cuff strengthening and shoulder mobility work pre-session";
         high_band_suggestion ]%string
  /\ generate_suggestions [] 0%float = [positive_suggestion].
Proof.
  assert (Hmain : generate_suggestions events avg_risk
                  = match part_suggestions events ++ band_suggestion avg_risk with
                    | [] => [positive_suggestion]
                    | s :: rest => s :: rest
                    end).
  { unfold generate_suggestions, part_suggestions, band_suggestion, suggestion_catalog,
      high_band_suggestion, moderate_band_suggestion, positive_suggestion; cbv zeta.
    rewrite !at_risk_on_part.
    repeat match goal with
           | |- context [append _ ?s] =>
               lazymatch s with String _ _ => generalize s; intros ? end
           end.
    cbn [filter map fst snd].
    destruct (on_part events "knee"), (on_part events "hip"),
      (on_part events "lower_back"), (on_part events "shoulder"),
      (on_part events "ankle"), (60 <? avg_risk)%float, (40 <? avg_risk)%float;
      reflexivity. }
  split; [exact Hmain |].
  split; [unfold band_suggestion;
          destruct (60 <? avg_risk)%float, (40 <? avg_risk)%float; simpl; lia |].
  split;
    [unfold band_suggestion;
     destruct (60 <? avg_risk)%float, (40 <? avg_risk)%float; simpl; split;
     try tauto; try discriminate;
     intros [H | []]; try discriminate H |].
  split;
    [unfold band_suggestion;
     destruct (60 <? avg_risk)%float, (40 <? avg_risk)%float; simpl; split;
     try tauto; try (intros [H _]; discriminate H); try (intros [_ H]; discriminate H);
     intros [H | []]; try discriminate H |].
  split.
  - rewrite Hmain. destruct (part_suggestions events ++ band_suggestion avg_risk); discriminate.
  - split; vm_compute; reflexivity.
Qed.

(** ** The chat responder *)

Lemma max_by_risk_nonempty (events : list RiskEvent) :
  is_empty events = false -> exists top, max_by_risk events = Some top.
Proof.
  destruct events as [| e rest]; [discriminate |].
  intros _. exists (max_from e rest). reflexivity.
Qed.

Lemma status_done (a : Analysis) : status a = "done" <-> exists data, a = Done data.
Proof.
  destruct a; simpl; split; intros H; try discriminate H.
  - destruct H as (data & H); discriminate H.
  - destruct H as (data & H); discriminate H.
  - eexists; reflexivity.
  - reflexivity.
Qed.

Lemma chat_not_done (str_of_float : R -> string) (analyses : dict Analysis)
    (video_id : string) (msg : ChatMessage) :
  not_done analyses video_id ->
  chat_with_ai str_of_float analyses video_id msg = Some processing_reply.
Proof.
  unfold not_done, chat_with_ai. intros H.
  destruct (dict_get analyses video_id) as [[v | v err | data] |]; try reflexivity.
  exfalso. apply (H (Done data) eq_refl). reflexivity.
Qed.

Lemma chat_total (str_of_float : R -> string) (analyses : dict Analysis)
    (video_id : string) (msg : ChatMessage) :
  exists response, chat_with_ai str_of_float analyses video_id msg = Some response.
Proof.
  unfold chat_with_ai.
  destruct (dict_get analyses video_id) as [[v | v err | data] |];
    try (eexists; reflexivity).
  destruct (is_empty (filter (matches (lower (message msg))) (risks data))) eqn:Hmatched;
    cbn [negb].
  - destruct (contains "overall" (lower (message msg))
              || contains "summary" (lower (message msg))
              || contains "assessment" (lower (message msg))).
    + destruct (is_empty (risks data)) eqn:Hrisks; cbn [negb].
      * eexists; reflexivity.
      * destruct (max_by_risk_nonempty _ Hrisks) as (top & ->). eexists; reflexivity.
    + destruct (is_empty (risks data)) eqn:Hrisks; cbn [negb].
      * eexists; reflexivity.
      * destruct (max_by_risk_nonempty _ Hrisks) as (top & ->). eexists; reflexivity.
  - destruct (max_by_risk_nonempty _ Hmatched) as (top & ->). eexists; reflexivity.
Qed.

(** C8: when the analysis of [video_id] is missing from the store or its
    status is not [done], the chat returns the fixed "still processing"
    reply, with confidence 0.5 and no related timestamp, whatever the
    message; and the chat returns a response in every case. *)
Theorem chat_with_ai_spec (str_of_float : R -> string) (analyses : dict Analysis)
    (video_id : string) (msg : ChatMessage) :
  (not_done analyses video_id ->
   chat_with_ai str_of_float analyses video_id msg = Some processing_reply)
  /\ reply processing_reply
     = "⏳ The analysis is still processing. Please wait for it to complete before asking questions."%string
  /\ confidence processing_reply = 0.5%float
  /\ relatedTimestamp processing_reply = None
  /\ exists response : ChatResponse,
       chat_with_ai str_of_float analyses video_id msg = Some response.
Proof.
  split; [apply chat_not_done |].
  repeat split. apply chat_total.
Qed.

(** The witness of [chat_with_ai_spec]: a store where the video is still
    being processed. *)
Lemma chat_with_ai_spec_witness :
  chat_with_ai (fun _ => ""%string) [("ab12cd34", Processing "ab12cd34")] "ab12cd34"
    {| message := "How is my knee?"; message_videoId := None |}
  = Some processing_reply.
Proof.
  apply (chat_with_ai_spec (fun _ => ""%string) [("ab12cd34", Processing "ab12cd34")]
           "ab12cd34" {| message := "How is my knee?"; message_videoId := None |}).
  intros a H. vm_compute in H. injection H as <-. discriminate.
Defined.

(** ** The player profile *)

Lemma completed_of_none (values : list Analysis) :
  (forall a, In a values -> status a <> "done") -> completed_of values = [].
Proof.
  induction values as [| a values IH]; intros H; [reflexivity |].
  destruct a as [v | v err | data]; simpl.
  - apply IH. intros a Ha. apply H. right; exact Ha.
  - apply IH. intros a Ha. apply H. right; exact Ha.
  - exfalso. apply (H (Done data)); [left; reflexivity | reflexivity].
Qed.

(** C9: when no analysis of the store is [done], the profile of any player
    id has the placeholder identity (name "Athlete", sport "General", team
    and position "—", age 0) and empty riskHistory, pastMatches, drills and
    injuryZones. *)
Theorem get_player_no_completed (analyses : dict Analysis) (player_id : Z) :
  (forall a, In a (dict_values analyses) -> status a <> "done") ->
  get_player analyses player_id = empty_profile player_id
  /\ playerId (get_player analyses player_id) = player_id
  /\ name (get_player analyses player_id) = "Athlete"%string
  /\ profile_sport (get_player analyses player_id) = "General"%string
  /\ team (get_player analyses player_id) = "—"%string
  /\ age (get_player analyses player_id) = 0
  /\ position (get_player analyses player_id) = "—"%string
  /\ riskHistory (get_player analyses player_id) = []
  /\ pastMatches (get_player analyses player_id) = []
  /\ drills (get_player analyses player_id) = []
  /\ injuryZones (get_player analyses player_id) = [].
Proof.
  intros H.
  assert (Heq : get_player analyses player_id = empty_profile player_id).
  { unfold get_player. rewrite (completed_of_none _ H). reflexivity. }
  rewrite Heq. repeat split.
Qed.

(** The witness of [get_player_no_completed]: a store with one video being
    processed and one failed. *)
Lemma get_player_no_completed_witness :
  get_player [("ab12cd34", Processing "ab12cd34");
              ("ef56ab78", Failed "ef56ab78" (Some "Could not open video file"%string))] 7
  = empty_profile 7.
Proof.
  apply (get_player_no_completed
           [("ab12cd34", Processing "ab12cd34");
            ("ef56ab78", Failed "ef56ab78" (Some "Could not open video file"%string))] 7).
  intros a [<- | [<- | []]]; discriminate.
Defined.

(** ** Dictionaries *)

Lemma dict_get_set_same {V : Type} (d : dict V) (k : string) (v : V) :
  dict_get (dict_set d k v) k = Some v.
Proof.
  induction d as [| [k' v'] d IH]; simpl.
  - rewrite String.eqb_refl. reflexivity.
  - destruct (String.eqb k' k) eqn:Hk; simpl.
    + rewrite String.eqb_refl. reflexivity.
    + rewrite Hk. exact IH.
Qed.

Lemma dict_get_set_other {V : Type} (d : dict V) (k k' : string) (v : V) :
  k' <> k -> dict_get (dict_set d k v) k' = dict_get d k'.
Proof.
  intros Hne. induction d as [| [k0 v0] d IH]; simpl.
  - destruct (String.eqb k k') eqn:Hk; [| reflexivity].
    apply String.eqb_eq in Hk. congruence.
  - destruct (String.eqb k0 k) eqn:Hk; simpl.
    + apply String.eqb_eq in Hk. subst k0.
      destruct (String.eqb k k') eqn:Hk'; [| reflexivity].
      apply String.eqb_eq in Hk'. congruence.
    + rewrite IH. reflexivity.
Qed.

Lemma dict_get_in {V : Type} (d : dict V) (k : string) (v : V) :
  dict_get d k = Some v -> In v (dict_values d).
Proof.
  induction d as [| [k' v'] d IH]; simpl; [discriminate |].
  destruct (String.eqb k' k).
  - intros H; injection H as ->. left; reflexivity.
  - intros H. right. apply IH. exact H.
Qed.

Lemma dict_set_values {V : Type} (P : V -> Prop) (d : dict V) (k : string) (v : V) :
  Forall P (dict_values d) -> P v -> Forall P (dict_values (dict_set d k v)).
Proof.
  intros Hd Hv. induction d as [| [k' v'] d IH]; simpl.
  - constructor; [exact Hv | constructor].
  - inversion Hd; subst. destruct (String.eqb k' k); simpl.
    + constructor; assumption.
    + constructor; [assumption | apply IH; assumption].
Qed.

Lemma dict_get_default_values {V : Type} (P : V -> Prop) (d : dict V) (k : string)
    (default : V) :
  Forall P (dict_values d) -> P default -> P (dict_get_default d k default).
Proof.
  intros Hd Hdef. unfold dict_get_default.
  destruct (dict_get d k) as [v |] eqn:Hget; [| exact Hdef].
  rewrite Forall_forall in Hd. apply Hd. exact (dict_get_in _ _ _ Hget).
Qed.

Lemma dict_set_keys_in {V : Type} (d : dict V) (k k' : string) (v : V) :
  In k' (dict_keys (dict_set d k v)) <-> k' = k \/ In k' (dict_keys d).
Proof.
  induction d as [| [k0 v0] d IH]; simpl.
  - split; [intros [<- | []]; left; reflexivity | intros [-> | []]; left; reflexivity].
  - destruct (String.eqb k0 k) eqn:Hk; simpl.
    + apply String.eqb_eq in Hk. subst k0. split.
      * intros [<- | H]; [left; reflexivity | right; right; exact H].
      * intros [-> | [<- | H]]; [left | left | right]; auto.
    + rewrite IH. tauto.
Qed.

Lemma dict_set_nodup {V : Type} (d : dict V) (k : string) (v : V) :
  NoDup (dict_keys d) -> NoDup (dict_keys (dict_set d k v)).
Proof.
  induction d as [| [k0 v0] d IH]; simpl; intros Hnd.
  - constructor; [intros [] | constructor].
  - inversion Hnd as [| ? ? Hnotin Hnd']; subst.
    destruct (String.eqb k0 k) eqn:Hk; simpl.
    + apply String.eqb_eq in Hk. subst k0. constructor; assumption.
    + constructor; [| apply IH; exact Hnd'].
      intros Hin. apply dict_set_keys_in in Hin as [-> | Hin].
      * rewrite String.eqb_refl in Hk. discriminate Hk.
      * exact (Hnotin Hin).
Qed.

Lemma dict_get_none_keys {V : Type} (d : dict V) (k : string) :
  dict_get d k = None <-> ~ In k (dict_keys d).
Proof.
  induction d as [| [k0 v0] d IH]; simpl; [tauto |].
  destruct (String.eqb k0 k) eqn:Hk.
  - apply String.eqb_eq in Hk. split; [discriminate | tauto].
  - rewrite IH. apply String.eqb_neq in Hk. tauto.
Qed.

Lemma dict_set_get_same {V : Type} (d : dict V) (k : string) (v : V) :
  dict_get d k = Some v -> dict_set d k v = d.
Proof.
  induction d as [| [k' v'] d IH]; simpl; [discriminate |].
  destruct (String.eqb k' k) eqn:Hk.
  - intros H; injection H as ->. apply String.eqb_eq in Hk. subst. reflexivity.
  - intros H. rewrite (IH H). reflexivity.
Qed.

Lemma dict_set_set {V : Type} (d : dict V) (k : string) (a b : V) :
  dict_set (dict_set d k a) k b = dict_set d k b.
Proof.
  induction d as [| [k' v'] d IH]; simpl.
  - rewrite String.eqb_refl. reflexivity.
  - destruct (String.eqb k' k) eqn:Hk; simpl.
    + rewrite String.eqb_refl. reflexivity.
    + rewrite Hk, IH. reflexivity.
Qed.

(** ** The event loop and the state machine of one factor *)

(** The loop body is the step of the visited factor's machine, stored back
    in [factor_states]. *)
Lemma detect_factor_step (fps : float) (frame_count : Z) (details : dict R)
    (factor : string) (risk_val : Z) (states : dict FactorState)
    (events : list RiskEvent) :
  detect_factor fps frame_count details factor risk_val states events
  = match step fps factor (frame_count, details, risk_val)
            (dict_get_default states factor initial_state) with
    | Some (state', emitted) => Some (dict_set states factor state', events ++ emitted)
    | None => None
    end.
Proof.
  unfold detect_factor, step, visit_risk, visit_frame, visit_details, dict_mem,
    dict_get_default, append; cbn [fst snd].
  destruct (dict_get states factor) as [state |] eqn:Hget.
  - rewrite Hget.
    destruct ((30 <=? risk_val) && negb (active state)); [rewrite app_nil_r; reflexivity |].
    destruct ((30 <=? risk_val) && active state).
    { destruct (peak_risk state <? risk_val); rewrite app_nil_r;
        [reflexivity | rewrite (dict_set_get_same _ _ _ Hget); reflexivity]. }
    destruct ((risk_val <? 30) && active state).
    { destruct (make_event fps factor state); reflexivity. }
    rewrite app_nil_r, (dict_set_get_same _ _ _ Hget). reflexivity.
  - rewrite dict_get_set_same.
    destruct ((30 <=? risk_val) && negb (active initial_state));
      [rewrite app_nil_r, dict_set_set; reflexivity |].
    destruct ((30 <=? risk_val) && active initial_state).
    { destruct (peak_risk initial_state <? risk_val); rewrite app_nil_r;
        [rewrite dict_set_set; reflexivity | reflexivity]. }
    destruct ((risk_val <? 30) && active initial_state).
    { destruct (make_event fps factor initial_state);
        [rewrite dict_set_set; reflexivity | reflexivity]. }
    rewrite app_nil_r. reflexivity.
Qed.

Lemma make_event_fields (fps : float) (factor : string) (state : FactorState)
    (e : RiskEvent) :
  make_event fps factor state = Some e ->
  frames_to_timestamp (peak_frame state) fps = Some (timestamp e)
  /\ frame e = peak_frame state
  /\ risk e = peak_risk state
  /\ part e = dict_get_default FACTOR_TO_PART factor factor
  /\ severity e = risk_severity (peak_risk state)
  /\ description e = description_of factor
  /\ angle e = option_map round1 (peak_angle state).
Proof.
  unfold make_event. destruct (frames_to_timestamp (peak_frame state) fps); [| discriminate].
  intros H; injection H as <-. simpl. repeat split.
Qed.

Lemma make_event_total (fps : float) (factor : string) (state : FactorState) :
  frames_to_timestamp (peak_frame state) fps <> None ->
  exists e, make_event fps factor state = Some e.
Proof.
  unfold make_event. destruct (frames_to_timestamp (peak_frame state) fps);
    [eexists; reflexivity | congruence].
Qed.

(** What a step emits: nothing, or the one event of the state left. *)
Lemma step_emitted (fps : float) (factor : string) (v : visit) (state state' : FactorState)
    (emitted : list RiskEvent) :
  step fps factor v state = Some (state', emitted) ->
  emitted = []
  \/ (exists e, emitted = [e] /\ make_event fps factor state = Some e
                /\ active state = true /\ visit_risk v < 30 /\ active state' = false).
Proof.
  unfold step.
  destruct ((30 <=? visit_risk v) && negb (active state));
    [intros H; injection H as <- <-; left; reflexivity |].
  destruct ((30 <=? visit_risk v) && active state).
  { destruct (peak_risk state <? visit_risk v); intros H; injection H as <- <-;
      left; reflexivity. }
  destruct ((visit_risk v <? 30) && active state) eqn:Hdrop.
  - apply andb_prop in Hdrop as [Hlow Hact]. apply Z.ltb_lt in Hlow.
    destruct (make_event fps factor state) as [e |]; [| discriminate].
    intros H; injection H as <- <-. right. exists e. simpl. auto.
  - intros H; injection H as <- <-. left; reflexivity.
Qed.

Lemma step_ok (fps : float) (factor : string) (v : visit) (n : Z)
    (state state' : FactorState) (emitted : list RiskEvent) :
  state_ok n state -> 1 <= visit_frame v -> n <= visit_frame v ->
  step fps factor v state = Some (state', emitted) ->
  state_ok (visit_frame v) state' /\ Forall event_ok emitted.
Proof.
  intros Hok H1 Hn Hstep.
  assert (Hmono : state_ok (visit_frame v) state).
  { intros Hact. specialize (Hok Hact). lia. }
  split.
  - revert Hstep. unfold step.
    destruct ((30 <=? visit_risk v) && negb (active state)) eqn:Hup.
    { apply andb_prop in Hup as [Hhigh _]. apply Z.leb_le in Hhigh.
      intros H; injection H as <- <-. intros _; simpl. lia. }
    destruct ((30 <=? visit_risk v) && active state) eqn:Hstay.
    { apply andb_prop in Hstay as [Hhigh Hact]. apply Z.leb_le in Hhigh.
      destruct (peak_risk state <? visit_risk v); intros H; injection H as <- <-.
      - intros _; simpl. lia.
      - exact Hmono. }
    destruct ((visit_risk v <? 30) && active state).
    { destruct (make_event fps factor state); [| discriminate].
      intros H; injection H as <- <-. intros Hact; discriminate Hact. }
    intros H; injection H as <- <-. exact Hmono.
  - destruct (step_emitted _ _ _ _ _ _ Hstep) as [-> | (e & -> & He & Hact & _)].
    + constructor.
    + constructor; [| constructor].
      destruct (make_event_fields _ _ _ _ He) as (_ & _ & Hr & _ & Hs & _).
      unfold event_ok. rewrite Hr, Hs. specialize (Hok Hact). split; [lia | reflexivity].
Qed.

Lemma step_total (fps : float) (factor : string) (v : visit) (n N : Z)
    (state : FactorState) :
  clock_ok fps N -> state_ok n state -> n <= N ->
  exists result, step fps factor v state = Some result.
Proof.
  intros Hclock Hok Hn. unfold step.
  destruct ((30 <=? visit_risk v) && negb (active state)); [eexists; reflexivity |].
  destruct ((30 <=? visit_risk v) && active state).
  { destruct (peak_risk state <? visit_risk v); eexists; reflexivity. }
  destruct ((visit_risk v <? 30) && active state) eqn:Hdrop; [| eexists; reflexivity].
  apply andb_prop in Hdrop as [_ Hact]. specialize (Hok Hact).
  destruct (make_event_total fps factor state) as (e & ->); [| eexists; reflexivity].
  apply Hclock. lia.
Qed.

(** The descriptions tell the factors apart. *)
Lemma description_of_inj (f g : string) : description_of f = description_of g -> f = g.
Proof.
  unfold description_of, dict_get_default, FACTOR_DESCRIPTIONS. cbn [dict_get].
  repeat match goal with
         | |- context [String.eqb ?k f] =>
             destruct (String.eqb_spec k f) as [<- | ?]
         end;
  repeat match goal with
         | |- context [String.eqb ?k g] =>
             destruct (String.eqb_spec k g) as [<- | ?]
         end;
  cbn [dict_get String.eqb Ascii.eqb Bool.eqb];
  intros H; first [reflexivity | discriminate H | idtac].
  injection H as H. exact H.
Qed.

Lemma step_described (fps : float) (factor : string) (v : visit)
    (state state' : FactorState) (emitted : list RiskEvent) :
  step fps factor v state = Some (state', emitted) ->
  Forall (fun e => description e = description_of factor) emitted.
Proof.
  intros Hstep.
  destruct (step_emitted _ _ _ _ _ _ Hstep) as [-> | (e & -> & He & _)].
  - constructor.
  - constructor; [| constructor]. apply (make_event_fields _ _ _ _ He).
Qed.

Lemma filter_of_factor_same (factor : string) (l : list RiskEvent) :
  Forall (fun e => description e = description_of factor) l ->
  filter (of_factor factor) l = l.
Proof.
  induction 1 as [| e l He _ IH]; [reflexivity |].
  cbn [filter]. unfold of_factor at 1. rewrite He, String.eqb_refl, IH. reflexivity.
Qed.

Lemma filter_of_factor_other (f g : string) (l : list RiskEvent) :
  f <> g ->
  Forall (fun e => description e = description_of g) l ->
  filter (of_factor f) l = [].
Proof.
  intros Hne. induction 1 as [| e l He _ IH]; [reflexivity |].
  cbn [filter]. unfold of_factor at 1. rewrite He.
  destruct (String.eqb_spec (description_of g) (description_of f)) as [Heq | _].
  - apply description_of_inj in Heq. congruence.
  - exact IH.
Qed.

Lemma run_app (fps : float) (factor : string) (a b : list visit) (state : FactorState) :
  run fps factor (a ++ b) state
  = match run fps factor a state with
    | Some (middle, first) =>
        match run fps factor b middle with
        | Some (final, second) => Some (final, first ++ second)
        | None => None
        end
    | None => None
    end.
Proof.
  revert state. induction a as [| v a IH]; intros state; cbn [app run].
  - destruct (run fps factor b state) as [[final second] |]; reflexivity.
  - destruct (step fps factor v state) as [[state' emitted] |]; [| reflexivity].
    rewrite IH.
    destruct (run fps factor a state') as [[middle first] |]; [| reflexivity].
    destruct (run fps factor b middle) as [[final second] |]; [| reflexivity].
    rewrite app_assoc. reflexivity.
Qed.

Lemma state_of_set_same (states : dict FactorState) (factor : string) (st : FactorState) :
  state_of (dict_set states factor st) factor = st.
Proof. unfold state_of, dict_get_default. rewrite dict_get_set_same. reflexivity. Qed.

Lemma state_of_set_other (states : dict FactorState) (f g : string) (st : FactorState) :
  f <> g -> state_of (dict_set states g st) f = state_of states f.
Proof.
  intros Hne. unfold state_of, dict_get_default.
  rewrite dict_get_set_other by exact Hne. reflexivity.
Qed.

(** One frame of the loop, seen from one factor: its machine runs over the
    items of the frame that bear its name, and its events are those the run
    emits. *)
Lemma detect_frame_run (fps : float) (frame_count : Z) (details : dict R) (f : string) :
  forall (items : dict Z) (states : dict FactorState) (events : list RiskEvent)
         (states' : dict FactorState) (events' : list RiskEvent),
    detect_frame fps frame_count details items states events = Some (states', events') ->
    exists emitted,
      run fps f
        (map (fun kr => (frame_count, details, snd kr))
           (filter (fun kr => String.eqb (fst kr) f) items))
        (state_of states f)
      = Some (state_of states' f, emitted)
      /\ filter (of_factor f) events' = filter (of_factor f) events ++ emitted.
Proof.
  induction items as [| [g v] items IH]; intros states events states' events' H.
  - injection H as <- <-. exists []. split; [reflexivity | rewrite app_nil_r; reflexivity].
  - cbn [detect_frame] in H. rewrite detect_factor_step in H.
    fold (state_of states g) in H.
    destruct (step fps g (frame_count, details, v) (state_of states g))
      as [[st emitted] |] eqn:Hstep; [| discriminate H].
    destruct (IH _ _ _ _ H) as (later & Hrun & Hevents).
    cbn [filter fst]. destruct (String.eqb_spec g f) as [-> | Hne].
    + cbn [map run snd]. rewrite Hstep.
      rewrite state_of_set_same in Hrun. rewrite Hrun.
      exists (emitted ++ later). split; [reflexivity |].
      rewrite Hevents, filter_app, (filter_of_factor_same f emitted), app_assoc;
        [reflexivity | exact (step_described _ _ _ _ _ _ Hstep)].
    + rewrite state_of_set_other in Hrun by congruence.
      exists later. split; [exact Hrun |].
      rewrite Hevents, filter_app, (filter_of_factor_other f g emitted), app_nil_r;
        [reflexivity | congruence | exact (step_described _ _ _ _ _ _ Hstep)].
Qed.

(** The whole loop, seen from one factor. *)
Lemma detect_frames_run (fps : float) (f : string) :
  forall (frames : list (dict Z * dict R)) (frame_count : Z)
         (states : dict FactorState) (events : list RiskEvent)
         (states' : dict FactorState) (events' : list RiskEvent),
    detect_frames fps frames frame_count states events = Some (states', events') ->
    exists emitted,
      run fps f (visits f frames frame_count) (state_of states f)
      = Some (state_of states' f, emitted)
      /\ filter (of_factor f) events' = filter (of_factor f) events ++ emitted.
Proof.
  induction frames as [| [risks details] frames IH];
    intros frame_count states events states' events' H.
  - injection H as <- <-. exists []. split; [reflexivity | rewrite app_nil_r; reflexivity].
  - cbn [detect_frames] in H.
    destruct (detect_frame fps (frame_count + 1) details risks states events)
      as [[states1 events1] |] eqn:Hframe; [| discriminate H].
    destruct (detect_frame_run _ _ _ f _ _ _ _ _ Hframe) as (first & Hrun1 & Hev1).
    destruct (IH _ _ _ _ _ H) as (second & Hrun2 & Hev2).
    cbn [visits]. rewrite run_app, Hrun1, Hrun2.
    exists (first ++ second). split; [reflexivity |].
    rewrite Hev2, Hev1, app_assoc. reflexivity.
Qed.

(** The flush, seen from one factor. *)
Lemma flush_factor (fps : float) (f : string) :
  forall (states : dict FactorState) (events events' : list RiskEvent),
    NoDup (dict_keys states) ->
    flush fps states events = Some events' ->
    filter (of_factor f) events'
    = filter (of_factor f) events
      ++ (if active (state_of states f) && (30 <=? peak_risk (state_of states f))
          then match make_event fps f (state_of states f) with
               | Some e => [e]
               | None => []
               end
          else []).
Proof.
  induction states as [| [g st] states IH]; intros events events' Hnd H.
  - injection H as <-. cbn. rewrite app_nil_r. reflexivity.
  - cbn [dict_keys map fst] in Hnd. inversion Hnd as [| ? ? Hnotin Hnd']; subst.
    cbn [flush] in H.
    unfold state_of, dict_get_default. cbn [dict_get].
    destruct (String.eqb_spec g f) as [-> | Hne].
    + assert (Hrest : state_of states f = initial_state).
      { unfold state_of, dict_get_default.
        rewrite (proj2 (dict_get_none_keys states f) Hnotin). reflexivity. }
      destruct (active st && (30 <=? peak_risk st)).
      * destruct (make_event fps f st) as [e |] eqn:He; [| discriminate H].
        rewrite (IH _ _ Hnd' H), Hrest. cbn [initial_state active andb].
        unfold append. rewrite filter_app, app_nil_r.
        rewrite (filter_of_factor_same f [e]); [reflexivity |].
        constructor; [apply (make_event_fields _ _ _ _ He) | constructor].
      * rewrite (IH _ _ Hnd' H), Hrest. reflexivity.
    + fold (dict_get_default states f initial_state). fold (state_of states f).
      destruct (active st && (30 <=? peak_risk st)).
      * destruct (make_event fps g st) as [e |] eqn:He; [| discriminate H].
        rewrite (IH _ _ Hnd' H). unfold append.
        rewrite filter_app, (filter_of_factor_other f g [e]), app_nil_r;
          [reflexivity | congruence |].
        constructor; [apply (make_event_fields _ _ _ _ He) | constructor].
      * exact (IH _ _ Hnd' H).
Qed.

(** ** Invariants of the event loop *)

Lemma state_ok_initial (n : Z) : state_ok n initial_state.
Proof. intros H; discriminate H. Qed.

Lemma state_ok_mono (n n' : Z) (state : FactorState) :
  n <= n' -> state_ok n state -> state_ok n' state.
Proof. intros Hn Hok Hact. specialize (Hok Hact). lia. Qed.

Lemma states_ok_mono (n n' : Z) (states : dict FactorState) :
  n <= n' -> Forall (state_ok n) (dict_values states) ->
  Forall (state_ok n') (dict_values states).
Proof.
  intros Hn H. rewrite Forall_forall in *. intros st Hst.
  exact (state_ok_mono _ _ _ Hn (H st Hst)).
Qed.

Lemma state_of_ok (n : Z) (states : dict FactorState) (factor : string) :
  Forall (state_ok n) (dict_values states) -> state_ok n (state_of states factor).
Proof.
  intros H. unfold state_of.
  apply dict_get_default_values; [exact H | apply state_ok_initial].
Qed.

Lemma detect_frame_ok (fps : float) (n : Z) (details : dict R) :
  1 <= n ->
  forall (items : dict Z) (states : dict FactorState) (events : list RiskEvent)
         (states' : dict FactorState) (events' : list RiskEvent),
    Forall (state_ok n) (dict_values states) ->
    Forall event_ok events ->
    NoDup (dict_keys states) ->
    detect_frame fps n details items states events = Some (states', events') ->
    Forall (state_ok n) (dict_values states')
    /\ Forall event_ok events'
    /\ NoDup (dict_keys states').
Proof.
  intros Hn.
  induction items as [| [g v] items IH]; intros states events states' events' Hs He Hnd H.
  - injection H as <- <-. auto.
  - cbn [detect_frame] in H. rewrite detect_factor_step in H.
    fold (state_of states g) in H.
    destruct (step fps g (n, details, v) (state_of states g))
      as [[st emitted] |] eqn:Hstep; [| discriminate H].
    destruct (step_ok fps g (n, details, v) n _ _ _ (state_of_ok n states g Hs)
                Hn (Z.le_refl n) Hstep) as [Hst Hem].
    apply (IH _ _ _ _) in H; [exact H | | |].
    + apply dict_set_values; assumption.
    + apply Forall_app. split; assumption.
    + apply dict_set_nodup. exact Hnd.
Qed.

Lemma detect_frames_ok (fps : float) :
  forall (frames : list (dict Z * dict R)) (n : Z)
         (states : dict FactorState) (events : list RiskEvent)
         (states' : dict FactorState) (events' : list RiskEvent),
    0 <= n ->
    Forall (state_ok n) (dict_values states) ->
    Forall event_ok events ->
    NoDup (dict_keys states) ->
    detect_frames fps frames n states events = Some (states', events') ->
    Forall (state_ok (n + Z.of_nat (List.length frames))) (dict_values states')
    /\ Forall event_ok events'
    /\ NoDup (dict_keys states').
Proof.
  induction frames as [| [risks details] frames IH];
    intros n states events states' events' Hn Hs He Hnd H.
  - injection H as <- <-. cbn [List.length Z.of_nat]. rewrite Z.add_0_r. auto.
  - cbn [detect_frames] in H.
    destruct (detect_frame fps (n + 1) details risks states events)
      as [[states1 events1] |] eqn:Hframe; [| discriminate H].
    apply detect_frame_ok in Hframe as (Hs1 & He1 & Hnd1);
      [| lia | apply (states_ok_mono n); [lia | exact Hs] | exact He | exact Hnd].
    apply IH in H as (Hs2 & He2 & Hnd2); [| lia | exact Hs1 | exact He1 | exact Hnd1].
    replace (n + Z.of_nat (List.length ((risks, details) :: frames)))
      with (n + 1 + Z.of_nat (List.length frames)) by (cbn [List.length]; lia).
    auto.
Qed.

Lemma flush_ok (fps : float) :
  forall (states : dict FactorState) (events events' : list RiskEvent),
    Forall event_ok events ->
    flush fps states events = Some events' ->
    Forall event_ok events'.
Proof.
  induction states as [| [g st] states IH]; intros events events' He H.
  - injection H as <-. exact He.
  - cbn [flush] in H.
    destruct (active st && (30 <=? peak_risk st)) eqn:Hguard; [| exact (IH _ _ He H)].
    apply andb_prop in Hguard as [_ Hpeak]. apply Z.leb_le in Hpeak.
    destruct (make_event fps g st) as [e |] eqn:Hev; [| discriminate H].
    apply (IH _ _) in H; [exact H |].
    unfold append. apply Forall_app. split; [exact He |].
    constructor; [| constructor].
    destruct (make_event_fields _ _ _ _ Hev) as (_ & _ & Hr & _ & Hsev & _).
    unfold event_ok. rewrite Hr, Hsev. split; [lia | reflexivity].
Qed.

Lemma event_ok_never_low (e : RiskEvent) : event_ok e -> never_low e.
Proof.
  intros [Hr Hs]. unfold never_low. rewrite Hs. unfold risk_severity.
  destruct (risk e <? 30) eqn:H30; [apply Z.ltb_lt in H30; lia |].
  destruct (risk e <? 60); [repeat split; auto; discriminate |].
  destruct (risk e <? 80); repeat split; auto; discriminate.
Qed.

Lemma detect_events_ok (fps : float) (frames : list (dict Z * dict R))
    (events : list RiskEvent) :
  detect_events fps frames = Some events -> Forall event_ok events.
Proof.
  unfold detect_events.
  destruct (detect_frames fps frames 0 [] []) as [[states loop_events] |] eqn:Hloop;
    [| discriminate].
  intros H. apply detect_frames_ok in Hloop as (_ & He & _);
    [| lia | constructor | constructor | constructor].
  exact (flush_ok _ _ _ _ He H).
Qed.

(** The video pipeline keeps the same invariants. *)
Lemma process_frames_ok (fps : float) :
  forall (frames : list (list person)) (n : Z) (scores : list Z)
         (states : dict FactorState) (events : list RiskEvent)
         (n' : Z) (scores' : list Z)
         (states' : dict FactorState) (events' : list RiskEvent),
    0 <= n ->
    Forall (state_ok n) (dict_values states) ->
    Forall event_ok events ->
    NoDup (dict_keys states) ->
    process_frames fps frames n scores states events = Some (n', scores', states', events') ->
    Forall event_ok events'.
Proof.
  induction frames as [| persons frames IH];
    intros n scores states events n' scores' states' events' Hn Hs He Hnd H.
  - injection H as <- <- <- <-. exact He.
  - cbn [process_frames] in H.
    destruct (analyze_frame persons 0 [] []) as [[[frame_max risks] details] |];
      [| discriminate H].
    destruct (detect_frame fps (n + 1) details risks states events)
      as [[states1 events1] |] eqn:Hframe; [| discriminate H].
    apply detect_frame_ok in Hframe as (Hs1 & He1 & Hnd1);
      [| lia | apply (states_ok_mono n); [lia | exact Hs] | exact He | exact Hnd].
    apply IH in H; [exact H | lia | exact Hs1 | exact He1 | exact Hnd1].
Qed.

Lemma keep_first_incl (l : list RiskEvent) (seen : list (string * string)) (e : RiskEvent) :
  In e (keep_first seen l) -> In e l.
Proof.
  intros H. apply keep_first_spec in H as [(before & after & -> & _) _].
  apply in_or_app. right; left; reflexivity.
Qed.

Lemma deduplicate_incl (l : list RiskEvent) (e : RiskEvent) :
  In e (deduplicate l) -> In e l.
Proof.
  intros H. apply keep_first_incl in H.
  exact (Permutation_in _ (sorted_by_risk_perm l) H).
Qed.

(** C10: every event of [risk_events], whether appended by the loop when a
    factor deactivates or by the flush at the end of the video, has a risk
    of at least 30 and a severity label that is the one of its risk: never
    "LOW", always "MEDIUM", "HIGH" or "CRITICAL".  The same holds of the
    events stored in the record of a processed video. *)
Theorem emitted_events_never_low (fps : float) (frames : list (dict Z * dict R))
    (events : list RiskEvent) :
  detect_events fps frames = Some events ->
  Forall never_low events
  /\ (forall (video_id sport : string) (opened : bool) (fps_raw : float)
             (total_frames : Z) (video : list (list person)) (data : Completed),
        process_video video_id opened fps_raw total_frames video sport = Done data ->
        Forall never_low (risks data)).
Proof.
  intros H. split.
  - apply detect_events_ok in H. rewrite Forall_forall in *.
    intros e He. apply event_ok_never_low, H, He.
  - clear. intros video_id sport opened fps_raw total_frames video data.
    unfold process_video. destruct (negb opened); [discriminate |].
    set (fps := if (fps_raw =? 0)%float then 30%float else fps_raw).
    destruct (process_frames fps video 0 [] [] [])
      as [[[[frame_count scores] states] loop_events] |] eqn:Hloop; [| discriminate].
    destruct (flush fps states loop_events) as [risk_events |] eqn:Hflush; [| discriminate].
    destruct (int_of_float _); [| discriminate].
    destruct (clock _); [| discriminate].
    destruct (int_of_float fps); [| discriminate].
    intros Hdone; injection Hdone as <-. cbn [risks].
    apply process_frames_ok in Hloop; [| lia | constructor | constructor | constructor].
    pose proof (flush_ok _ _ _ _ Hloop Hflush) as Hok.
    rewrite Forall_forall in *. intros e He.
    apply event_ok_never_low, Hok, deduplicate_incl.
    rewrite <- (firstn_skipn 20 (deduplicate risk_events)).
    apply in_or_app. left; exact He.
Qed.

(** ** The loop returns when the clock does *)

Lemma detect_frame_total (fps : float) (n N : Z) (details : dict R) :
  clock_ok fps N -> 1 <= n <= N ->
  forall (items : dict Z) (states : dict FactorState) (events : list RiskEvent),
    Forall (state_ok n) (dict_values states) ->
    exists states' events',
      detect_frame fps n details items states events = Some (states', events').
Proof.
  intros Hclock Hn.
  induction items as [| [g v] items IH]; intros states events Hs.
  - eexists; eexists; reflexivity.
  - cbn [detect_frame]. rewrite detect_factor_step. fold (state_of states g).
    destruct (step_total fps g (n, details, v) n N (state_of states g) Hclock
                (state_of_ok n states g Hs) (proj2 Hn)) as ([st emitted] & Hstep).
    rewrite Hstep.
    apply IH. apply dict_set_values; [exact Hs |].
    apply (step_ok fps g (n, details, v) n _ _ _ (state_of_ok n states g Hs)
             (proj1 Hn) (Z.le_refl n) Hstep).
Qed.

Lemma detect_frame_states_ok (fps : float) (n : Z) (details : dict R) :
  1 <= n ->
  forall (items : dict Z) (states : dict FactorState) (events : list RiskEvent)
         (states' : dict FactorState) (events' : list RiskEvent),
    Forall (state_ok n) (dict_values states) ->
    NoDup (dict_keys states) ->
    detect_frame fps n details items states events = Some (states', events') ->
    Forall (state_ok n) (dict_values states') /\ NoDup (dict_keys states').
Proof.
  intros Hn.
  induction items as [| [g v] items IH]; intros states events states' events' Hs Hnd H.
  - injection H as <- <-. auto.
  - cbn [detect_frame] in H. rewrite detect_factor_step in H.
    fold (state_of states g) in H.
    destruct (step fps g (n, details, v) (state_of states g))
      as [[st emitted] |] eqn:Hstep; [| discriminate H].
    destruct (step_ok fps g (n, details, v) n _ _ _ (state_of_ok n states g Hs)
                Hn (Z.le_refl n) Hstep) as [Hst _].
    apply (IH _ _ _ _) in H; [exact H | |].
    + apply dict_set_values; assumption.
    + apply dict_set_nodup. exact Hnd.
Qed.

Lemma detect_frames_total (fps : float) (N : Z) :
  clock_ok fps N ->
  forall (frames : list (dict Z * dict R)) (n : Z)
         (states : dict FactorState) (events : list RiskEvent),
    0 <= n -> n + Z.of_nat (List.length frames) <= N ->
    Forall (state_ok n) (dict_values states) ->
    NoDup (dict_keys states) ->
    exists states' events',
      detect_frames fps frames n states events = Some (states', events').
Proof.
  intros Hclock.
  induction frames as [| [risks details] frames IH]; intros n states events Hn HN Hs Hnd.
  - eexists; eexists; reflexivity.
  - cbn [List.length] in HN. cbn [detect_frames].
    assert (Hs1 : Forall (state_ok (n + 1)) (dict_values states))
      by (apply (states_ok_mono n); [lia | exact Hs]).
    destruct (detect_frame_total fps (n + 1) N details Hclock ltac:(lia) risks states events Hs1)
      as (states1 & events1 & Hframe).
    rewrite Hframe.
    apply detect_frame_states_ok in Hframe as (Hs2 & Hnd2);
      [| lia | exact Hs1 | exact Hnd].
    apply IH; [lia | lia | exact Hs2 | exact Hnd2].
Qed.

Lemma detect_frames_states_ok (fps : float) :
  forall (frames : list (dict Z * dict R)) (n : Z)
         (states : dict FactorState) (events : list RiskEvent)
         (states' : dict FactorState) (events' : list RiskEvent),
    0 <= n ->
    Forall (state_ok n) (dict_values states) ->
    NoDup (dict_keys states) ->
    detect_frames fps frames n states events = Some (states', events') ->
    Forall (state_ok (n + Z.of_nat (List.length frames))) (dict_values states')
    /\ NoDup (dict_keys states').
Proof.
  induction frames as [| [risks details] frames IH];
    intros n states events states' events' Hn Hs Hnd H.
  - injection H as <- <-. cbn [List.length Z.of_nat]. rewrite Z.add_0_r. auto.
  - cbn [detect_frames] in H.
    destruct (detect_frame fps (n + 1) details risks states events)
      as [[states1 events1] |] eqn:Hframe; [| discriminate H].
    apply detect_frame_states_ok in Hframe as (Hs1 & Hnd1);
      [| lia | apply (states_ok_mono n); [lia | exact Hs] | exact Hnd].
    apply IH in H as (Hs2 & Hnd2); [| lia | exact Hs1 | exact Hnd1].
    replace (n + Z.of_nat (List.length ((risks, details) :: frames)))
      with (n + 1 + Z.of_nat (List.length frames)) by (cbn [List.length]; lia).
    auto.
Qed.

Lemma flush_total (fps : float) (N : Z) :
  clock_ok fps N ->
  forall (states : dict FactorState) (events : list RiskEvent),
    Forall (state_ok N) (dict_values states) ->
    exists events', flush fps states events = Some events'.
Proof.
  intros Hclock.
  induction states as [| [g st] states IH]; intros events Hs.
  - eexists; reflexivity.
  - cbn [dict_values map snd] in Hs. inversion Hs as [| ? ? Hst Hrest]; subst.
    cbn [flush].
    destruct (active st && (30 <=? peak_risk st)) eqn:Hguard; [| apply IH; exact Hrest].
    apply andb_prop in Hguard as [Hact _]. specialize (Hst Hact).
    destruct (make_event_total fps g st) as (e & ->); [apply Hclock; lia |].
    apply IH; exact Hrest.
Qed.

Lemma detect_events_total (fps : float) (frames : list (dict Z * dict R)) :
  clock_ok fps (Z.of_nat (List.length frames)) ->
  exists states loop_events events,
    detect_frames fps frames 0 [] [] = Some (states, loop_events)
    /\ flush fps states loop_events = Some events
    /\ detect_events fps frames = Some events
    /\ Forall (state_ok (Z.of_nat (List.length frames))) (dict_values states)
    /\ NoDup (dict_keys states).
Proof.
  intros Hclock.
  destruct (detect_frames_total fps _ Hclock frames 0 [] [])
    as (states & loop_events & Hloop); [lia | lia | constructor | constructor |].
  pose proof Hloop as Hinv.
  apply detect_frames_states_ok in Hinv as (Hs & Hnd); [| lia | constructor | constructor].
  rewrite Z.add_0_l in Hs.
  destruct (flush_total fps _ Hclock states loop_events Hs) as (events & Hflush).
  exists states, loop_events, events.
  unfold detect_events. rewrite Hloop. auto.
Qed.

(** ** Episodes of one factor *)

Lemma run_quiet (fps : float) (factor : string) (vs : list visit) (state : FactorState) :
  active state = false ->
  (forall v, In v vs -> visit_risk v < 30) ->
  run fps factor vs state = Some (state, []).
Proof.
  intros Hoff. induction vs as [| v vs IH]; intros Hlow; [reflexivity |].
  cbn [run]. unfold step.
  assert (Hv : visit_risk v < 30) by (apply Hlow; left; reflexivity).
  replace (30 <=? visit_risk v) with false by (symmetry; apply Z.leb_gt; lia).
  rewrite Hoff. cbn [andb negb]. rewrite andb_false_r.
  rewrite IH; [reflexivity |]. intros x Hx. apply Hlow. right; exact Hx.
Qed.

(** While active, the machine emits nothing and keeps the first highest
    value seen. *)
Lemma run_active (fps : float) (factor : string) :
  forall (vs : list visit) (state : FactorState),
    active state = true ->
    (forall v, In v vs -> 30 <= visit_risk v) ->
    exists final,
      run fps factor vs state = Some (final, [])
      /\ active final = true
      /\ start_frame final = start_frame state
      /\ (((forall v, In v vs -> visit_risk v <= peak_risk state) /\ final = state)
          \/ (exists peak, first_peak peak vs
                          /\ peak_risk state < visit_risk peak
                          /\ peak_risk final = visit_risk peak
                          /\ peak_frame final = visit_frame peak
                          /\ peak_angle final = detail_of (visit_details peak) factor)).
Proof.
  induction vs as [| v vs IH]; intros state Hon Hhigh.
  - exists state. repeat split; try assumption. left. split; [intros v [] | reflexivity].
  - assert (Hv : 30 <= visit_risk v) by (apply Hhigh; left; reflexivity).
    assert (Hrest : forall x, In x vs -> 30 <= visit_risk x)
      by (intros x Hx; apply Hhigh; right; exact Hx).
    cbn [run]. unfold step.
    replace (30 <=? visit_risk v) with true by (symmetry; apply Z.leb_le; lia).
    rewrite Hon. cbn [andb negb].
    destruct (peak_risk state <? visit_risk v) eqn:Hraise.
    + apply Z.ltb_lt in Hraise.
      set (raised := {| active := true; start_frame := start_frame state;
                        peak_risk := visit_risk v; peak_frame := visit_frame v;
                        peak_angle := detail_of (visit_details v) factor |}).
      destruct (IH raised eq_refl Hrest) as (final & Hrun & Hact & Hstart & Hpeak).
      rewrite Hrun. exists final. repeat split; try assumption.
      right. destruct Hpeak as [[Hall ->] | (peak & (before & after & -> & Hb & Ha) & Hgt & Hp)].
      * exists v. split; [| repeat split; assumption].
        exists [], vs. split; [reflexivity |]. split; [intros x [] | exact Hall].
      * cbn [peak_risk raised] in Hgt. exists peak. split; [| split; [lia | exact Hp]].
        exists (v :: before), after. split; [reflexivity |]. split; [| exact Ha].
        intros x [<- | Hx]; [exact Hgt | apply Hb; exact Hx].
    + apply Z.ltb_ge in Hraise.
      destruct (IH state Hon Hrest) as (final & Hrun & Hact & Hstart & Hpeak).
      rewrite Hrun. exists final. repeat split; try assumption.
      destruct Hpeak as [[Hall ->] | (peak & (before & after & -> & Hb & Ha) & Hgt & Hp)].
      * left. split; [| reflexivity].
        intros x [<- | Hx]; [exact Hraise | apply Hall; exact Hx].
      * right. exists peak. split; [| split; [exact Hgt | exact Hp]].
        exists (v :: before), after. split; [reflexivity |]. split; [| exact Ha].
        intros x [<- | Hx]; [lia | apply Hb; exact Hx].
Qed.

(** From rest, a burst of values of at least 30 activates the machine, which
    emits nothing and holds the first highest value of the burst. *)
Lemma run_burst (fps : float) (factor : string) (burst : list visit) (state : FactorState) :
  active state = false ->
  burst <> [] ->
  (forall v, In v burst -> 30 <= visit_risk v) ->
  exists final peak,
    run fps factor burst state = Some (final, [])
    /\ first_peak peak burst
    /\ active final = true
    /\ peak_risk final = visit_risk peak
    /\ peak_frame final = visit_frame peak
    /\ peak_angle final = detail_of (visit_details peak) factor.
Proof.
  intros Hoff Hne Hhigh. destruct burst as [| v vs]; [congruence |].
  assert (Hv : 30 <= visit_risk v) by (apply Hhigh; left; reflexivity).
  assert (Hrest : forall x, In x vs -> 30 <= visit_risk x)
    by (intros x Hx; apply Hhigh; right; exact Hx).
  cbn [run]. unfold step.
  replace (30 <=? visit_risk v) with true by (symmetry; apply Z.leb_le; lia).
  rewrite Hoff. cbn [andb negb].
  set (started := {| active := true; start_frame := visit_frame v;
                     peak_risk := visit_risk v; peak_frame := visit_frame v;
                     peak_angle := detail_of (visit_details v) factor |}).
  destruct (run_active fps factor vs started eq_refl Hrest)
    as (final & Hrun & Hact & _ & Hpeak).
  rewrite Hrun. exists final.
  destruct Hpeak as [[Hall ->] | (peak & (before & after & -> & Hb & Ha) & Hgt & Hp)].
  - exists v. repeat split.
    exists [], vs. split; [reflexivity |]. split; [intros x [] | exact Hall].
  - exists peak. split; [reflexivity |]. split; [| split; [exact Hact | exact Hp]].
    exists (v :: before), after. split; [reflexivity |]. split; [| exact Ha].
    intros x [<- | Hx]; [exact Hgt | apply Hb; exact Hx].
Qed.


(** An episode of one factor: rest, a burst, the drop that ends it, rest. *)
Lemma run_episode (fps : float) (factor : string) (quiet burst calm : list visit)
    (drop : visit) (final : FactorState) (emitted : list RiskEvent) :
  (forall v, In v quiet -> visit_risk v < 30) ->
  burst <> [] ->
  (forall v, In v burst -> 30 <= visit_risk v) ->
  visit_risk drop < 30 ->
  (forall v, In v calm -> visit_risk v < 30) ->
  run fps factor (quiet ++ burst ++ drop :: calm) initial_state = Some (final, emitted) ->
  exists (held : FactorState) (peak : visit) (e : RiskEvent),
    run fps factor (quiet ++ burst) initial_state = Some (held, [])
    /\ active held = true
    /\ first_peak peak burst
    /\ peak_risk held = visit_risk peak
    /\ peak_frame held = visit_frame peak
    /\ peak_angle held = detail_of (visit_details peak) factor
    /\ make_event fps factor held = Some e
    /\ step fps factor drop held = Some (final, [e])
    /\ active final = false
    /\ emitted = [e].
Proof.
  intros Hquiet Hne Hburst Hdrop Hcalm Hrun.
  destruct (run_burst fps factor burst initial_state eq_refl Hne Hburst)
    as (held & peak & Hheld & Hpeak & Hon & Hrisk & Hframe & Hangle).
  rewrite run_app, (run_quiet fps factor quiet initial_state eq_refl Hquiet) in Hrun.
  rewrite run_app, Hheld in Hrun. cbn [run app] in Hrun.
  assert (Hstep : step fps factor drop held
                  = match make_event fps factor held with
                    | Some event =>
                        Some ({| active := false; start_frame := start_frame held;
                                 peak_risk := peak_risk held; peak_frame := peak_frame held;
                                 peak_angle := peak_angle held |}, [event])
                    | None => None
                    end).
  { unfold step.
    replace (30 <=? visit_risk drop) with false by (symmetry; apply Z.leb_gt; lia).
    replace (visit_risk drop <? 30) with true by (symmetry; apply Z.ltb_lt; lia).
    rewrite Hon. reflexivity. }
  destruct (make_event fps factor held) as [e |] eqn:He;
    [| rewrite Hstep in Hrun; discriminate Hrun].
  set (released := {| active := false; start_frame := start_frame held;
                      peak_risk := peak_risk held; peak_frame := peak_frame held;
                      peak_angle := peak_angle held |}) in *.
  rewrite Hstep, (run_quiet fps factor calm released eq_refl Hcalm) in Hrun.
  injection Hrun as <- <-.
  exists held, peak, e. rewrite run_app, (run_quiet fps factor quiet initial_state eq_refl Hquiet), Hheld.
  repeat split; assumption.
Qed.

Lemma clock_ok_30 : clock_ok 30 5.
Proof.
  intros k Hk.
  assert (Hcases : k = 1 \/ k = 2 \/ k = 3 \/ k = 4 \/ k = 5) by lia.
  destruct Hcases as [-> | [-> | [-> | [-> | ->]]]]; vm_compute; discriminate.
Qed.

Lemma first_peak_all (p : visit) (l : list visit) :
  first_peak p l -> In p l /\ forall x, In x l -> visit_risk x <= visit_risk p.
Proof.
  intros (before & after & -> & Hbefore & Hafter). split.
  - apply in_or_app. right; left; reflexivity.
  - intros x Hx. apply in_app_or in Hx as [Hx | [<- | Hx]].
    + specialize (Hbefore x Hx). lia.
    + lia.
    + apply Hafter. exact Hx.
Qed.

Lemma first_peak_snoc_keep (p v : visit) (l : list visit) :
  first_peak p l -> visit_risk v <= visit_risk p -> first_peak p (l ++ [v]).
Proof.
  intros (before & after & -> & Hbefore & Hafter) Hv.
  exists before, (after ++ [v]). split; [| split].
  - rewrite <- app_assoc. reflexivity.
  - exact Hbefore.
  - intros x Hx. apply in_app_or in Hx as [Hx | [<- | []]]; [apply Hafter; exact Hx | exact Hv].
Qed.

Lemma first_peak_snoc_new (v : visit) (l : list visit) :
  (forall x, In x l -> visit_risk x < visit_risk v) -> first_peak v (l ++ [v]).
Proof.
  intros Hl. exists l, []. split; [reflexivity | split; [exact Hl | intros x []]].
Qed.

(** One step of a factor at a value of 30 or above: nothing is emitted and
    the state follows the run, which the value extends. *)
Lemma step_high (fps : float) (factor : string) (current : list visit) (v : visit)
    (state state' : FactorState) (emitted : list RiskEvent) :
  tracks factor current state -> 30 <= visit_risk v ->
  step fps factor v state = Some (state', emitted) ->
  emitted = [] /\ tracks factor (current ++ [v]) state'.
Proof.
  intros Htracks Hv. unfold step.
  replace (30 <=? visit_risk v) with true by (symmetry; apply Z.leb_le; exact Hv).
  destruct current as [| c cs].
  - cbn [tracks] in Htracks. rewrite Htracks. cbn [andb negb].
    intros [= <- <-]. split; [reflexivity |]. cbn [app tracks active].
    split; [reflexivity |]. exists v.
    split; [apply (first_peak_snoc_new v []); intros x [] |].
    split; [| split]; reflexivity.
  - destruct Htracks as (Hactive & peak & Hpeak & Hrisk & Hframe & Hangle).
    rewrite Hactive. cbn [andb negb].
    assert (exists y ys, (c :: cs) ++ [v] = y :: ys) as (y & ys & Hshape)
      by (eexists; eexists; reflexivity).
    destruct (peak_risk state <? visit_risk v) eqn:Hhigher;
      intros [= <- <-]; (split; [reflexivity |]); rewrite Hshape; cbn [tracks active];
      rewrite <- Hshape.
    + apply Z.ltb_lt in Hhigher. split; [reflexivity |]. exists v.
      split; [| split; [| split]; reflexivity].
      apply first_peak_snoc_new. intros x Hx.
      destruct (first_peak_all _ _ Hpeak) as [_ Hmax]. specialize (Hmax x Hx). lia.
    + apply Z.ltb_ge in Hhigher. split; [exact Hactive |]. exists peak.
      split; [| split; [| split]; assumption].
      apply first_peak_snoc_keep; [exact Hpeak | lia].
Qed.

(** One step of a factor at a value below 30: an inactive factor stays as it
    is; an active one emits the event of the run that ends, and is
    deactivated. *)
Lemma step_low (fps : float) (factor : string) (current : list visit) (v : visit)
    (state state' : FactorState) (emitted : list RiskEvent) :
  tracks factor current state -> visit_risk v < 30 ->
  step fps factor v state = Some (state', emitted) ->
  match current with
  | [] => emitted = [] /\ state' = state
  | _ :: _ =>
      exists e, emitted = [e] /\ burst_event fps factor current e /\ active state' = false
  end.
Proof.
  intros Htracks Hv. unfold step.
  replace (30 <=? visit_risk v) with false by (symmetry; apply Z.leb_gt; exact Hv).
  replace (visit_risk v <? 30) with true by (symmetry; apply Z.ltb_lt; exact Hv).
  destruct current as [| c cs].
  - cbn [tracks] in Htracks. rewrite Htracks. cbn [andb negb].
    intros [= <- <-]. split; reflexivity.
  - destruct Htracks as (Hactive & peak & Hpeak & Hrisk & Hframe & Hangle).
    rewrite Hactive. cbn [andb negb].
    destruct (make_event fps factor state) as [e |] eqn:Hevent; [| discriminate].
    intros [= <- <-]. exists e. split; [reflexivity |]. split; [| reflexivity].
    destruct (make_event_fields _ _ _ _ Hevent) as (Hts & Hf & Hr & Hp & Hs & Hd & Ha).
    exists peak. rewrite <- Hrisk, <- Hframe, <- Hangle.
    repeat split; assumption.
Qed.

(** The run of a factor over its visits emits the events of the runs that
    end, one each and in order, and leaves a state that follows the run
    still under way. *)
Lemma run_episodes (fps : float) (factor : string) (vs : list visit) :
  forall (current : list visit) (state final : FactorState) (emitted : list RiskEvent),
    tracks factor current state ->
    run fps factor vs state = Some (final, emitted) ->
    Forall2 (burst_event fps factor) (fst (episodes vs current)) emitted
    /\ tracks factor (snd (episodes vs current)) final.
Proof.
  induction vs as [| v rest IH]; intros current state final emitted Htracks Hrun.
  - cbn in Hrun. injection Hrun as <- <-. cbn [episodes fst snd].
    split; [constructor | exact Htracks].
  - cbn [run] in Hrun.
    destruct (step fps factor v state) as [[state' first] |] eqn:Hstep; [| discriminate].
    destruct (run fps factor rest state') as [[final' later] |] eqn:Hrest; [| discriminate].
    injection Hrun as <- <-. cbn [episodes].
    destruct (30 <=? visit_risk v) eqn:Hv.
    + apply Z.leb_le in Hv.
      destruct (step_high fps factor current v _ _ _ Htracks Hv Hstep) as [-> Hnext].
      exact (IH _ _ _ _ Hnext Hrest).
    + apply Z.leb_gt in Hv.
      pose proof (step_low fps factor current v _ _ _ Htracks Hv Hstep) as Hlow.
      destruct current as [| c cs].
      * destruct Hlow as [-> ->]. exact (IH _ _ _ _ Htracks Hrest).
      * destruct Hlow as (e & -> & Hevent & Hoff).
        destruct (IH [] state' _ _ Hoff Hrest) as [Hlater Hfinal].
        cbn [fst snd app]. split; [constructor; assumption | exact Hfinal].
Qed.

Lemma episodes_quiet (quiet rest : list visit) :
  (forall v, In v quiet -> visit_risk v < 30) ->
  episodes (quiet ++ rest) [] = episodes rest [].
Proof.
  induction quiet as [| v quiet IH]; intros Hquiet; [reflexivity |].
  cbn [app episodes].
  replace (30 <=? visit_risk v) with false
    by (symmetry; apply Z.leb_gt, Hquiet; left; reflexivity).
  apply IH. intros x Hx. apply Hquiet. right; exact Hx.
Qed.

Lemma episodes_burst (burst rest : list visit) :
  (forall v, In v burst -> 30 <= visit_risk v) ->
  forall current, episodes (burst ++ rest) current = episodes rest (current ++ burst).
Proof.
  induction burst as [| v burst IH]; intros Hburst current.
  - rewrite app_nil_r. reflexivity.
  - cbn [app episodes].
    replace (30 <=? visit_risk v) with true
      by (symmetry; apply Z.leb_le, Hburst; left; reflexivity).
    rewrite IH by (intros x Hx; apply Hburst; right; exact Hx).
    rewrite <- app_assoc. reflexivity.
Qed.

(** What [episodes] computes: values below 30 are passed over, and a run of
    values at 30 or above is one episode, ended by the first value below 30
    or still under way at the end. *)
Lemma episodes_spec (quiet burst : list visit) :
  (forall v, In v quiet -> visit_risk v < 30) ->
  (forall v, In v burst -> 30 <= visit_risk v) ->
  episodes (quiet ++ burst) [] = ([], burst)
  /\ forall (drop : visit) (rest : list visit),
       burst <> [] -> visit_risk drop < 30 ->
       episodes (quiet ++ burst ++ drop :: rest) []
       = (burst :: fst (episodes rest []), snd (episodes rest [])).
Proof.
  intros Hquiet Hburst. split.
  - rewrite (episodes_quiet quiet burst Hquiet).
    rewrite <- (app_nil_r burst) at 1.
    rewrite (episodes_burst burst [] Hburst []). reflexivity.
  - intros drop rest Hne Hdrop.
    rewrite (episodes_quiet quiet _ Hquiet), (episodes_burst burst _ Hburst []).
    cbn [app episodes].
    replace (30 <=? visit_risk drop) with false by (symmetry; apply Z.leb_gt; exact Hdrop).
    destruct burst as [| b bs]; [contradiction | reflexivity].
Qed.

(** The events of a factor over a whole video: one for each run of values
    at 30 or above, in order, each with the first highest value of its own
    run; the loop emits those of the runs that a value below 30 ends, the
    flush that of the run still under way at the end of the video. *)
Lemma episodes_events (fps : float) (factor : string) (frames : list (dict Z * dict R)) :
  clock_ok fps (Z.of_nat (List.length frames)) ->
  exists (loop_states : dict FactorState) (loop_events events : list RiskEvent),
    detect_frames fps frames 0 [] [] = Some (loop_states, loop_events)
    /\ flush fps loop_states loop_events = Some events
    /\ detect_events fps frames = Some events
    /\ Forall2 (burst_event fps factor) (fst (episodes (visits factor frames 0) []))
         (filter (of_factor factor) loop_events)
    /\ tracks factor (snd (episodes (visits factor frames 0) []))
         (state_of loop_states factor)
    /\ match snd (episodes (visits factor frames 0) []) with
       | [] => filter (of_factor factor) events = filter (of_factor factor) loop_events
       | v :: open =>
           exists e : RiskEvent,
             burst_event fps factor (v :: open) e
             /\ filter (of_factor factor) events
                = filter (of_factor factor) loop_events ++ [e]
       end.
Proof.
  intros Hclock.
  destruct (detect_events_total fps frames Hclock)
    as (states & loop_events & events & Hloop & Hflush & Hevents & Hok & Hnd).
  exists states, loop_events, events.
  split; [exact Hloop | split; [exact Hflush | split; [exact Hevents |]]].
  destruct (detect_frames_run fps factor _ _ _ _ _ _ Hloop) as (emitted & Hrun & Hfilter).
  change (state_of [] factor) with initial_state in Hrun.
  cbn [filter app] in Hfilter.
  destruct (run_episodes fps factor _ [] initial_state _ _ eq_refl Hrun)
    as [Hclosed Hopen].
  rewrite Hfilter. split; [exact Hclosed |]. split; [exact Hopen |].
  pose proof (flush_factor fps factor _ _ _ Hnd Hflush) as Hflushed.
  rewrite Hfilter in Hflushed.
  destruct (snd (episodes (visits factor frames 0) [])) as [| v open] eqn:Hlast.
  - cbn [tracks] in Hopen. rewrite Hopen in Hflushed. cbn [andb] in Hflushed.
    rewrite app_nil_r in Hflushed. exact Hflushed.
  - destruct Hopen as (Hactive & peak & Hpeak & Hrisk & Hframe & Hangle).
    assert (30 <= peak_risk (state_of states factor)) as Hhigh.
    { pose proof (state_of_ok _ states factor Hok Hactive). lia. }
    rewrite Hactive in Hflushed.
    replace (30 <=? peak_risk (state_of states factor)) with true in Hflushed
      by (symmetry; apply Z.leb_le; exact Hhigh).
    destruct (make_event_total fps factor (state_of states factor)) as (e & Hevent).
    { apply Hclock. pose proof (state_of_ok _ states factor Hok Hactive). lia. }
    rewrite Hevent in Hflushed. cbn [andb] in Hflushed.
    exists e. split; [| exact Hflushed].
    destruct (make_event_fields _ _ _ _ Hevent) as (Hts & Hf & Hr & Hp & Hs & Hd & Ha).
    exists peak. rewrite <- Hrisk, <- Hframe, <- Hangle.
    repeat split; assumption.
Qed.

Lemma clock_ok_1 : clock_ok 1 4.
Proof.
  intros k Hk.
  assert (Hcases : k = 1 \/ k = 2 \/ k = 3 \/ k = 4) by lia.
  destruct Hcases as [-> | [-> | [-> | ->]]]; vm_compute; discriminate.
Qed.

(** C2: seen from any one factor, with a frame clock that gives a timestamp
    to every frame, the loop and the flush behave as follows on every video.
    The values of the factor are cut into their episodes, the maximal runs
    of values at 30 or above ([episodes]): the factor is activated at the
    first value of each run, also when it has been active before.  The loop
    emits exactly one event of the factor for each run that a value below 30
    ends, in order, and each event carries the highest value of its own run
    and the frame of its first occurrence; after the loop the state of the
    factor is inactive when no run is under way, and else holds the highest
    value so far of the run under way with its frame; the flush adds exactly
    one event, with that value, for a run still under way at the end of the
    video, and nothing else.  As this holds of every video, it holds of
    every prefix of one: the event of a run is absent as long as the run
    lasts and present from the first value below 30 on.  For one run
    between values below 30 the pipeline holds exactly one event of the
    factor, emitted by the step at the first value below 30; when the video
    ends within the run, the loop emits nothing for the factor and the
    flush that one event.  The values 0, 40, 55, 20, 0 of one factor give
    the single event of risk 55 at frame 3, absent after frame 3 and
    present after frame 4; the values 0, 40, 55 give it through the flush;
    the values 55, 0, 40, 0 give two events, of risks 55 and 40, and so do
    the values 55, 0, 40, the second one through the flush. *)
Theorem event_hysteresis (fps : float) (factor : string)
    (frames : list (dict Z * dict R)) (quiet burst calm : list visit) (drop : visit) :
  (clock_ok fps (Z.of_nat (List.length frames)) ->
   exists (loop_states : dict FactorState) (loop_events events : list RiskEvent),
     detect_frames fps frames 0 [] [] = Some (loop_states, loop_events)
     /\ flush fps loop_states loop_events = Some events
     /\ detect_events fps frames = Some events
     /\ Forall2 (burst_event fps factor) (fst (episodes (visits factor frames 0) []))
          (filter (of_factor factor) loop_events)
     /\ tracks factor (snd (episodes (visits factor frames 0) []))
          (state_of loop_states factor)
     /\ match snd (episodes (visits factor frames 0) []) with
        | [] => filter (of_factor factor) events = filter (of_factor factor) loop_events
        | v :: open =>
            exists e : RiskEvent,
              burst_event fps factor (v :: open) e
              /\ filter (of_factor factor) events
                 = filter (of_factor factor) loop_events ++ [e]
        end)
  /\ ((forall v, In v quiet -> visit_risk v < 30) ->
      (forall v, In v burst -> 30 <= visit_risk v) ->
      episodes (quiet ++ burst) [] = ([], burst)
      /\ forall (fall : visit) (rest : list visit),
           burst <> [] -> visit_risk fall < 30 ->
           episodes (quiet ++ burst ++ fall :: rest) []
           = (burst :: fst (episodes rest []), snd (episodes rest [])))
  /\ (clock_ok fps (Z.of_nat (List.length frames)) ->
   (forall v, In v quiet -> visit_risk v < 30) ->
   burst <> [] ->
   (forall v, In v burst -> 30 <= visit_risk v) ->
   visit_risk drop < 30 ->
   (forall v, In v calm -> visit_risk v < 30) ->
   visits factor frames 0 = quiet ++ burst ++ drop :: calm ->
   exists (events : list RiskEvent) (peak : visit) (e : RiskEvent)
          (held released : FactorState),
     detect_events fps frames = Some events
     /\ filter (of_factor factor) events = [e]
     /\ first_peak peak burst
     /\ risk e = visit_risk peak
     /\ frame e = visit_frame peak
     /\ frames_to_timestamp (visit_frame peak) fps = Some (timestamp e)
     /\ severity e = risk_severity (visit_risk peak)
     /\ part e = dict_get_default FACTOR_TO_PART factor factor
     /\ angle e = option_map round1 (detail_of (visit_details peak) factor)
     /\ run fps factor (quiet ++ burst) initial_state = Some (held, [])
     /\ active held = true
     /\ step fps factor drop held = Some (released, [e])
     /\ active released = false)
  /\ (clock_ok fps (Z.of_nat (List.length frames)) ->
      (forall v, In v quiet -> visit_risk v < 30) ->
      burst <> [] ->
      (forall v, In v burst -> 30 <= visit_risk v) ->
      visits factor frames 0 = quiet ++ burst ->
      exists (loop_states : dict FactorState) (loop_events events : list RiskEvent)
             (peak : visit) (e : RiskEvent),
        detect_frames fps frames 0 [] [] = Some (loop_states, loop_events)
        /\ filter (of_factor factor) loop_events = []
        /\ flush fps loop_states loop_events = Some events
        /\ detect_events fps frames = Some events
        /\ filter (of_factor factor) events = [e]
        /\ first_peak peak burst
        /\ risk e = visit_risk peak
        /\ frame e = visit_frame peak
        /\ frames_to_timestamp (visit_frame peak) fps = Some (timestamp e)
        /\ severity e = risk_severity (visit_risk peak)
        /\ angle e = option_map round1 (detail_of (visit_details peak) factor))
  /\ detect_events 30 (frames_of "L_ACL" [0; 40; 55; 20; 0]) = Some [hysteresis_event]
  /\ option_map snd (detect_frames 30 (frames_of "L_ACL" [0; 40; 55]) 0 [] []) = Some []
  /\ option_map snd (detect_frames 30 (frames_of "L_ACL" [0; 40; 55; 20]) 0 [] [])
     = Some [hysteresis_event]
  /\ detect_events 30 (frames_of "L_ACL" [0; 40; 55]) = Some [hysteresis_event]
  /\ episodes (visits "L_ACL" (frames_of "L_ACL" [55; 0; 40; 0]) 0) []
     = ([[(1, [], 55)]; [(3, [], 40)]], [])
  /\ option_map snd (detect_frames 1 (frames_of "L_ACL" [55; 0; 40; 0]) 0 [] [])
     = Some [first_burst_event; second_burst_event]
  /\ detect_events 1 (frames_of "L_ACL" [55; 0; 40; 0])
     = Some [first_burst_event; second_burst_event]
  /\ option_map snd (detect_frames 1 (frames_of "L_ACL" [55; 0; 40]) 0 [] [])
     = Some [first_burst_event]
  /\ detect_events 1 (frames_of "L_ACL" [55; 0; 40])
     = Some [first_burst_event; second_burst_event].
Proof.
  split; [exact (episodes_events fps factor frames) |].
  split; [exact (episodes_spec quiet burst) |].
  split; [| split].
  - intros Hclock Hquiet Hne Hburst Hdrop Hcalm Hvisits.
    destruct (detect_events_total fps frames Hclock)
      as (states & loop_events & events & Hloop & Hflush & Hevents & _ & Hnd).
    destruct (detect_frames_run fps factor _ _ _ _ _ _ Hloop) as (emitted & Hrun & Hfilter).
    rewrite Hvisits in Hrun. change (state_of [] factor) with initial_state in Hrun.
    destruct (run_episode fps factor quiet burst calm drop _ _
                Hquiet Hne Hburst Hdrop Hcalm Hrun)
      as (held & peak & e & Hheld & Hon & Hpeak & Hrisk & Hframe & Hangle & He
          & Hstep & Hoff & ->).
    pose proof (flush_factor fps factor _ _ _ Hnd Hflush) as Hflushed.
    rewrite Hoff, Hfilter in Hflushed. cbn [andb filter app] in Hflushed.
    destruct (make_event_fields _ _ _ _ He) as (Hts & Hf & Hr & Hp & Hs & _ & Ha).
    exists events, peak, e, held, (state_of states factor).
    rewrite <- Hframe, <- Hrisk, <- Hangle.
    repeat split; assumption.
  - intros Hclock Hquiet Hne Hburst Hvisits.
    destruct (detect_events_total fps frames Hclock)
      as (states & loop_events & events & Hloop & Hflush & Hevents & Hok & Hnd).
    destruct (detect_frames_run fps factor _ _ _ _ _ _ Hloop) as (emitted & Hrun & Hfilter).
    rewrite Hvisits in Hrun. change (state_of [] factor) with initial_state in Hrun.
    destruct (run_burst fps factor burst initial_state eq_refl Hne Hburst)
      as (held & peak & Hheld & Hpeak & Hon & Hrisk & Hframe & Hangle).
    rewrite run_app, (run_quiet fps factor quiet initial_state eq_refl Hquiet), Hheld in Hrun.
    injection Hrun as Hstate <-. cbn [filter app] in Hfilter.
    pose proof (flush_factor fps factor _ _ _ Hnd Hflush) as Hflushed.
    rewrite <- Hstate, Hon, Hfilter in Hflushed.
    assert (Hhigh : 30 <= peak_risk held).
    { rewrite Hrisk. apply Hburst.
      destruct Hpeak as (before & after & -> & _). apply in_or_app. right; left; reflexivity. }
    replace (30 <=? peak_risk held) with true in Hflushed
      by (symmetry; apply Z.leb_le; exact Hhigh).
    assert (Hheld_ok : state_ok (Z.of_nat (List.length frames)) held).
    { rewrite Hstate. apply state_of_ok. exact Hok. }
    destruct (make_event_total fps factor held) as (e & He).
    { apply Hclock. specialize (Hheld_ok Hon). lia. }
    rewrite He in Hflushed. cbn [andb app] in Hflushed.
    destruct (make_event_fields _ _ _ _ He) as (Hts & Hf & Hr & Hp & Hs & _ & Ha).
    exists states, loop_events, events, peak, e.
    rewrite <- Hframe, <- Hrisk, <- Hangle.
    repeat split; assumption.
  - repeat split; vm_compute; reflexivity.
Qed.

(** The witness of [event_hysteresis]: the left knee over four frames at
    one frame per second, activated twice. *)
Lemma event_hysteresis_witness :
  exists (loop_states : dict FactorState) (loop_events events : list RiskEvent),
    detect_frames 1 (frames_of "L_ACL" [55; 0; 40; 0]) 0 [] [] = Some (loop_states, loop_events)
    /\ flush 1 loop_states loop_events = Some events
    /\ detect_events 1 (frames_of "L_ACL" [55; 0; 40; 0]) = Some events
    /\ Forall2 (burst_event 1 "L_ACL")
         (fst (episodes (visits "L_ACL" (frames_of "L_ACL" [55; 0; 40; 0]) 0) []))
         (filter (of_factor "L_ACL") loop_events)
    /\ tracks "L_ACL" (snd (episodes (visits "L_ACL" (frames_of "L_ACL" [55; 0; 40; 0]) 0) []))
         (state_of loop_states "L_ACL")
    /\ match snd (episodes (visits "L_ACL" (frames_of "L_ACL" [55; 0; 40; 0]) 0) []) with
       | [] => filter (of_factor "L_ACL") events = filter (of_factor "L_ACL") loop_events
       | v :: open =>
           exists e : RiskEvent,
             burst_event 1 "L_ACL" (v :: open) e
             /\ filter (of_factor "L_ACL") events
                = filter (of_factor "L_ACL") loop_events ++ [e]
       end.
Proof.
  apply (proj1 (event_hysteresis 1 "L_ACL" (frames_of "L_ACL" [55; 0; 40; 0])
                  [] [(1, [], 55)] [] (2, [], 0))).
  exact clock_ok_1.
Defined.

(** The witness of [emitted_events_never_low]: the same video. *)
Lemma emitted_events_never_low_witness : Forall never_low [hysteresis_event].
Proof.
  apply (proj1 (emitted_events_never_low 30 (frames_of "L_ACL" [0; 40; 55; 20; 0])
                  [hysteresis_event] ltac:(vm_compute; reflexivity))).
Defined.

(** ** Samples of the helpers *)

Example frames_to_timestamp_samples :
  frames_to_timestamp 150 30 = Some "0:05"%string
  /\ frames_to_timestamp 1830 30 = Some "1:01"%string.
Proof. split; vm_compute; reflexivity. Qed.

Example risk_severity_boundaries :
  map risk_severity [29; 30; 59; 60; 79; 80]
  = ["LOW"; "MEDIUM"; "MEDIUM"; "HIGH"; "HIGH"; "CRITICAL"]%string.
Proof. reflexivity. Qed.

Example console_trunk_alone : Console.composite [("Trunk"%string, 75)] = Some 75.
Proof. vm_compute. reflexivity. Qed.

(** * Further properties of the code *)

(** ** Geometry of the angle helpers *)

Lemma dot_comm (u v : point) : dot u v = dot v u.
Proof. unfold dot; ring. Qed.

(** X1: The angle at B does not depend on which of the two arms is named
    first, and it lies between 0 and 180 degrees. *)
Theorem calculate_angle_symmetric (a b c : point) :
  calculate_angle a b c = calculate_angle c b a
  /\ (0 <= calculate_angle a b c <= 180)%R.
Proof.
  split.
  - unfold calculate_angle.
    rewrite (orb_comm (Reqb (norm (sub a b)) 0)).
    rewrite (dot_comm (sub a b)), (Rmult_comm (norm (sub a b))). reflexivity.
  - apply calculate_angle_range.
Qed.

Lemma atan2_abs_mirror (dx dy : R) :
  Rabs (atan2 (- dx) dy) = Rabs (atan2 dx dy).
Proof.
  unfold atan2.
  replace (- dx / dy)%R with (- (dx / dy))%R by (unfold Rdiv; ring).
  rewrite atan_opp.
  destruct (Rlt_dec 0 dy) as [Hp | Hp].
  { apply Rabs_Ropp. }
  destruct (Rlt_dec dy 0) as [Hn | Hn].
  - destruct (Rle_dec 0 (- dx)) as [H1 | H1]; destruct (Rle_dec 0 dx) as [H2 | H2].
    + assert (dx = 0%R) by lra; subst dx.
      unfold Rdiv; rewrite Rmult_0_l, atan_0, Ropp_0. reflexivity.
    + replace (- atan (dx / dy) + PI)%R with (- (atan (dx / dy) - PI))%R by ring.
      apply Rabs_Ropp.
    + replace (- atan (dx / dy) - PI)%R with (- (atan (dx / dy) + PI))%R by ring.
      apply Rabs_Ropp.
    + lra.
  - destruct (Rlt_dec 0 (- dx)) as [H1 | H1]; destruct (Rlt_dec 0 dx) as [H2 | H2];
      try lra.
    + destruct (Rlt_dec dx 0); [| lra]. rewrite Rabs_Ropp. reflexivity.
    + destruct (Rlt_dec (- dx) 0); [| lra]. rewrite Rabs_Ropp. reflexivity.
    + destruct (Rlt_dec (- dx) 0); destruct (Rlt_dec dx 0); try lra; reflexivity.
Qed.

Lemma atan2_abs_bound (dx dy : R) : (Rabs (atan2 dx dy) <= PI)%R.
Proof.
  pose proof PI_RGT_0 as Hpi.
  unfold atan2.
  destruct (Rlt_dec 0 dy) as [Hp | Hp].
  { pose proof (atan_bound (dx / dy)). apply Rabs_le. lra. }
  destruct (Rlt_dec dy 0) as [Hn | Hn].
  - destruct (Rle_dec 0 dx) as [H1 | H1].
    + assert (dx / dy <= 0)%R as Hq.
      { unfold Rdiv. assert (/ dy < 0)%R by (apply Rinv_lt_0_compat; exact Hn). nra. }
      assert (atan (dx / dy) <= 0)%R as Hat.
      { destruct Hq as [Hq | Hq].
        - apply atan_increasing in Hq. rewrite atan_0 in Hq. lra.
        - rewrite Hq, atan_0. lra. }
      pose proof (atan_bound (dx / dy)). apply Rabs_le. lra.
    + assert (0 < dx / dy)%R as Hq.
      { unfold Rdiv. assert (/ dy < 0)%R by (apply Rinv_lt_0_compat; exact Hn). nra. }
      apply atan_increasing in Hq. rewrite atan_0 in Hq.
      pose proof (atan_bound (dx / dy)). apply Rabs_le. lra.
  - destruct (Rlt_dec 0 dx); [apply Rabs_le; lra |].
    destruct (Rlt_dec dx 0); apply Rabs_le; lra.
Qed.

Lemma degrees_abs (x : R) : Rabs (degrees x) = degrees (Rabs x).
Proof.
  pose proof PI_RGT_0 as Hpi.
  unfold degrees. rewrite Rabs_mult. f_equal.
  apply Rabs_pos_eq. apply Rlt_le, Rdiv_lt_0_compat; lra.
Qed.

(** X2: The lean of the torso lies between 0 and 180 degrees and is the same for
    a torso and its mirror image.  A torso whose shoulders and hips are at
    the same height has lean 0, like an upright one; one whose hips are
    straight above the shoulders has lean 180. *)
Theorem trunk_lean_angle_spec (shoulder_mid hip_mid : point) :
  (0 <= trunk_lean_angle shoulder_mid hip_mid <= 180)%R
  /\ trunk_lean_angle (- fst shoulder_mid, snd shoulder_mid)%R
                      (- fst hip_mid, snd hip_mid)%R
     = trunk_lean_angle shoulder_mid hip_mid
  /\ (snd hip_mid = snd shoulder_mid -> trunk_lean_angle shoulder_mid hip_mid = 0%R)
  /\ (fst hip_mid = fst shoulder_mid -> (snd shoulder_mid < snd hip_mid)%R ->
      trunk_lean_angle shoulder_mid hip_mid = 0%R)
  /\ (fst hip_mid = fst shoulder_mid -> (snd hip_mid < snd shoulder_mid)%R ->
      trunk_lean_angle shoulder_mid hip_mid = 180%R).
Proof.
  pose proof PI_RGT_0 as Hpi.
  destruct shoulder_mid as [sx sy], hip_mid as [hx hy]. cbn [fst snd].
  split; [| split; [| split; [| split]]].
  - unfold trunk_lean_angle; cbn [fst snd].
    destruct (Reqb (hy - sy) 0); [lra |].
    rewrite degrees_abs. split.
    + unfold degrees. apply Rmult_le_pos; [apply Rabs_pos |].
      apply Rlt_le, Rdiv_lt_0_compat; lra.
    + rewrite <- degrees_PI. unfold degrees.
      apply Rmult_le_compat_r; [apply Rlt_le, Rdiv_lt_0_compat; lra |].
      apply atan2_abs_bound.
  - unfold trunk_lean_angle; cbn [fst snd].
    destruct (Reqb (hy - sy) 0); [reflexivity |].
    replace (- hx - - sx)%R with (- (hx - sx))%R by ring.
    rewrite !degrees_abs, atan2_abs_mirror. reflexivity.
  - intros ->. unfold trunk_lean_angle; cbn [fst snd].
    rewrite (proj2 (Reqb_true (sy - sy) 0)) by ring. reflexivity.
  - intros -> Hlt. apply trunk_lean_level. exact Hlt.
  - intros -> Hlt. unfold trunk_lean_angle; cbn [fst snd].
    rewrite (proj2 (Reqb_false (hy - sy) 0)) by lra.
    unfold atan2.
    destruct (Rlt_dec 0 (hy - sy)); [lra |].
    destruct (Rlt_dec (hy - sy) 0); [| lra].
    destruct (Rle_dec 0 (sx - sx)); [| lra].
    replace ((sx - sx) / (hy - sy))%R with 0%R by (unfold Rdiv; ring).
    rewrite atan_0, Rplus_0_l, degrees_PI. apply Rabs_pos_eq. lra.
Qed.

Lemma trunk_lean_angle_spec_witness :
  trunk_lean_angle (150, 100)%R (150, 300)%R = 0%R.
Proof.
  apply (proj1 (proj2 (proj2 (proj2 (trunk_lean_angle_spec (150, 100)%R (150, 300)%R)))));
    cbn [fst snd]; [reflexivity | lra].
Defined.

(** ** The threshold ladders *)

(** X3: The knee and hip risks never grow with the joint angle, and the trunk,
    asymmetry and ankle risks never shrink with the lean, the height
    difference and the ankle angle.  A value that sits on a threshold takes
    the milder level in every ladder. *)
Theorem risk_ladders_monotone (x y : R) :
  (x <= y)%R ->
  acl_risk y <= acl_risk x
  /\ hip_risk y <= hip_risk x
  /\ trunk_risk x <= trunk_risk y
  /\ asym_risk x <= asym_risk y
  /\ ankle_risk x <= ankle_risk y
  /\ map acl_risk [120; 140; 160]%R = [60; 30; 0]
  /\ map hip_risk [100; 130; 150]%R = [45; 20; 0]
  /\ map trunk_risk [15; 25; 35]%R = [0; 25; 50]
  /\ map asym_risk [15; 25; 40]%R = [0; 20; 40]
  /\ map ankle_risk [110; 120]%R = [0; 30].
Proof.
  intros Hxy.
  repeat match goal with |- _ /\ _ => split end.
  1-5: unfold acl_risk, hip_risk, trunk_risk, asym_risk, ankle_risk, Rgtb, Rltb;
       repeat match goal with |- context [Rlt_dec ?a ?b] => destruct (Rlt_dec a b) end;
       first [lia | exfalso; lra].
  all: cbn [map]; unfold acl_risk, hip_risk, trunk_risk, asym_risk, ankle_risk;
       real_test; reflexivity.
Qed.

Lemma risk_ladders_monotone_witness :
  acl_risk 150 <= acl_risk 130
  /\ hip_risk 150 <= hip_risk 130
  /\ trunk_risk 130 <= trunk_risk 150
  /\ asym_risk 130 <= asym_risk 150
  /\ ankle_risk 130 <= ankle_risk 150
  /\ map acl_risk [120; 140; 160]%R = [60; 30; 0]
  /\ map hip_risk [100; 130; 150]%R = [45; 20; 0]
  /\ map trunk_risk [15; 25; 35]%R = [0; 25; 50]
  /\ map asym_risk [15; 25; 40]%R = [0; 20; 40]
  /\ map ankle_risk [110; 120]%R = [0; 30].
Proof.
  apply (risk_ladders_monotone 130 150). lra.
Defined.

(** ** The factors of a pose *)

Lemma kp_usable (person_kp : nat -> point) (person_conf : nat -> R) (idx : nat) :
  kp person_kp person_conf idx
  = if usable person_kp person_conf idx then Some (person_kp idx) else None.
Proof. reflexivity. Qed.

Lemma usable_spec (person_kp : nat -> point) (person_conf : nat -> R) (idx : nat) :
  usable person_kp person_conf idx = true
  <-> (1 / 2 < person_conf idx)%R /\ (0 < fst (person_kp idx))%R
      /\ (0 < snd (person_kp idx))%R.
Proof.
  unfold usable, is_visible, Rgtb, CONF_THRESH.
  rewrite !andb_true_iff, !Rltb_true. split; intros H; repeat split; lra.
Qed.

(** X4: A factor is in [risks] exactly when each keypoint it is computed from is
    usable: detected with a confidence above 0.5 and with both coordinates
    positive. *)
Theorem factor_presence (person_kp : nat -> point) (person_conf : nat -> R) :
  let risks := fst (risk_factors person_kp person_conf) in
  let ok := usable person_kp person_conf in
  dict_mem risks "L_ACL" = ok 11%nat && ok 13%nat && ok 15%nat
  /\ dict_mem risks "R_ACL" = ok 12%nat && ok 14%nat && ok 16%nat
  /\ dict_mem risks "L_Hip" = ok 5%nat && ok 11%nat && ok 13%nat
  /\ dict_mem risks "R_Hip" = ok 6%nat && ok 12%nat && ok 14%nat
  /\ dict_mem risks "Trunk" = ok 5%nat && ok 6%nat && ok 11%nat && ok 12%nat
  /\ dict_mem risks "Shoulder_Asym" = ok 5%nat && ok 6%nat
  /\ dict_mem risks "Hip_Asym" = ok 11%nat && ok 12%nat
  /\ dict_mem risks "L_Ankle" = ok 13%nat && ok 15%nat
  /\ dict_mem risks "R_Ankle" = ok 14%nat && ok 16%nat
  /\ (forall idx : nat,
        ok idx = true
        <-> (1 / 2 < person_conf idx)%R /\ (0 < fst (person_kp idx))%R
            /\ (0 < snd (person_kp idx))%R)
  /\ (forall k : string, dict_mem risks k = true -> In k (dict_keys weights)).
Proof.
  intros risks ok. subst risks ok.
  rewrite risk_factors_table. unfold factor_table.
  rewrite !kp_usable.
  repeat match goal with |- _ /\ _ => split end.
  1-9: destruct (usable person_kp person_conf 5), (usable person_kp person_conf 6),
         (usable person_kp person_conf 11), (usable person_kp person_conf 12),
         (usable person_kp person_conf 13), (usable person_kp person_conf 14),
         (usable person_kp person_conf 15), (usable person_kp person_conf 16);
       reflexivity.
  - intros idx. apply usable_spec.
  - intros k Hk.
    generalize dependent Hk.
    match goal with
    | |- dict_mem (List.concat (map _ ?table)) k = true -> _ =>
        assert (forall (t : list (string * option Z)) (key : string),
                  dict_mem (List.concat (map (fun kv => entry (fst kv) (snd kv)) t)) key = true ->
                  In key (map fst t)) as Hgen
    end.
    { induction t as [| [key' [v |]] t IH]; intros key; unfold dict_mem in *; cbn.
      - discriminate.
      - destruct (String.eqb_spec key' key); [intros _; left; assumption |].
        intros H; right; apply IH; exact H.
      - intros H; right; apply IH; exact H. }
    intros Hk. apply Hgen in Hk. exact Hk.
Qed.

Lemma entries_forall (P : string * Z -> Prop) (table : list (string * option Z)) :
  Forall (fun kv => match snd kv with Some v => P (fst kv, v) | None => True end) table ->
  Forall P (List.concat (map (fun kv => entry (fst kv) (snd kv)) table)).
Proof.
  induction 1 as [| [k [v |]] t Hkv _ IH]; cbn.
  - constructor.
  - constructor; assumption.
  - assumption.
Qed.

Lemma risk_factors_keys (person_kp : nat -> point) (person_conf : nat -> R) :
  let risks := fst (risk_factors person_kp person_conf) in
  dict_keys risks = filter (dict_mem risks) (dict_keys weights).
Proof.
  cbv zeta. rewrite risk_factors_table.
  destruct (factor_table_levels person_kp person_conf)
    as (o1 & o2 & o3 & o4 & o5 & o6 & o7 & o8 & o9 & -> & _).
  destruct o1, o2, o3, o4, o5, o6, o7, o8, o9; reflexivity.
Qed.

(** X5: The [risks] of a pose list each factor at most once, in the order of the
    weight table, and give each factor one of its own risk levels, from 0 to
    90. *)
Theorem risk_factors_well_formed (person_kp : nat -> point) (person_conf : nat -> R) :
  let risks := fst (risk_factors person_kp person_conf) in
  dict_keys risks = filter (dict_mem risks) (dict_keys weights)
  /\ NoDup (dict_keys risks)
  /\ Forall (fun kr => exists levels,
                 dict_get factor_levels (fst kr) = Some levels
                 /\ In (snd kr) levels /\ 0 <= snd kr <= 90) risks.
Proof.
  intros risks.
  pose proof (risk_factors_keys person_kp person_conf) as Hkeys. fold risks in Hkeys.
  split; [exact Hkeys | split].
  - rewrite Hkeys. apply NoDup_filter.
    repeat (constructor; [cbn; intuition discriminate |]). constructor.
  - subst risks. rewrite risk_factors_table.
    destruct (factor_table_levels person_kp person_conf)
      as (o1 & o2 & o3 & o4 & o5 & o6 & o7 & o8 & o9 & -> & Hlevels).
    apply entries_forall.
    repeat match goal with
    | H : Forall2 level_ok (_ :: _) _ |- _ => inversion H; subst; clear H
    | H : Forall2 level_ok [] _ |- _ => clear H
    end.
    repeat (constructor;
            [ match goal with
              | |- match snd (_, ?o) with _ => _ end =>
                  destruct o as [v |]; cbn [snd fst]; [| exact I];
                  match goal with
                  | H : level_ok (Some v) _ |- _ =>
                      cbn in H; eexists; split; [reflexivity |];
                      split; [cbn; tauto | intuition lia]
                  end
              end |]).
    constructor.
Qed.

(** X6: A shin that stands straight above the ankle always scores the higher
    ankle level, 60: the angle to the point 30 pixels under the ankle is
    180 degrees. *)
Theorem vertical_shin_ankle_risk (person_kp : nat -> point) (person_conf : nat -> R)
    (knee ankle : point) :
  kp person_kp person_conf 13 = Some knee ->
  kp person_kp person_conf 15 = Some ankle ->
  fst knee = fst ankle -> (snd knee < snd ankle)%R ->
  dict_get (fst (risk_factors person_kp person_conf)) "L_Ankle" = Some 60.
Proof.
  intros Hknee Hankle Hx Hy.
  rewrite risk_factors_table. unfold factor_table.
  rewrite Hknee, Hankle.
  rewrite (calculate_angle_vertical knee ankle); cbn [fst snd]; try lra.
  replace (ankle_risk 180) with 60 by (unfold ankle_risk; real_test; reflexivity).
  destruct (kp person_kp person_conf 5), (kp person_kp person_conf 6),
    (kp person_kp person_conf 11), (kp person_kp person_conf 12),
    (kp person_kp person_conf 14), (kp person_kp person_conf 16); reflexivity.
Qed.

Lemma vertical_shin_ankle_risk_witness :
  dict_get (fst (risk_factors standing_kp standing_conf)) "L_Ankle" = Some 60.
Proof.
  apply (vertical_shin_ankle_risk standing_kp standing_conf (100, 400)%R (100, 500)%R).
  - apply (standing_usable 13). cbn; tauto.
  - apply (standing_usable 15). cbn; tauto.
  - reflexivity.
  - cbn [snd]. lra.
Defined.

(** ** Floats between small integers *)

Lemma digits2_pos_bounds (m : positive) :
  2 ^ (Z.pos (digits2_pos m) - 1) <= Z.pos m < 2 ^ Z.pos (digits2_pos m).
Proof.
  induction m as [m IH | m IH |]; cbn [digits2_pos].
  - rewrite Pos2Z.inj_succ, (Pos2Z.inj_xI m).
    replace (Z.succ (Z.pos (digits2_pos m)) - 1) with (Z.succ (Z.pos (digits2_pos m) - 1))
      by lia.
    rewrite !Z.pow_succ_r by lia.
    destruct IH as [Hlo Hhi]. revert Hlo Hhi.
    generalize (2 ^ (Z.pos (digits2_pos m) - 1)), (2 ^ Z.pos (digits2_pos m)).
    intros low high Hlo Hhi. split; lia.
  - rewrite Pos2Z.inj_succ, (Pos2Z.inj_xO m).
    replace (Z.succ (Z.pos (digits2_pos m)) - 1) with (Z.succ (Z.pos (digits2_pos m) - 1))
      by lia.
    rewrite !Z.pow_succ_r by lia.
    destruct IH as [Hlo Hhi]. revert Hlo Hhi.
    generalize (2 ^ (Z.pos (digits2_pos m) - 1)), (2 ^ Z.pos (digits2_pos m)).
    intros low high Hlo Hhi. split; lia.
  - cbn. lia.
Qed.

Lemma bounded_spec (m : positive) (e : Z) :
  bounded prec emax m e = true ->
  -1074 <= e /\ Z.pos m < 2 ^ 53 /\ (-1074 < e -> 2 ^ 52 <= Z.pos m).
Proof.
  unfold bounded, canonical_mantissa, fexp, emin, prec, emax.
  intros H. apply andb_prop in H as [H _]. apply Z.eqb_eq in H.
  pose proof (digits2_pos_bounds m) as [Hlo Hhi].
  set (d := Z.pos (digits2_pos m)) in *.
  assert (0 < d) by (subst d; lia).
  destruct (Z.le_gt_cases (3 - 1024 - 53) (d + e - 53)) as [Hnormal | Hsub].
  - rewrite Z.max_l in H by exact Hnormal.
    assert (d = 53) as Hd by lia. rewrite Hd in Hlo, Hhi.
    change (53 - 1) with 52 in Hlo. lia.
  - rewrite Z.max_r in H by lia.
    assert (d <= 52) as Hd by lia.
    pose proof (Z.pow_le_mono_r 2 d 52 ltac:(lia) Hd).
    assert (2 ^ 52 < 2 ^ 53) by (apply Z.pow_lt_mono_r; lia).
    lia.
Qed.

Lemma SFcompare_scaled (m1 : positive) (e1 : Z) (m2 : positive) (e2 : Z) :
  bounded prec emax m1 e1 = true -> bounded prec emax m2 e2 = true ->
  SFcompare (S754_finite false m1 e1) (S754_finite false m2 e2)
  = Some (scaled m1 e1 ?= scaled m2 e2).
Proof.
  intros H1 H2.
  apply bounded_spec in H1 as (He1 & Hm1 & Hn1).
  apply bounded_spec in H2 as (He2 & Hm2 & Hn2).
  assert (2 ^ 53 = 2 * 2 ^ 52) as H53 by reflexivity.
  cbn [SFcompare]. unfold scaled. f_equal.
  destruct (Z.compare_spec e1 e2) as [-> | Hlt | Hgt].
  - rewrite <- Zmult_compare_compat_r by (apply Z.lt_gt, Z.pow_pos_nonneg; lia).
    reflexivity.
  - symmetry. apply Z.compare_lt_iff.
    assert (0 < 2 ^ (e1 + 1074)) as Hp by (apply Z.pow_pos_nonneg; lia).
    assert (2 * 2 ^ (e1 + 1074) <= 2 ^ (e2 + 1074)) as Hpow.
    { rewrite <- Z.pow_succ_r by lia. apply Z.pow_le_mono_r; lia. }
    specialize (Hn2 ltac:(lia)). nia.
  - symmetry. apply Z.compare_gt_iff.
    assert (0 < 2 ^ (e2 + 1074)) as Hp by (apply Z.pow_pos_nonneg; lia).
    assert (2 * 2 ^ (e2 + 1074) <= 2 ^ (e1 + 1074)) as Hpow.
    { rewrite <- Z.pow_succ_r by lia. apply Z.pow_le_mono_r; lia. }
    specialize (Hn1 ltac:(lia)). nia.
Qed.

Lemma int_of_float_scaled (c : float) (m : positive) (e : Z) (z : Z) :
  Prim2SF c = S754_finite false m e -> -1074 <= e ->
  int_of_float c = Some z -> z = scaled m e / 2 ^ 1074.
Proof.
  intros Hc He. unfold int_of_float. rewrite Hc. intros Hz.
  assert (z = if 0 <=? e then Z.pos m * 2 ^ e else Z.pos m / 2 ^ (- e)) as ->
    by congruence.
  unfold scaled. destruct (0 <=? e) eqn:Hsign.
  - apply Z.leb_le in Hsign. rewrite Z.pow_add_r by lia.
    rewrite Z.mul_assoc. symmetry. apply Z_div_mult. apply Z.lt_gt, Z.pow_pos_nonneg; lia.
  - apply Z.leb_gt in Hsign.
    replace (2 ^ 1074) with (2 ^ (- e) * 2 ^ (e + 1074))
      by (rewrite <- Z.pow_add_r by lia; f_equal; lia).
    symmetry. apply Z.div_mul_cancel_r; apply Z.pow_nonzero; lia.
Qed.

Lemma small_floats : forallb small_float_ok (map Z.of_nat (seq 1 91)) = true.
Proof. vm_compute. reflexivity. Qed.

Lemma small_float_spec (n : Z) :
  1 <= n <= 91 ->
  exists (m : positive) (e : Z),
    Prim2SF (float_of_Z n) = S754_finite false m e
    /\ bounded prec emax m e = true /\ scaled m e = n * 2 ^ 1074.
Proof.
  intros Hn. pose proof small_floats as Hall. rewrite forallb_forall in Hall.
  specialize (Hall n). unfold small_float_ok in Hall.
  destruct (Prim2SF (float_of_Z n)) as [s | s | | [|] m e];
    try (discriminate Hall;
         [rewrite <- (Z2Nat.id n) by lia; apply in_map, in_seq; lia]).
  exists m, e. split; [reflexivity |].
  apply andb_prop in Hall as [Hb Hs];
    [| rewrite <- (Z2Nat.id n) by lia; apply in_map, in_seq; lia].
  apply Z.eqb_eq in Hs. split; assumption.
Qed.

(** A float between the floats of two small integers truncates to an
    integer between them. *)
Lemma int_of_float_between (a b : Z) (c : float) (z : Z) :
  0 <= a -> a < b <= 91 ->
  (float_of_Z a <=? c)%float = true -> (c <? float_of_Z b)%float = true ->
  int_of_float c = Some z -> a <= z < b.
Proof.
  intros Ha Hb. rewrite leb_spec, ltb_spec. intros Hlo Hhi Hz.
  destruct (small_float_spec b ltac:(lia)) as (mb & eb & Hfb & Hbb & Hsb).
  rewrite Hfb in Hhi.
  pose proof (Prim2SF_valid c) as Hvalid.
  assert (0 < 2 ^ 1074) as Hunit by (apply Z.pow_pos_nonneg; lia).
  destruct (Prim2SF c) as [s | s | | s m e] eqn:Hc.
  - unfold int_of_float in Hz. rewrite Hc in Hz. injection Hz as <-.
    split; [| lia].
    destruct (Z.eq_dec a 0) as [-> | Hpos]; [lia |].
    destruct (small_float_spec a ltac:(lia)) as (ma & ea & Hfa & _).
    rewrite Hfa in Hlo. discriminate Hlo.
  - unfold int_of_float in Hz. rewrite Hc in Hz. discriminate Hz.
  - discriminate Hhi.
  - cbn [valid_binary] in Hvalid.
    destruct s.
    { destruct (Z.eq_dec a 0) as [-> | Hpos]; [discriminate Hlo |].
      destruct (small_float_spec a ltac:(lia)) as (ma & ea & Hfa & _).
      rewrite Hfa in Hlo. discriminate Hlo. }
    pose proof (bounded_spec _ _ Hvalid) as (He & _).
    rewrite (int_of_float_scaled c m e z Hc He Hz).
    unfold SFltb in Hhi. rewrite (SFcompare_scaled _ _ _ _ Hvalid Hbb), Hsb in Hhi.
    split.
    + destruct (Z.eq_dec a 0) as [-> | Hpos].
      * apply Z.div_pos; [unfold scaled | exact Hunit].
        apply Z.mul_nonneg_nonneg; [lia | apply Z.pow_nonneg; lia].
      * destruct (small_float_spec a ltac:(lia)) as (ma & ea & Hfa & Hba & Hsa).
        rewrite Hfa in Hlo. unfold SFleb in Hlo.
        rewrite (SFcompare_scaled _ _ _ _ Hba Hvalid), Hsa in Hlo.
        apply Z.div_le_lower_bound; [exact Hunit |].
        destruct (Z.compare_spec (a * 2 ^ 1074) (scaled m e)); [lia | lia | discriminate Hlo].
    + apply Z.div_lt_upper_bound; [exact Hunit |].
      destruct (Z.compare_spec (scaled m e) (b * 2 ^ 1074)); [discriminate Hhi | lia |
        discriminate Hhi].
Qed.

(** ** The composite against exact arithmetic *)

Lemma all_sums_sound (check : sums -> bool) :
  forall (levels : list ((float * Z) * list Z)) (acc : sums),
    all_sums check levels acc = true ->
    forall picks : list (option Z),
      Forall2 pick_ok picks levels ->
      check (fold_left add_risk
               (List.concat (map (fun p => picked (fst (snd p)) (fst p))
                               (combine picks levels))) acc) = true.
Proof.
  induction levels as [| [w values] rest IH]; intros acc Hall picks Hpicks.
  - inversion Hpicks; subst. exact Hall.
  - inversion Hpicks as [| pick level picks' levels' Hpick Hrest]; subst.
    cbn [all_sums] in Hall. apply andb_true_iff in Hall as [Hskip Htake].
    cbn [combine map List.concat fst snd].
    destruct pick as [v |]; cbn [picked].
    + rewrite forallb_forall in Htake.
      specialize (Htake v Hpick).
      cbn [app fold_left]. apply IH; assumption.
    + cbn [app]. apply IH; assumption.
Qed.

Lemma fold_add_risk (ws : list (Z * (float * Z))) :
  forall fsum ftot num den,
    fold_left add_risk ws (fsum, ftot, num, den)
    = (fold_left PrimFloat.add
         (map (fun rw => float_of_Z (fst rw) * snd rw)%float
            (map (fun x => (fst x, fst (snd x))) ws)) fsum,
       fold_left PrimFloat.add (map snd (map (fun x => (fst x, fst (snd x))) ws)) ftot,
       fold_left Z.add (map (fun x => fst x * snd (snd x)) ws) num,
       fold_left Z.add (map (fun x => snd (snd x)) ws) den).
Proof.
  induction ws as [| x ws IH]; intros; [reflexivity |].
  cbn [fold_left map add_risk fst snd]. apply IH.
Qed.

(** The exhaustive check: 1 250 000 combinations of present factors and
    levels. *)
Lemma all_composites_near_exact :
  all_sums composite_near_exact percent_levels (0%float, 0%float, 0, 0) = true.
Proof. vm_cast_no_check (@eq_refl bool true). Qed.
Lemma picks_table (o1 o2 o3 o4 o5 o6 o7 o8 o9 : option Z) :
  let risks :=
    List.concat (map (fun kv => entry (fst kv) (snd kv))
       [ ("L_ACL", o1); ("R_ACL", o2); ("L_Hip", o3); ("R_Hip", o4); ("Trunk", o5);
         ("Shoulder_Asym", o6); ("Hip_Asym", o7); ("L_Ankle", o8); ("R_Ankle", o9) ]) in
  let ws :=
    List.concat (map (fun p => picked (fst (snd p)) (fst p))
                   (combine [o1; o2; o3; o4; o5; o6; o7; o8; o9] percent_levels)) in
  weighted weights risks = map (fun x => (fst x, fst (snd x))) ws
  /\ map (fun kr => snd kr * percent_of (fst kr)) risks = map (fun x => fst x * snd (snd x)) ws
  /\ map (fun kr => percent_of (fst kr)) risks = map (fun x => snd (snd x)) ws
  /\ Forall (fun x => 0 < snd (snd x)) ws.
Proof.
  destruct o1, o2, o3, o4, o5, o6, o7, o8, o9;
    (split; [reflexivity | split; [reflexivity | split; [reflexivity |]]]);
    repeat (constructor; [reflexivity |]); constructor.
Qed.

Lemma pick_ok_levels (picks : list (option Z)) :
  Forall2 level_ok picks weighted_levels -> Forall2 pick_ok picks percent_levels.
Proof.
  intros H.
  unfold weighted_levels, risk_levels in H. cbn [combine map snd weights] in H.
  unfold percent_levels, risk_levels. cbn [combine map snd weights percent].
  repeat match goal with
  | H : Forall2 level_ok _ (_ :: _) |- _ => inversion H; subst; clear H
  | H : Forall2 level_ok _ [] |- _ => inversion H; subst; clear H
  end.
  repeat (constructor; [assumption |]). constructor.
Qed.

Lemma fold_add_pos (l : list Z) :
  Forall (fun x => 0 < x) l -> forall acc, 0 <= acc -> l <> [] -> 0 < fold_left Z.add l acc.
Proof.
  induction 1 as [| x l Hx Hl IH]; intros acc Hacc Hne; [congruence |].
  cbn [fold_left]. destruct l as [| y l'].
  - cbn. lia.
  - apply IH; [lia | discriminate].
Qed.

(** The composite of any choice of levels for the factors present. *)
Lemma composite_of_levels (o1 o2 o3 o4 o5 o6 o7 o8 o9 : option Z) :
  Forall2 level_ok [o1; o2; o3; o4; o5; o6; o7; o8; o9] weighted_levels ->
  let risks :=
    List.concat (map (fun kv => entry (fst kv) (snd kv))
       [ ("L_ACL", o1); ("R_ACL", o2); ("L_Hip", o3); ("R_Hip", o4); ("Trunk", o5);
         ("Shoulder_Asym", o6); ("Hip_Asym", o7); ("L_Ankle", o8); ("R_Ankle", o9) ]) in
  exists composite : Z,
    composite_score risks = Some composite
    /\ exact_composite risks - 1 <= composite <= exact_composite risks
    /\ 0 <= composite <= 90.
Proof.
  intros Hlevels risks.
  pose proof (all_choices_sound composite_in_range weighted_levels []
                all_composites_in_range _ Hlevels) as Hrange.
  pose proof (all_sums_sound composite_near_exact percent_levels _
                all_composites_near_exact _ (pick_ok_levels _ Hlevels)) as Hcheck.
  destruct (picks_table o1 o2 o3 o4 o5 o6 o7 o8 o9) as (Hfl & Hnum & Hden & Hpos).
  fold risks in Hfl, Hnum, Hden.
  assert (Hws : weighted weights risks
                = List.concat (map (fun p => weighted_entry (fst (snd p)) (fst p))
                     (combine [o1; o2; o3; o4; o5; o6; o7; o8; o9] weighted_levels))).
  { subst risks. rewrite weighted_table. reflexivity. }
  cbn [app] in Hrange. rewrite <- Hws in Hrange. clear Hws.
  set (ws := List.concat (map _ (combine _ percent_levels))) in *. clearbody ws.
  rewrite fold_add_risk in Hcheck. rewrite <- Hfl in Hcheck.
  unfold exact_composite, sum_Z. rewrite Hnum, Hden.
  unfold composite_score.
  destruct (weighted weights risks) as [| rw rest] eqn:Hweighted.
  - symmetry in Hfl. apply map_eq_nil in Hfl. subst ws.
    exists 0. cbn. repeat split; lia.
  - unfold composite_in_range in Hrange.
    apply andb_prop in Hrange as [Hrange Hhi].
    apply andb_prop in Hrange as [Htotal Hlo].
    unfold total_weight, weighted_sum in Htotal, Hlo, Hhi.
    rewrite Htotal.
    destruct (int_of_float_in_range _ Hlo Hhi) as (q & Hq & _).
    rewrite Hq. cbn [option_map].
    unfold composite_near_exact in Hcheck. unfold sum_float in Hq.
    assert (0 < fold_left Z.add (map (fun x => snd (snd x)) ws) 0) as Hden_pos.
    { apply fold_add_pos; [apply Forall_map; exact Hpos | lia |].
      intros Hnil. apply map_eq_nil in Hnil. subst ws. discriminate Hfl. }
    destruct (fold_left Z.add (map (fun x => snd (snd x)) ws) 0 =? 0) eqn:Hzero;
      [apply Z.eqb_eq in Hzero; lia |].
    cbn [orb] in Hcheck. cbv zeta in Hcheck.
    apply andb_true_iff in Hcheck as [Hcheck Hbelow].
    apply andb_true_iff in Hcheck as [Hcheck Habove].
    apply andb_true_iff in Hcheck as [Hq0 Hq90].
    apply Z.leb_le in Hq0, Hq90.
    set (mean := fold_left Z.add (map (fun x => fst x * snd (snd x)) ws) 0
                 / fold_left Z.add (map (fun x => snd (snd x)) ws) 0) in *.
    assert (Z.max (mean - 1) 0 <= q < mean + 1) as Hbetween.
    { eapply int_of_float_between; [| | exact Habove | exact Hbelow | exact Hq]; lia. }
    exists (Z.min q 100). split; [reflexivity | lia].
Qed.

(** X7: The composite of a pose is the weighted mean of its risks computed in
    exact arithmetic and rounded down, or one less than that, the floats
    falling short of a whole number in some cases.  It never exceeds 90, so
    that the cap at 100 has no effect. *)
Theorem composite_score_near_exact (person_kp : nat -> point) (person_conf : nat -> R) :
  let risks := fst (risk_factors person_kp person_conf) in
  (exists composite : Z,
     composite_score risks = Some composite
     /\ exact_composite risks - 1 <= composite <= exact_composite risks
     /\ 0 <= composite <= 90)
  /\ composite_score [("L_Ankle", 30); ("R_Ankle", 60)] = Some 44
  /\ exact_composite [("L_Ankle", 30); ("R_Ankle", 60)] = 45.
Proof.
  intros risks. split; [| split; [vm_compute; reflexivity | reflexivity]].
  subst risks. rewrite risk_factors_table.
  destruct (factor_table_levels person_kp person_conf)
    as (o1 & o2 & o3 & o4 & o5 & o6 & o7 & o8 & o9 & -> & Hlevels).
  exact (composite_of_levels _ _ _ _ _ _ _ _ _ Hlevels).
Qed.

Lemma pose_composite_bounds (person_kp : nat -> point) (person_conf : nat -> R) :
  exists composite : Z,
    composite_score (fst (risk_factors person_kp person_conf)) = Some composite
    /\ 0 <= composite <= 90.
Proof.
  rewrite risk_factors_table.
  destruct (factor_table_levels person_kp person_conf)
    as (o1 & o2 & o3 & o4 & o5 & o6 & o7 & o8 & o9 & -> & Hlevels).
  destruct (composite_of_levels _ _ _ _ _ _ _ _ _ Hlevels) as (c & Hc & _ & Hrange).
  exists c. split; assumption.
Qed.

Lemma console_threshold (conf_thresh : R) (person_kp : nat -> point)
    (person_conf : nat -> R) :
  Console.risk_factors conf_thresh person_kp person_conf
  = Console.risk_factors CONF_THRESH person_kp
      (fun idx => person_conf idx - conf_thresh + 5 / 10)%R.
Proof.
  assert (forall idx,
            Console.kp conf_thresh person_kp person_conf idx
            = Console.kp CONF_THRESH person_kp
                (fun idx => person_conf idx - conf_thresh + 5 / 10)%R idx) as Hkp.
  { intros idx. unfold Console.kp, CONF_THRESH, Rgtb.
    replace (Rltb (5 / 10) (person_conf idx - conf_thresh + 5 / 10))
      with (Rltb conf_thresh (person_conf idx)); [reflexivity |].
    unfold Rltb.
    destruct (Rlt_dec conf_thresh (person_conf idx)),
      (Rlt_dec (5 / 10) (person_conf idx - conf_thresh + 5 / 10));
      try reflexivity; lra. }
  unfold Console.risk_factors. cbv zeta. rewrite !Hkp. reflexivity.
Qed.

Lemma console_composite_levels (person_kp : nat -> point) (person_conf : nat -> R) :
  let risks := Console.risk_factors CONF_THRESH person_kp person_conf in
  exists comp : Z,
    Console.composite risks = Some comp
    /\ exact_composite risks - 1 <= comp <= exact_composite risks
    /\ 0 <= comp <= 90.
Proof.
  intros risks.
  assert (forallb (fun kr => dict_mem Console.weights (fst kr)) risks = true) as Hshared.
  { subst risks. rewrite console_risk_factors_table.
    destruct (factor_table_levels person_kp person_conf)
      as (o1 & o2 & o3 & o4 & o5 & o6 & o7 & o8 & o9 & -> & _).
    destruct o1, o2, o3, o4, o5; reflexivity. }
  rewrite (console_composite_eq _ Hshared).
  subst risks. rewrite console_risk_factors_table.
  destruct (factor_table_levels person_kp person_conf)
    as (o1 & o2 & o3 & o4 & o5 & o6 & o7 & o8 & o9 & -> & Hlevels).
  assert (Forall2 level_ok [o1; o2; o3; o4; o5; None; None; None; None] weighted_levels)
    as Hfive.
  { unfold weighted_levels, risk_levels in *. cbn [combine map snd weights] in *.
    repeat match goal with
    | H : Forall2 level_ok (_ :: _) _ |- _ => inversion H; subst; clear H
    end.
    repeat (constructor; [first [assumption | exact I] |]). constructor. }
  exact (composite_of_levels _ _ _ _ _ _ _ _ _ Hfive).
Qed.

(** X8: At every setting of its confidence threshold, the console's composite
    of a pose is in the same way the exact weighted mean of its five factors
    rounded down, or one less, and at most 90; the console's loop body never
    fails. *)
Theorem console_composite_near_exact (conf_thresh : R) (person_kp : nat -> point)
    (person_conf : nat -> R) :
  let risks := Console.risk_factors conf_thresh person_kp person_conf in
  exists comp : Z,
    Console.analyze_pose conf_thresh person_kp person_conf = Some (risks, comp)
    /\ exact_composite risks - 1 <= comp <= exact_composite risks
    /\ 0 <= comp <= 90.
Proof.
  intros risks. unfold Console.analyze_pose. fold risks.
  subst risks. rewrite console_threshold.
  destruct (console_composite_levels person_kp
              (fun idx => person_conf idx - conf_thresh + 5 / 10)%R)
    as (comp & Hcomp & Hnear & Hrange).
  exists comp. rewrite Hcomp. split; [reflexivity | split; assumption].
Qed.

Lemma console_pose_bounds (conf_thresh : R) (person_kp : nat -> point)
    (person_conf : nat -> R) :
  exists comp : Z,
    Console.composite (Console.risk_factors conf_thresh person_kp person_conf) = Some comp
    /\ 0 <= comp <= 90.
Proof.
  rewrite console_threshold.
  destruct (console_composite_levels person_kp
              (fun idx => person_conf idx - conf_thresh + 5 / 10)%R)
    as (comp & Hcomp & _ & Hrange).
  exists comp. split; assumption.
Qed.

(** ** Severity bands and the frame clock *)

(** X9: The four bands of a score are cut at 30, 60 and 80, below 0 and above
    100 included.  The colour drawn on the video names the band, the console
    uses the same colours, and its labels are those of the backend but for
    the second band, MODERATE for MEDIUM. *)
Theorem severity_bands (s t : Z) :
  (risk_severity s = "LOW"%string <-> s < 30)
  /\ (risk_severity s = "MEDIUM"%string <-> 30 <= s < 60)
  /\ (risk_severity s = "HIGH"%string <-> 60 <= s < 80)
  /\ (risk_severity s = "CRITICAL"%string <-> 80 <= s)
  /\ (risk_color_bgr s = risk_color_bgr t <-> risk_severity s = risk_severity t)
  /\ Console.risk_bgr s = risk_color_bgr s
  /\ (Console.risk_hex s = Console.risk_hex t <-> risk_severity s = risk_severity t)
  /\ (Console.risk_label s = Console.risk_label t <-> risk_severity s = risk_severity t)
  /\ (Console.risk_label s
      = if String.eqb (risk_severity s) "MEDIUM" then "MODERATE"%string
        else risk_severity s).
Proof.
  unfold risk_severity, risk_color_bgr, Console.risk_bgr, Console.risk_hex,
    Console.risk_label.
  destruct (Z.ltb_spec s 30), (Z.ltb_spec s 60), (Z.ltb_spec s 80); try lia;
    destruct (t <? 30), (t <? 60), (t <? 80);
    repeat match goal with |- _ /\ _ => split end;
    try reflexivity;
    split; intros Hband; try lia; try reflexivity; discriminate Hband.
Qed.

Lemma int_of_float_nonneg (c : float) (z : Z) :
  (0 <=? c)%float = true -> int_of_float c = Some z -> 0 <= z.
Proof.
  rewrite leb_spec. unfold int_of_float.
  change (Prim2SF 0) with (S754_zero false).
  destruct (Prim2SF c) as [s | s | | s m e]; intros Hlo Hz; try discriminate.
  - injection Hz as <-. lia.
  - destruct s; [discriminate Hlo |].
    assert (z = if 0 <=? e then Z.pos m * 2 ^ e else Z.pos m / 2 ^ (- e)) as ->
      by congruence.
    destruct (0 <=? e) eqn:He.
    + apply Z.mul_nonneg_nonneg; [lia |]. apply Z.pow_nonneg; lia.
    + apply Z.div_pos; [lia |]. apply Z.pow_pos_nonneg; lia.
Qed.

Lemma pad2_length (secs : Z) : 0 <= secs < 60 -> String.length (pad2 secs) = 2%nat.
Proof.
  intros Hsecs.
  assert (forallb (fun n => Nat.eqb (String.length (pad2 (Z.of_nat n))) 2) (seq 0 60) = true)
    as Hall by (vm_compute; reflexivity).
  rewrite forallb_forall in Hall.
  specialize (Hall (Z.to_nat secs)).
  rewrite Z2Nat.id in Hall by lia.
  apply Nat.eqb_eq, Hall, in_seq. lia.
Qed.

(** Within its range the clock answers: a float from 0 up to [2^53] is
    finite, and [int] does not raise on it. *)
Lemma clock_total (seconds : float) :
  (0 <=? seconds)%float = true ->
  (seconds <? 9007199254740992)%float = true ->
  exists whole : Z,
    int_of_float seconds = Some whole
    /\ 0 <= whole
    /\ clock seconds = Some (str_of_Z (whole / 60) ++ ":" ++ pad2 (whole mod 60))%string.
Proof.
  intros Hlo Hhi.
  assert (exists whole : Z, int_of_float seconds = Some whole) as (whole & Hwhole).
  { revert Hlo Hhi. rewrite leb_spec, ltb_spec. unfold int_of_float.
    destruct (Prim2SF seconds) as [s | s | | s m e]; intros Hlo Hhi.
    - eexists; reflexivity.
    - destruct s; [discriminate Hlo | discriminate Hhi].
    - discriminate Hlo.
    - eexists; reflexivity. }
  exists whole. split; [exact Hwhole |].
  split; [exact (int_of_float_nonneg _ _ Hlo Hwhole) |].
  unfold clock. rewrite Hlo, Hhi, Hwhole. reflexivity.
Qed.

(** X10: For a frame number of magnitude below [2^63], a frame rate other than
    zero and a quotient [frame / fps] from 0 up to [2^53], the range on
    which [clock] follows the code, [frames_to_timestamp] returns a text:
    the whole minutes, a colon and the seconds below 60 written with two
    digits, of the whole seconds elapsed at the frame.  A frame rate of zero
    gives no timestamp: the division raises.  Frame 1830 at 30 frames per
    second is at 1:01, frame 45 at 0:01. *)
Theorem frames_to_timestamp_format (frame : Z) (fps : float) :
  let seconds := (float_of_Z frame / fps)%float in
  ((fps =? 0)%float = true -> frames_to_timestamp frame fps = None)
  /\ (- 2 ^ 63 < frame < 2 ^ 63 ->
      (fps =? 0)%float = false ->
      (0 <=? seconds)%float = true ->
      (seconds <? 9007199254740992)%float = true ->
      exists mins secs : Z,
        frames_to_timestamp frame fps = Some (str_of_Z mins ++ ":" ++ pad2 secs)%string
        /\ 0 <= mins /\ 0 <= secs < 60
        /\ String.length (pad2 secs) = 2%nat
        /\ int_of_float seconds = Some (60 * mins + secs))
  /\ frames_to_timestamp 1830 30 = Some "1:01"%string
  /\ frames_to_timestamp 45 30 = Some "0:01"%string
  /\ frames_to_timestamp 1830 0 = None.
Proof.
  cbv zeta. split; [| split; [| repeat split; vm_compute; reflexivity]].
  - intros Hzero. unfold frames_to_timestamp. rewrite Hzero. reflexivity.
  - intros _ Hfps Hlo Hhi.
    destruct (clock_total _ Hlo Hhi) as (whole & Hwhole & Hnonneg & Hclock).
    pose proof (Z.mod_pos_bound whole 60 ltac:(lia)) as Hmod.
    exists (whole / 60), (whole mod 60).
    split; [unfold frames_to_timestamp; rewrite Hfps; exact Hclock |].
    split; [apply Z.div_pos; lia |].
    split; [exact Hmod |].
    split; [apply pad2_length; exact Hmod |].
    rewrite Hwhole. f_equal. apply Z.div_mod. lia.
Qed.

Lemma frames_to_timestamp_format_witness :
  exists mins secs : Z,
    frames_to_timestamp 1830 30 = Some (str_of_Z mins ++ ":" ++ pad2 secs)%string
    /\ 0 <= mins /\ 0 <= secs < 60
    /\ String.length (pad2 secs) = 2%nat
    /\ int_of_float (float_of_Z 1830 / 30) = Some (60 * mins + secs).
Proof.
  apply (proj1 (proj2 (frames_to_timestamp_format 1830 30))).
  - lia.
  - vm_compute. reflexivity.
  - vm_compute. reflexivity.
  - vm_compute. reflexivity.
Defined.

(** ** Events of one factor *)

Lemma factor_events (fps : float) (f : string) (frames : list (dict Z * dict R))
    (events : list RiskEvent) :
  detect_events fps frames = Some events ->
  exists (final : FactorState) (emitted : list RiskEvent),
    run fps f (visits f frames 0) initial_state = Some (final, emitted)
    /\ filter (of_factor f) events
       = emitted ++ (if active final && (30 <=? peak_risk final)
                     then match make_event fps f final with
                          | Some e => [e]
                          | None => []
                          end
                     else []).
Proof.
  unfold detect_events.
  destruct (detect_frames fps frames 0 [] []) as [[states loop_events] |] eqn:Hloop;
    [| discriminate].
  intros Hflush.
  destruct (detect_frames_run fps f _ _ _ _ _ _ Hloop) as (emitted & Hrun & Hfilter).
  destruct (detect_frames_states_ok fps frames 0 [] [] states loop_events (Z.le_refl 0)
              (Forall_nil _) (NoDup_nil _) Hloop) as [_ Hnodup].
  exists (state_of states f), emitted. split; [exact Hrun |].
  rewrite (flush_factor fps f _ _ _ Hnodup Hflush), Hfilter. reflexivity.
Qed.

(** X11: A factor whose risk stays below 30 in every frame leaves no event, in
    the loop or in the final flush: the levels 20 and 25 never show in the
    report. *)
Theorem quiet_factor_no_event (fps : float) (f : string)
    (frames : list (dict Z * dict R)) (events : list RiskEvent) :
  (forall v, In v (visits f frames 0) -> visit_risk v < 30) ->
  detect_events fps frames = Some events ->
  filter (of_factor f) events = [].
Proof.
  intros Hquiet Hevents.
  destruct (factor_events fps f frames events Hevents) as (final & emitted & Hrun & ->).
  rewrite (run_quiet fps f _ initial_state eq_refl Hquiet) in Hrun.
  injection Hrun as <- <-. reflexivity.
Qed.

Lemma quiet_factor_no_event_witness :
  filter (of_factor "Trunk") [hysteresis_event] = [].
Proof.
  apply (quiet_factor_no_event 30 "Trunk"
           [ ([("L_ACL", 0); ("Trunk", 25)], []); ([("L_ACL", 40); ("Trunk", 25)], []);
             ([("L_ACL", 55); ("Trunk", 0)], []) ]).
  - intros v Hv. cbn in Hv.
    repeat (destruct Hv as [<- | Hv]; [cbn; lia |]). destruct Hv.
  - vm_compute. reflexivity.
Defined.

(** X12: The events of a factor depend on the values of that factor alone: two
    videos in which a factor takes the same values in the same frames, with
    the same angles, give the same events for it, whatever the other
    factors do. *)
Theorem factor_events_independent (fps : float) (f : string)
    (frames frames' : list (dict Z * dict R)) (events events' : list RiskEvent) :
  visits f frames 0 = visits f frames' 0 ->
  detect_events fps frames = Some events ->
  detect_events fps frames' = Some events' ->
  filter (of_factor f) events = filter (of_factor f) events'.
Proof.
  intros Hsame Hevents Hevents'.
  destruct (factor_events fps f frames events Hevents) as (final & emitted & Hrun & ->).
  destruct (factor_events fps f frames' events' Hevents')
    as (final' & emitted' & Hrun' & ->).
  rewrite Hsame, Hrun' in Hrun. injection Hrun as <- <-. reflexivity.
Qed.

Lemma factor_events_independent_witness :
  filter (of_factor "L_ACL") [hysteresis_event]
  = filter (of_factor "L_ACL") [hysteresis_event].
Proof.
  apply (factor_events_independent 30 "L_ACL"
           [ ([("L_ACL", 0); ("Trunk", 25)], []); ([("L_ACL", 40); ("Trunk", 25)], []);
             ([("L_ACL", 55); ("Trunk", 0)], []) ]
           (frames_of "L_ACL" [0; 40; 55])).
  - reflexivity.
  - vm_compute. reflexivity.
  - vm_compute. reflexivity.
Defined.

(** ** The persons of a frame *)

Lemma last_cons {A : Type} (l : list A) : forall a d : A, last (a :: l) d = last l a.
Proof.
  induction l as [| b l IH]; intros a d; [reflexivity |].
  change (last (a :: b :: l) d) with (last (b :: l) d).
  rewrite (IH b d), (IH b a). reflexivity.
Qed.

Lemma analyze_person_pose (p : person) :
  analyze_person (fst p) (snd p)
  = Some (fst (pose_risks p), pose_composite p, snd (pose_risks p))
  /\ 0 <= pose_composite p <= 90.
Proof.
  unfold analyze_person, pose_composite, pose_risks.
  destruct (pose_composite_bounds (fst p) (snd p)) as (c & Hc & Hrange).
  destruct (risk_factors (fst p) (snd p)) as [risks details].
  cbn [fst snd] in *. rewrite Hc. split; [reflexivity | exact Hrange].
Qed.

Lemma analyze_frame_fold (persons : list person) :
  forall (frame_max_risk : Z) (frame_risks_all : dict Z) (frame_details_all : dict R),
    analyze_frame persons frame_max_risk frame_risks_all frame_details_all
    = Some (fold_left Z.max (map pose_composite persons) frame_max_risk,
            fst (last (map pose_risks persons) (frame_risks_all, frame_details_all)),
            snd (last (map pose_risks persons) (frame_risks_all, frame_details_all))).
Proof.
  induction persons as [| p rest IH]; intros m r d; [reflexivity |].
  destruct p as [person_kp person_conf].
  cbn [analyze_frame].
  destruct (analyze_person_pose (person_kp, person_conf)) as [Hpose _].
  cbn [fst snd] in Hpose. rewrite Hpose, IH.
  cbn [map fold_left]. rewrite last_cons.
  destruct (pose_risks (person_kp, person_conf)); reflexivity.
Qed.

Lemma nobody_risks : pose_risks nobody = ([], []).
Proof.
  unfold pose_risks, nobody, risk_factors, kp, CONF_THRESH; cbn [fst snd].
  real_test. reflexivity.
Qed.

(** X13: The loop over the persons of a frame always completes.  The score of
    the frame is the highest composite among the persons, while the factors
    and the angles that feed the event detection are those of the person
    detected last, whatever that person's composite: a person standing
    straight followed by a detection without usable keypoints gives the
    frame the score 4 and no factor at all. *)
Theorem analyze_frame_spec (persons : list person)
    (frame_max_risk : Z) (frame_risks_all : dict Z) (frame_details_all : dict R) :
  analyze_frame persons frame_max_risk frame_risks_all frame_details_all
  = Some (fold_left Z.max (map pose_composite persons) frame_max_risk,
          fst (last (map pose_risks persons) (frame_risks_all, frame_details_all)),
          snd (last (map pose_risks persons) (frame_risks_all, frame_details_all)))
  /\ Forall (fun p => 0 <= pose_composite p <= 90) persons
  /\ analyze_frame [(standing_kp, standing_conf); nobody] 0 [] [] = Some (4, [], []).
Proof.
  split; [apply analyze_frame_fold | split].
  - apply Forall_forall. intros p _. apply analyze_person_pose.
  - rewrite analyze_frame_fold. cbn [map last fold_left].
    rewrite nobody_risks.
    unfold pose_composite. rewrite nobody_risks. cbn [fst].
    unfold pose_risks; cbn [fst snd]. rewrite standing_backend.
    vm_compute. reflexivity.
Qed.

(** ** The persons of a frame in the console *)

Lemma console_analyze_pose (conf_thresh : R) (p : person) :
  Console.analyze_pose conf_thresh (fst p) (snd p)
  = Some (console_risks conf_thresh p, console_composite conf_thresh p)
  /\ 0 <= console_composite conf_thresh p <= 90.
Proof.
  unfold Console.analyze_pose, console_composite, console_risks.
  destruct (console_pose_bounds conf_thresh (fst p) (snd p)) as (c & Hc & Hrange).
  rewrite Hc. split; [reflexivity | exact Hrange].
Qed.

Lemma analyze_persons_spec (conf_thresh : R) (persons : list person) :
  forall (max_risk : Z) (max_risks : dict Z),
    exists (m : Z) (r : dict Z),
      Console.analyze_persons conf_thresh persons max_risk max_risks = Some (m, r)
      /\ m = fold_left Z.max (map (console_composite conf_thresh) persons) max_risk
      /\ ((m = max_risk /\ r = max_risks)
          \/ (max_risk < m
              /\ exists (before : list person) (p : person) (after : list person),
                   persons = before ++ p :: after
                   /\ console_composite conf_thresh p = m
                   /\ r = console_risks conf_thresh p
                   /\ forall x, In x before -> console_composite conf_thresh x < m)).
Proof.
  induction persons as [| p rest IH]; intros m0 r0.
  - exists m0, r0. split; [reflexivity | split; [reflexivity | left; split; reflexivity]].
  - destruct p as [pkp pconf]. cbn [Console.analyze_persons].
    destruct (console_analyze_pose conf_thresh (pkp, pconf)) as [Hpose _].
    cbn [fst snd] in Hpose. rewrite Hpose. cbn [map fold_left].
    set (c := console_composite conf_thresh (pkp, pconf)).
    destruct (m0 <? c) eqn:Hlt.
    + apply Z.ltb_lt in Hlt.
      destruct (IH c (console_risks conf_thresh (pkp, pconf)))
        as (m & r & Hrun & Hmax & Hcase).
      exists m, r. split; [exact Hrun |].
      split; [rewrite Z.max_r by lia; exact Hmax |].
      right. destruct Hcase as [[-> ->] | (Hgt & before & q & after & -> & Hq & -> & Hbefore)].
      * split; [exact Hlt |].
        exists [], (pkp, pconf), rest. repeat split. intros x [].
      * split; [lia |].
        exists ((pkp, pconf) :: before), q, after. repeat split; [exact Hq |].
        intros x [<- | Hx]; [fold c; lia | apply Hbefore; exact Hx].
    + apply Z.ltb_ge in Hlt.
      destruct (IH m0 r0) as (m & r & Hrun & Hmax & Hcase).
      exists m, r. split; [exact Hrun |].
      split; [rewrite Z.max_l by lia; exact Hmax |].
      destruct Hcase as [[-> ->] | (Hgt & before & q & after & -> & Hq & -> & Hbefore)].
      * left. split; reflexivity.
      * right. split; [exact Hgt |].
        exists ((pkp, pconf) :: before), q, after. repeat split; [exact Hq |].
        intros x [<- | Hx]; [fold c; lia | apply Hbefore; exact Hx].
Qed.

(** X14: The console's analysis of a frame always completes.  Its score is the
    highest composite among the persons, 0 when there is none, and the
    risks it shows are those of the first person who reaches that score;
    when no composite is above 0 it shows no risks at all. *)
Theorem console_analyze_spec (conf_thresh : R) (persons : list person) :
  exists (m : Z) (r : dict Z),
    Console.analyze conf_thresh persons = Some (m, r)
    /\ m = fold_left Z.max (map (console_composite conf_thresh) persons) 0
    /\ 0 <= m <= 90
    /\ ((m = 0 /\ r = [])
        \/ (0 < m
            /\ exists (before : list person) (p : person) (after : list person),
                 persons = before ++ p :: after
                 /\ console_composite conf_thresh p = m
                 /\ r = console_risks conf_thresh p
                 /\ forall x, In x before -> console_composite conf_thresh x < m)).
Proof.
  destruct (analyze_persons_spec conf_thresh persons 0 []) as (m & r & Hrun & Hmax & Hcase).
  exists m, r. split; [exact Hrun | split; [exact Hmax | split; [| exact Hcase]]].
  destruct Hcase as [[-> _] | (Hgt & before & q & after & _ & <- & _)]; [lia |].
  apply console_analyze_pose.
Qed.

(** ** Deduplication, once more *)

Lemma insert_by_risk_head (e : RiskEvent) (l : list RiskEvent) :
  Forall (by_risk e) l -> insert_by_risk e l = e :: l.
Proof.
  destruct l as [| e' rest]; [reflexivity |].
  intros H. inversion H as [| ? ? Hhead _]; subst.
  cbn [insert_by_risk]. unfold by_risk in Hhead.
  destruct (- risk e <=? - risk e') eqn:Hle; [reflexivity |].
  apply Z.leb_gt in Hle. lia.
Qed.

Lemma sorted_by_risk_fixed (l : list RiskEvent) :
  StronglySorted by_risk l -> sorted_by_risk l = l.
Proof.
  induction 1 as [| e l Hsorted IH Hhead]; [reflexivity |].
  cbn [sorted_by_risk]. rewrite IH. apply insert_by_risk_head. exact Hhead.
Qed.

Lemma keep_first_fixed (l : list RiskEvent) :
  forall seen : list (string * string),
    NoDup (map event_key l) ->
    (forall e, In e l -> ~ In (event_key e) seen) ->
    keep_first seen l = l.
Proof.
  induction l as [| e l IH]; intros seen Hnodup Hfresh; [reflexivity |].
  cbn [keep_first].
  destruct (existsb (key_eqb (timestamp e, part e)) seen) eqn:Hseen.
  - apply seen_spec in Hseen. exfalso. apply (Hfresh e); [left; reflexivity | exact Hseen].
  - f_equal. inversion Hnodup as [| ? ? Hnotin Hrest]; subst.
    apply IH; [exact Hrest |].
    intros x Hx [Heq | Hin].
    + apply Hnotin. change (event_key e) with (timestamp e, part e). rewrite Heq.
      apply in_map. exact Hx.
    + apply (Hfresh x); [right; exact Hx | exact Hin].
Qed.

Lemma deduplicate_shape (l : list RiskEvent) :
  StronglySorted by_risk (deduplicate l) /\ NoDup (map event_key (deduplicate l)).
Proof.
  unfold deduplicate. split.
  - apply keep_first_sorted, sorted_by_risk_sorted.
  - apply keep_first_keys.
Qed.

Lemma keep_first_length (l : list RiskEvent) :
  forall seen, (List.length (keep_first seen l) <= List.length l)%nat.
Proof.
  induction l as [| e l IH]; intros seen; cbn [keep_first List.length]; [lia |].
  destruct (existsb (key_eqb (timestamp e, part e)) seen).
  - specialize (IH seen). lia.
  - specialize (IH ((timestamp e, part e) :: seen)). cbn [List.length]. lia.
Qed.

(** X15: Deduplicating twice changes nothing more: the list is already in
    descending order of risk with one event per timestamp and part.  It
    never grows, and an empty list stays empty. *)
Theorem deduplicate_idempotent (risk_events : list RiskEvent) :
  deduplicate (deduplicate risk_events) = deduplicate risk_events
  /\ (List.length (deduplicate risk_events) <= List.length risk_events)%nat
  /\ (deduplicate risk_events = [] <-> risk_events = []).
Proof.
  destruct (deduplicate_shape risk_events) as [Hsorted Hnodup].
  split; [| split].
  - unfold deduplicate at 1. rewrite (sorted_by_risk_fixed _ Hsorted).
    apply keep_first_fixed; [exact Hnodup | intros e _ []].
  - unfold deduplicate.
    rewrite <- (Permutation_length (sorted_by_risk_perm risk_events)).
    apply keep_first_length.
  - split; [| intros ->; reflexivity].
    intros Hempty. destruct risk_events as [| e rest]; [reflexivity |].
    exfalso.
    assert (In e (sorted_by_risk (e :: rest))) as Hin.
    { apply (Permutation_in e (Permutation_sym (sorted_by_risk_perm (e :: rest)))).
      left; reflexivity. }
    destruct (first_occurrence_exists _ _ Hin) as (e' & Hfirst & _).
    assert (In e' (deduplicate (e :: rest))) as Hkept.
    { unfold deduplicate. apply keep_first_spec. split; [exact Hfirst | intros []]. }
    rewrite Hempty in Hkept. destruct Hkept.
Qed.

(** ** The record of a processed video *)

Lemma frame_score_range (persons : list person) : 0 <= frame_score persons <= 90.
Proof.
  unfold frame_score.
  assert (forall (l : list Z) (a : Z),
            Forall (fun c => 0 <= c <= 90) l -> 0 <= a <= 90 ->
            0 <= fold_left Z.max l a <= 90) as Hfold.
  { induction l as [| c l IH]; intros a Hl Ha; [exact Ha |].
    inversion Hl; subst. cbn [fold_left]. apply IH; [assumption | lia]. }
  apply Hfold; [| lia].
  apply Forall_map, Forall_forall. intros p _. apply analyze_person_pose.
Qed.

Lemma process_frames_scores (fps : float) (frames : list (list person)) :
  forall (n : Z) (scores : list Z) (states : dict FactorState) (events : list RiskEvent)
         (n' : Z) (scores' : list Z) (states' : dict FactorState)
         (events' : list RiskEvent),
    process_frames fps frames n scores states events = Some (n', scores', states', events') ->
    n' = n + Z.of_nat (List.length frames)
    /\ scores' = scores ++ map frame_score frames.
Proof.
  induction frames as [| persons rest IH]; intros n scores states events n' scores' states' events'.
  - intros [= <- <- <- <-]. cbn. rewrite app_nil_r. split; [lia | reflexivity].
  - cbn [process_frames]. rewrite analyze_frame_fold.
    destruct (detect_frame fps (n + 1) _ _ states events) as [[states1 events1] |];
      [| discriminate].
    intros Hrest. apply IH in Hrest as [-> ->].
    unfold Py.append. rewrite <- app_assoc.
    cbn [List.length map app]. split; [lia | reflexivity].
Qed.

Lemma fold_left_max_highest (l : list Z) :
  forall a : Z, 0 <= a -> fold_left Z.max l a = Z.max a (highest l).
Proof.
  induction l as [| x l IH]; intros a Ha; cbn [fold_left highest fold_right].
  - lia.
  - rewrite IH by lia. fold (highest l). lia.
Qed.

Lemma firstn_sorted (n : nat) (l : list RiskEvent) :
  StronglySorted by_risk l -> StronglySorted by_risk (firstn n l).
Proof.
  intros Hsorted. revert n.
  induction Hsorted as [| e l Hsorted IH Hhead]; intros [| n]; cbn [firstn];
    try constructor.
  - apply IH.
  - apply Forall_forall. intros x Hx.
    rewrite Forall_forall in Hhead. apply Hhead.
    rewrite <- (firstn_skipn n l). apply in_or_app. left. exact Hx.
Qed.

Lemma firstn_nodup {A : Type} (n : nat) (l : list A) : NoDup l -> NoDup (firstn n l).
Proof.
  intros Hnodup. revert n.
  induction Hnodup as [| x l Hnotin Hnodup IH]; intros [| n]; cbn [firstn];
    try constructor.
  - intros Hin. apply Hnotin.
    rewrite <- (firstn_skipn n l). apply in_or_app. left. exact Hin.
  - apply IH.
Qed.

Lemma generate_suggestions_nonempty (events : list RiskEvent) (avg_risk : float) :
  generate_suggestions events avg_risk <> [].
Proof.
  unfold generate_suggestions. cbv zeta.
  match goal with
  | |- match ?x with [] => _ | _ :: _ => _ end <> [] => destruct x
  end; discriminate.
Qed.

(** X16: Whenever a video is processed to the end, the record stored has one
    timeline entry per frame read, the score of that frame, between 0 and
    90; its peak is the highest of them; its severity is the band of its
    overall risk, the truncated mean of the timeline; and it lists at most
    20 events, in descending order of risk, no two with the same timestamp
    and part, and at least one suggestion.  The video was opened, and the
    record carries the identifier and the sport it was given. *)
Theorem process_video_done (video_id : string) (opened : bool) (fps_raw : float)
    (total_frames : Z) (frames : list (list person)) (sport : string) (data : Completed) :
  process_video video_id opened fps_raw total_frames frames sport = Done data ->
  opened = true
  /\ videoId data = video_id /\ Backend.sport data = sport
  /\ playerName data = "Athlete"%string
  /\ totalFrames data = Z.of_nat (List.length frames)
  /\ riskTimeline data = map frame_score frames
  /\ Forall (fun s => 0 <= s <= 90) (riskTimeline data)
  /\ peakRisk data = highest (riskTimeline data)
  /\ int_of_float (mean (match riskTimeline data with
                         | [] => [0]
                         | _ :: _ => riskTimeline data
                         end)) = Some (overallRisk data)
  /\ overallSeverity data = risk_severity (overallRisk data)
  /\ (List.length (risks data) <= 20)%nat
  /\ StronglySorted by_risk (risks data)
  /\ NoDup (map event_key (risks data))
  /\ suggestions data <> [].
Proof.
  unfold process_video.
  destruct opened; cbn [negb]; [| discriminate].
  set (fps := if (fps_raw =? 0)%float then 30%float else fps_raw).
  destruct (process_frames fps frames 0 [] [] [])
    as [[[[frame_count all_risk_scores] factor_states] risk_events] |] eqn:Hloop;
    [| discriminate].
  destruct (flush fps factor_states risk_events) as [flushed |]; [| discriminate].
  destruct (process_frames_scores _ _ _ _ _ _ _ _ _ _ Hloop) as [-> Hscores].
  cbn [app] in Hscores. subst all_risk_scores.
  set (scores_arr := match map frame_score frames with
                     | [] => [0]
                     | _ :: _ => map frame_score frames
                     end).
  destruct (int_of_float (mean scores_arr)) as [overall_risk |] eqn:Hmean; [| discriminate].
  destruct (clock _) as [duration_str |]; [| discriminate].
  destruct (int_of_float fps) as [fps_int |]; [| discriminate].
  remember (firstn 20 (deduplicate flushed)) as listed eqn:Hlisted.
  remember (generate_suggestions (deduplicate flushed) (mean scores_arr)) as advice
    eqn:Hadvice.
  remember (fold_left Z.max (tl scores_arr) (hd 0 scores_arr)) as peak eqn:Hpeak.
  intros [= <-]. cbn [videoId Backend.sport playerName totalFrames riskTimeline peakRisk
                      overallRisk overallSeverity risks suggestions].
  subst listed advice peak.
  assert (Forall (fun s => 0 <= s <= 90) (map frame_score frames)) as Hrange.
  { apply Forall_map, Forall_forall. intros persons _. apply frame_score_range. }
  destruct (deduplicate_shape flushed) as [Hsorted Hnodup].
  split; [reflexivity |]. split; [reflexivity |]. split; [reflexivity |].
  split; [reflexivity |]. split; [lia |]. split; [reflexivity |].
  split; [exact Hrange |].
  split.
  { subst scores_arr. destruct (map frame_score frames) as [| s rest] eqn:Hmap.
    - reflexivity.
    - cbn [hd tl]. inversion Hrange; subst.
      rewrite fold_left_max_highest by lia. reflexivity. }
  split; [exact Hmean |]. split; [reflexivity |].
  split; [rewrite length_firstn; lia |].
  split; [apply firstn_sorted; exact Hsorted |].
  split; [rewrite <- firstn_map; apply firstn_nodup; exact Hnodup |].
  apply generate_suggestions_nonempty.
Qed.

Lemma process_video_done_witness :
  true = true
  /\ videoId quiet_video = "ab12cd34"%string /\ Backend.sport quiet_video = "general"%string
  /\ playerName quiet_video = "Athlete"%string
  /\ totalFrames quiet_video = Z.of_nat (List.length [[]; []] (A := list person))
  /\ riskTimeline quiet_video = map frame_score [[]; []]
  /\ Forall (fun s => 0 <= s <= 90) (riskTimeline quiet_video)
  /\ peakRisk quiet_video = highest (riskTimeline quiet_video)
  /\ int_of_float (mean (match riskTimeline quiet_video with
                         | [] => [0]
                         | _ :: _ => riskTimeline quiet_video
                         end)) = Some (overallRisk quiet_video)
  /\ overallSeverity quiet_video = risk_severity (overallRisk quiet_video)
  /\ (List.length (risks quiet_video) <= 20)%nat
  /\ StronglySorted by_risk (risks quiet_video)
  /\ NoDup (map event_key (risks quiet_video))
  /\ suggestions quiet_video <> [].
Proof.
  apply (process_video_done "ab12cd34" true 30 2 [[]; []] "general" quiet_video).
  vm_compute. reflexivity.
Defined.

(** ** Where the events of a video lie *)

Lemma event_placed_mono (fps : float) (n n' : Z) (e : RiskEvent) :
  n <= n' -> event_placed fps n e -> event_placed fps n' e.
Proof. intros Hn (Hframe & Hrest). split; [lia | exact Hrest]. Qed.

Lemma make_event_placed (fps : float) (n : Z) (factor : string) (state : FactorState)
    (e : RiskEvent) :
  state_ok n state -> active state = true -> In factor (dict_keys weights) ->
  make_event fps factor state = Some e -> event_placed fps n e.
Proof.
  intros Hok Hactive Hknown Hevent.
  destruct (Hok Hactive) as [_ Hframe].
  destruct (make_event_fields _ _ _ _ Hevent) as (Hts & Hf & _ & Hpart & _ & Hdesc & _).
  unfold event_placed. rewrite Hf. split; [exact Hframe | split; [exact Hts |]].
  exists factor. auto.
Qed.

Lemma detect_frame_placed (fps : float) (n : Z) (details : dict R) :
  1 <= n ->
  forall (items : dict Z) (states : dict FactorState) (events : list RiskEvent)
         (states' : dict FactorState) (events' : list RiskEvent),
    Forall (state_ok n) (dict_values states) ->
    Forall (event_placed fps n) events ->
    Forall (fun k => In k (dict_keys weights)) (dict_keys states) ->
    Forall (fun k => In k (dict_keys weights)) (dict_keys items) ->
    detect_frame fps n details items states events = Some (states', events') ->
    Forall (state_ok n) (dict_values states')
    /\ Forall (event_placed fps n) events'
    /\ Forall (fun k => In k (dict_keys weights)) (dict_keys states').
Proof.
  intros Hn.
  induction items as [| [g v] items IH];
    intros states events states' events' Hs He Hk Hitems H.
  - injection H as <- <-. auto.
  - cbn [detect_frame] in H. rewrite detect_factor_step in H.
    fold (state_of states g) in H.
    destruct (step fps g (n, details, v) (state_of states g))
      as [[st emitted] |] eqn:Hstep; [| discriminate H].
    inversion Hitems as [| ? ? Hg Hrest]; subst.
    pose proof (state_of_ok n states g Hs) as Hstate.
    destruct (step_ok fps g (n, details, v) n _ _ _ Hstate Hn (Z.le_refl n) Hstep)
      as [Hst _].
    apply (IH _ _ _ _) in H; [exact H | | | | exact Hrest].
    + apply dict_set_values; assumption.
    + apply Forall_app. split; [exact He |].
      destruct (step_emitted _ _ _ _ _ _ Hstep) as [-> | (e & -> & Hev & Hact & _)];
        [constructor |].
      constructor; [| constructor].
      exact (make_event_placed fps n g _ e Hstate Hact Hg Hev).
    + apply Forall_forall. intros k Hin.
      apply dict_set_keys_in in Hin as [-> | Hin]; [exact Hg |].
      rewrite Forall_forall in Hk. apply Hk. exact Hin.
Qed.

Lemma flush_placed (fps : float) (n : Z) :
  forall (states : dict FactorState) (events events' : list RiskEvent),
    Forall (state_ok n) (dict_values states) ->
    Forall (fun k => In k (dict_keys weights)) (dict_keys states) ->
    Forall (event_placed fps n) events ->
    flush fps states events = Some events' ->
    Forall (event_placed fps n) events'.
Proof.
  induction states as [| [g st] states IH]; intros events events' Hs Hk He H.
  - injection H as <-. exact He.
  - cbn [flush] in H.
    inversion Hs as [| ? ? Hst Hrest]; subst.
    inversion Hk as [| ? ? Hg Hkeys]; subst.
    destruct (active st && (30 <=? peak_risk st)) eqn:Hguard;
      [| exact (IH _ _ Hrest Hkeys He H)].
    apply andb_prop in Hguard as [Hact _].
    destruct (make_event fps g st) as [e |] eqn:Hev; [| discriminate H].
    apply (IH _ _ Hrest Hkeys) in H; [exact H |].
    unfold Py.append. apply Forall_app. split; [exact He |].
    constructor; [| constructor].
    exact (make_event_placed fps n g st e Hst Hact Hg Hev).
Qed.

Lemma pose_risks_known (persons : list person) :
  Forall (fun k => In k (dict_keys weights))
    (dict_keys (fst (last (map pose_risks persons) ([], [])))).
Proof.
  assert (forall p, Forall (fun k => In k (dict_keys weights))
                      (dict_keys (fst (pose_risks p)))) as Hpose.
  { intros [person_kp person_conf]. unfold pose_risks; cbn [fst snd].
    rewrite risk_factors_keys. apply Forall_forall. intros k Hk.
    apply filter_In in Hk. apply Hk. }
  destruct persons as [| p rest]; [constructor |].
  cbn [map]. rewrite last_cons.
  revert p. induction rest as [| q rest IH]; intros p; [apply Hpose |].
  cbn [map]. rewrite last_cons. apply IH.
Qed.

Lemma process_frames_placed (fps : float) :
  forall (frames : list (list person)) (n : Z) (scores : list Z)
         (states : dict FactorState) (events : list RiskEvent)
         (n' : Z) (scores' : list Z)
         (states' : dict FactorState) (events' : list RiskEvent),
    0 <= n ->
    Forall (state_ok n) (dict_values states) ->
    Forall (event_placed fps n) events ->
    Forall (fun k => In k (dict_keys weights)) (dict_keys states) ->
    process_frames fps frames n scores states events = Some (n', scores', states', events') ->
    Forall (state_ok n') (dict_values states')
    /\ Forall (event_placed fps n') events'
    /\ Forall (fun k => In k (dict_keys weights)) (dict_keys states').
Proof.
  induction frames as [| persons frames IH];
    intros n scores states events n' scores' states' events' Hn Hs He Hk H.
  - injection H as <- <- <- <-. auto.
  - cbn [process_frames] in H. rewrite analyze_frame_fold in H.
    destruct (detect_frame fps (n + 1) _ _ states events)
      as [[states1 events1] |] eqn:Hframe; [| discriminate H].
    apply detect_frame_placed in Hframe as (Hs1 & He1 & Hk1);
      [| lia | apply (states_ok_mono n); [lia | exact Hs]
       | rewrite Forall_forall in *; intros e Hin;
         apply (event_placed_mono fps n); [lia | apply He; exact Hin]
       | exact Hk | apply pose_risks_known].
    apply IH in H; [exact H | lia | exact Hs1 | exact He1 | exact Hk1].
Qed.

(** X17: Every event in the record of a processed video lies in one of the
    frames read, carries the timestamp of that frame at the frame rate of
    the video, and is on one of the five body parts, with the description
    of one of the nine factors. *)
Theorem events_placed (video_id : string) (opened : bool) (fps_raw : float)
    (total_frames : Z) (frames : list (list person)) (sport : string) (data : Completed) :
  process_video video_id opened fps_raw total_frames frames sport = Done data ->
  let fps := if (fps_raw =? 0)%float then 30%float else fps_raw in
  Forall (fun e =>
            1 <= frame e <= totalFrames data
            /\ frames_to_timestamp (frame e) fps = Some (timestamp e)
            /\ In (part e) (dict_keys part_keywords)
            /\ In (description e) (dict_values FACTOR_DESCRIPTIONS))
    (risks data).
Proof.
  unfold process_video. destruct (negb opened); [discriminate |].
  set (fps := if (fps_raw =? 0)%float then 30%float else fps_raw).
  destruct (process_frames fps frames 0 [] [] [])
    as [[[[frame_count scores] states] loop_events] |] eqn:Hloop; [| discriminate].
  destruct (flush fps states loop_events) as [risk_events |] eqn:Hflush; [| discriminate].
  destruct (int_of_float _); [| discriminate].
  destruct (clock _); [| discriminate].
  destruct (int_of_float fps); [| discriminate].
  remember (firstn 20 (deduplicate risk_events)) as listed eqn:Hlisted.
  intros Hdone; injection Hdone as <-. cbn [risks totalFrames]. subst listed.
  apply process_frames_placed in Hloop as (Hs & He & Hk);
    [| lia | constructor | constructor | constructor].
  pose proof (flush_placed fps frame_count _ _ _ Hs Hk He Hflush) as Hplaced.
  rewrite Forall_forall in *. intros e Hin.
  assert (In e risk_events) as Hevent.
  { apply deduplicate_incl.
    rewrite <- (firstn_skipn 20 (deduplicate risk_events)).
    apply in_or_app. left; exact Hin. }
  destruct (Hplaced e Hevent) as (Hframe & Hts & factor & Hfactor & Hpart & Hdesc).
  split; [exact Hframe | split; [exact Hts |]].
  rewrite Hpart, Hdesc. unfold description_of.
  cbn in Hfactor.
  repeat (destruct Hfactor as [<- | Hfactor]; [split; cbn; tauto |]).
  destruct Hfactor.
Qed.

(** A video of one frame that shows one person standing straight: both
    ankles are at risk 60 when the video ends, the flush emits an event for
    each, and the deduplication keeps the one of the left ankle. *)
Lemma standing_video_processed :
  process_video "ab12cd34" true 30 1 [[(standing_kp, standing_conf)]] "general"
  = Done standing_video.
Proof.
  unfold process_video. cbn [negb process_frames analyze_frame].
  unfold analyze_person.
  pose proof standing_backend as Hrisks.
  destruct (risk_factors standing_kp standing_conf) as [risks details].
  simpl in Hrisks. subst risks.
  replace (composite_score _) with (Some 4) by (vm_compute; reflexivity).
  vm_compute. reflexivity.
Qed.

Lemma events_placed_witness :
  Forall (fun e =>
            1 <= frame e <= totalFrames standing_video
            /\ frames_to_timestamp (frame e) 30 = Some (timestamp e)
            /\ In (part e) (dict_keys part_keywords)
            /\ In (description e) (dict_values FACTOR_DESCRIPTIONS))
    (risks standing_video).
Proof.
  apply (events_placed "ab12cd34" true 30 1 [[(standing_kp, standing_conf)]] "general"
           standing_video).
  exact standing_video_processed.
Defined.

(** ** Videos without a person *)

Lemma process_frames_nobody (fps : float) (frames : list (list person)) :
  (forall persons, In persons frames -> persons = []) ->
  forall (n : Z) (scores : list Z),
    process_frames fps frames n scores [] []
    = Some (n + Z.of_nat (List.length frames),
            scores ++ repeat 0 (List.length frames), [], []).
Proof.
  induction frames as [| persons rest IH]; intros Hnobody n scores.
  - cbn. rewrite app_nil_r, Z.add_0_r. reflexivity.
  - rewrite (Hnobody persons) by (left; reflexivity).
    cbn [process_frames analyze_frame detect_frame].
    rewrite IH by (intros p Hp; apply Hnobody; right; exact Hp).
    unfold Py.append. rewrite <- app_assoc.
    cbn [List.length repeat app].
    replace (n + Z.of_nat (S (List.length rest))) with (n + 1 + Z.of_nat (List.length rest))
      by lia.
    reflexivity.
Qed.

Lemma sum_Z_zeros (n : nat) : forall acc : Z, fold_left Z.add (repeat 0 n) acc = acc.
Proof.
  induction n as [| n IH]; intros acc; cbn [repeat fold_left]; [reflexivity |].
  rewrite IH. lia.
Qed.

Lemma zero_quotient (y : float) :
  (forall z, int_of_float (0 / y)%float = Some z -> z = 0)
  /\ (60 <? 0 / y)%float = false /\ (40 <? 0 / y)%float = false.
Proof.
  rewrite !ltb_spec. unfold int_of_float. rewrite div_spec.
  change (Prim2SF 0) with (S754_zero false).
  change (Prim2SF 60) with (S754_finite false 8444249301319680 (-47)).
  change (Prim2SF 40) with (S754_finite false 5629499534213120 (-47)).
  destruct (Prim2SF y) as [s | s | | s m e]; cbn;
    (split; [intros z Hz; congruence | split; reflexivity]).
Qed.

(** X18: Whenever a video in which no person is detected is processed to the
    end, its overall and peak risk are 0, its severity is LOW, its timeline
    is 0 at every frame, and it has no event and the one suggestion that
    praises the form. *)
Theorem nobody_video (video_id : string) (fps_raw : float) (total_frames : Z)
    (frames : list (list person)) (sport : string) (data : Completed) :
  (forall persons, In persons frames -> persons = []) ->
  process_video video_id true fps_raw total_frames frames sport = Done data ->
  overallRisk data = 0 /\ overallSeverity data = "LOW"%string /\ peakRisk data = 0
  /\ riskTimeline data = repeat 0 (List.length frames)
  /\ totalFrames data = Z.of_nat (List.length frames)
  /\ risks data = []
  /\ suggestions data = [positive_suggestion].
Proof.
  intros Hnobody. unfold process_video. cbn [negb].
  rewrite (process_frames_nobody _ frames Hnobody). cbn [flush app].
  set (scores_arr := match repeat 0 (List.length frames) with
                     | [] => [0]
                     | _ :: _ => repeat 0 (List.length frames)
                     end).
  assert (exists n : nat, scores_arr = repeat 0 (S n)) as [n Hzeros].
  { subst scores_arr. destruct (List.length frames) as [| n]; [exists 0%nat | exists n];
      reflexivity. }
  assert (mean scores_arr = (0 / float_of_Z (Z.of_nat (S n)))%float) as Hmean.
  { unfold mean, sum_Z. rewrite Hzeros, sum_Z_zeros, repeat_length. reflexivity. }
  assert (fold_left Z.max (tl scores_arr) (hd 0 scores_arr) = 0) as Hpeak.
  { rewrite Hzeros. cbn [repeat tl hd]. clear.
    induction n as [| n IH]; cbn [repeat fold_left]; [reflexivity | exact IH]. }
  rewrite Hpeak, Hmean.
  destruct (zero_quotient (float_of_Z (Z.of_nat (S n)))) as (Hint & H60 & H40).
  destruct (int_of_float (0 / float_of_Z (Z.of_nat (S n)))) as [overall |];
    [| discriminate].
  rewrite (Hint overall eq_refl).
  destruct (clock _) as [duration_str |]; [| discriminate].
  destruct (int_of_float _) as [fps_int |]; [| discriminate].
  assert (generate_suggestions (deduplicate [])
            (0 / float_of_Z (Z.of_nat (S n)))%float = [positive_suggestion]) as Hadvice.
  { unfold generate_suggestions. cbn [deduplicate sorted_by_risk keep_first map existsb].
    rewrite H60, H40. reflexivity. }
  rewrite Hadvice.
  intros [= <-]. cbn. repeat split; lia.
Qed.

Lemma nobody_video_witness :
  overallRisk quiet_video = 0 /\ overallSeverity quiet_video = "LOW"%string
  /\ peakRisk quiet_video = 0
  /\ riskTimeline quiet_video = repeat 0 (List.length [[]; []] (A := list person))
  /\ totalFrames quiet_video = Z.of_nat (List.length [[]; []] (A := list person))
  /\ risks quiet_video = []
  /\ suggestions quiet_video = [positive_suggestion].
Proof.
  apply (nobody_video "ab12cd34" 30 2 [[]; []] "general" quiet_video).
  - intros persons [<- | [<- | []]]; reflexivity.
  - vm_compute. reflexivity.
Defined.




(** ** The analysis store *)

Lemma dict_set_fresh {V : Type} (d : dict V) (k : string) (v : V) :
  dict_mem d k = false -> dict_set d k v = d ++ [(k, v)].
Proof.
  unfold dict_mem. induction d as [| [k' v'] d IH]; cbn [dict_get dict_set app];
    [reflexivity |].
  destruct (String.eqb k' k); [discriminate |].
  intros H. rewrite IH by exact H. reflexivity.
Qed.

Lemma dict_set_keys_present {V : Type} (d : dict V) (k : string) (v : V) :
  dict_mem d k = true -> dict_keys (dict_set d k v) = dict_keys d.
Proof.
  unfold dict_mem, dict_keys. induction d as [| [k' v'] d IH]; cbn [dict_get dict_set map];
    [discriminate |].
  destruct (String.eqb_spec k' k) as [-> | Hne]; cbn [map fst].
  - reflexivity.
  - intros H. rewrite IH by exact H. reflexivity.
Qed.

(** X20: After an upload the analysis of the new identifier reads as processing,
    whatever was stored under that identifier before, and every other
    analysis reads as before.  A new identifier goes last in the store, a
    reused one keeps its place.  The response names the file, with a default
    when the client gave no name.  An identifier that is not in the store
    reads as a 404 error. *)
Theorem upload_then_get (analyses : dict Analysis) (video_id : string)
    (file_name : option string) (sport : string) :
  let store := fst (upload_video analyses video_id file_name) in
  let response := snd (upload_video analyses video_id file_name) in
  get_analysis store video_id sport = inr (Processing video_id)
  /\ (forall other : string, other <> video_id ->
        get_analysis store other sport = get_analysis analyses other sport)
  /\ (dict_mem analyses video_id = false ->
      store = analyses ++ [(video_id, Processing video_id)]
      /\ get_analysis analyses video_id sport
         = inl (http_exception 404 "Analysis not found. Upload a video first."))
  /\ (dict_mem analyses video_id = true -> dict_keys store = dict_keys analyses)
  /\ upload_videoId response = video_id
  /\ upload_status response = "processing"%string
  /\ filename response <> ""%string
  /\ (forall given : string, given <> ""%string -> file_name = Some given ->
        filename response = given).
Proof.
  cbn [upload_video fst snd upload_videoId upload_status filename].
  unfold get_analysis.
  split; [rewrite dict_get_set_same; reflexivity |].
  split; [intros other Hother; rewrite dict_get_set_other by exact Hother; reflexivity |].
  split.
  { intros Hfresh. split; [apply dict_set_fresh; exact Hfresh |].
    unfold dict_mem in Hfresh. destruct (dict_get analyses video_id); [discriminate |].
    reflexivity. }
  split; [apply dict_set_keys_present |].
  split; [reflexivity |]. split; [reflexivity |].
  split.
  - destruct file_name as [given |]; [| discriminate].
    destruct (String.eqb_spec given ""); [discriminate | assumption].
  - intros given Hgiven ->.
    destruct (String.eqb_spec given ""); [contradiction | reflexivity].
Qed.

Lemma process_video_settled (video_id : string) (opened : bool) (fps_raw : float)
    (total_frames : Z) (frames : list (list person)) (sport : string) :
  status (process_video video_id opened fps_raw total_frames frames sport)
  <> "processing"%string
  /\ analysis_id (process_video video_id opened fps_raw total_frames frames sport)
     = video_id
  /\ (forall data : Completed,
        process_video video_id opened fps_raw total_frames frames sport = Done data ->
        Backend.sport data = sport).
Proof.
  unfold process_video.
  destruct (negb opened);
    [split; [discriminate | split; [reflexivity | intros data H; discriminate H]] |].
  destruct (process_frames _ frames 0 [] [] []) as [[[[n scores] states] events] |];
    [| split; [discriminate | split; [reflexivity | intros data H; discriminate H]]].
  destruct (flush _ states events);
    [| split; [discriminate | split; [reflexivity | intros data H; discriminate H]]].
  destruct (int_of_float (mean _));
    [| split; [discriminate | split; [reflexivity | intros data H; discriminate H]]].
  destruct (clock _);
    [| split; [discriminate | split; [reflexivity | intros data H; discriminate H]]].
  destruct (int_of_float _);
    [| split; [discriminate | split; [reflexivity | intros data H; discriminate H]]].
  split; [discriminate | split; [reflexivity |]].
  intros data H. injection H as <-. reflexivity.
Qed.

(** X21: Once the background task of an upload has run, the analysis no longer
    reads as processing: it is done or in error, under the same identifier,
    and a video that could not be opened reads as that error.  The task
    changes no other analysis and leaves the order of the store as the
    uploads set it; the record of a task started by an upload has the sport
    "general". *)
Theorem background_task_settles (analyses : dict Analysis) (video_id : string)
    (opened : bool) (fps_raw : float) (total_frames : Z) (frames : list (list person))
    (sport : string) :
  let store := background_task analyses video_id opened fps_raw total_frames frames in
  (exists a : Analysis,
     get_analysis store video_id sport = inr a
     /\ status a <> "processing"%string
     /\ analysis_id a = video_id
     /\ (opened = false -> a = Failed video_id (Some "Could not open video file"%string))
     /\ (forall data, a = Done data -> Backend.sport data = "general"%string))
  /\ (forall other : string, other <> video_id ->
        get_analysis store other sport = get_analysis analyses other sport)
  /\ (dict_mem analyses video_id = true -> dict_keys store = dict_keys analyses).
Proof.
  intros store. subst store. unfold background_task, get_analysis.
  split; [| split].
  - rewrite dict_get_set_same. eexists. split; [reflexivity |].
    destruct (process_video_settled video_id opened fps_raw total_frames frames "general")
      as (Hstatus & Hid & Hsport).
    split; [exact Hstatus | split; [exact Hid | split]].
    + intros ->. reflexivity.
    + exact Hsport.
  - intros other Hother. rewrite dict_get_set_other by exact Hother. reflexivity.
  - apply dict_set_keys_present.
Qed.

Lemma completed_of_app (a b : list Analysis) :
  completed_of (a ++ b) = completed_of a ++ completed_of b.
Proof.
  induction a as [| [video_id | video_id error | data] a IH]; cbn [completed_of app];
    [reflexivity | exact IH | exact IH | rewrite IH; reflexivity].
Qed.

Lemma dict_set_middle {V : Type} (d rest : dict V) (k : string) (old v : V) :
  dict_mem d k = false ->
  dict_set (d ++ (k, old) :: rest) k v = d ++ (k, v) :: rest.
Proof.
  unfold dict_mem. induction d as [| [k' v'] d IH]; cbn [dict_get dict_set app].
  - intros _. rewrite String.eqb_refl. reflexivity.
  - destruct (String.eqb k' k); [discriminate |].
    intros H. rewrite IH by exact H. reflexivity.
Qed.

Lemma dict_mem_app {V : Type} (a b : dict V) (k : string) :
  dict_mem (a ++ b) k = dict_mem a k || dict_mem b k.
Proof.
  unfold dict_mem. induction a as [| [k' v'] a IH]; cbn [dict_get app]; [reflexivity |].
  destruct (String.eqb k' k); [reflexivity | exact IH].
Qed.

(** X22: The completed analyses are listed in the order of the uploads, not in
    the order in which the analyses end: of two videos uploaded one after
    the other, the first is the earlier session even when its analysis ends
    last. *)
Theorem sessions_in_upload_order (analyses : dict Analysis) (first second : string)
    (name_first name_second : option string) (done_first done_second : Completed) :
  dict_mem analyses first = false ->
  dict_mem analyses second = false ->
  first <> second ->
  let uploaded :=
    fst (upload_video (fst (upload_video analyses first name_first)) second name_second) in
  let store := dict_set (dict_set uploaded second (Done done_second)) first (Done done_first) in
  dict_keys store = dict_keys analyses ++ [first; second]
  /\ completed_of (dict_values store)
     = completed_of (dict_values analyses) ++ [done_first; done_second].
Proof.
  intros Hfirst Hsecond Hne uploaded store.
  assert (store = analyses ++ [(first, Done done_first); (second, Done done_second)])
    as ->.
  { subst store uploaded. cbn [upload_video fst].
    rewrite (dict_set_fresh analyses first _ Hfirst).
    assert (dict_mem (analyses ++ [(first, Processing first)]) second = false) as Hfresh.
    { rewrite dict_mem_app, Hsecond. unfold dict_mem. cbn [dict_get].
      destruct (String.eqb_spec first second); [contradiction | reflexivity]. }
    rewrite (dict_set_fresh _ second _ Hfresh).
    rewrite (dict_set_middle (analyses ++ [(first, Processing first)]) [] second _ _ Hfresh).
    rewrite <- app_assoc. cbn [app].
    apply (dict_set_middle analyses [(second, Done done_second)] first _ _ Hfirst). }
  unfold dict_keys, dict_values. rewrite !map_app, completed_of_app. split; reflexivity.
Qed.

Lemma sessions_in_upload_order_witness :
  dict_keys (dict_set
               (dict_set (fst (upload_video (fst (upload_video [] "ab12cd34" None))
                                 "ef56ab78" None))
                  "ef56ab78" (Done quiet_video))
               "ab12cd34" (Done quiet_video))
  = dict_keys [] (V := Analysis) ++ ["ab12cd34"; "ef56ab78"]%string
  /\ completed_of (dict_values
       (dict_set
          (dict_set (fst (upload_video (fst (upload_video [] "ab12cd34" None))
                            "ef56ab78" None))
             "ef56ab78" (Done quiet_video))
          "ab12cd34" (Done quiet_video)))
     = completed_of (dict_values []) ++ [quiet_video; quiet_video].
Proof.
  apply (sessions_in_upload_order [] "ab12cd34" "ef56ab78" None None quiet_video quiet_video).
  - reflexivity.
  - reflexivity.
  - discriminate.
Defined.

(** ** The chat replies on a finished analysis *)

Lemma max_from_spec (rest : list RiskEvent) :
  forall best : RiskEvent,
    In (max_from best rest) (best :: rest)
    /\ forall x, In x (best :: rest) -> risk x <= risk (max_from best rest).
Proof.
  induction rest as [| e rest IH]; intros best; cbn [max_from].
  - split; [left; reflexivity |]. intros x [<- | []]. lia.
  - destruct (risk best <? risk e) eqn:Hlt;
      [apply Z.ltb_lt in Hlt | apply Z.ltb_ge in Hlt].
    + destruct (IH e) as [Hin Hmax]. split.
      * right. exact Hin.
      * intros x [<- | Hx]; [| apply Hmax; exact Hx].
        specialize (Hmax e (or_introl eq_refl)). lia.
    + destruct (IH best) as [Hin Hmax]. split.
      * destruct Hin as [<- | Hin]; [left; reflexivity | right; right; exact Hin].
      * intros x [<- | [<- | Hx]].
        -- apply Hmax. left; reflexivity.
        -- specialize (Hmax best (or_introl eq_refl)). lia.
        -- apply Hmax. right; exact Hx.
Qed.

Lemma matches_known_part (text : string) (r : RiskEvent) :
  matches text r = true -> In (part r) (dict_keys part_keywords).
Proof.
  unfold matches. rewrite existsb_exists.
  intros ([p kws] & Hin & Hmatch).
  apply andb_true_iff in Hmatch as [Hpart _].
  apply String.eqb_eq in Hpart. cbn [fst] in Hpart. rewrite Hpart.
  apply (in_map fst) in Hin. exact Hin.
Qed.

(** X23: On a finished analysis the chat always replies, in one of three ways.
    If some event is on a body part that a keyword of the question names,
    the reply is about the first event of highest risk among those, with
    its timestamp and the confidence 0.92.  Otherwise, if the question asks
    for the overall picture, the confidence is 0.93, and else 0.85, both
    without a timestamp.  Only events on the five known body parts can be
    matched. *)
Theorem chat_reply_kinds (str_of_float : R -> string) (analyses : dict Analysis)
    (video_id : string) (msg : ChatMessage) (data : Completed) :
  dict_get analyses video_id = Some (Done data) ->
  let text := lower (message msg) in
  let matched := filter (matches text) (risks data) in
  exists response : ChatResponse,
    chat_with_ai str_of_float analyses video_id msg = Some response
    /\ ((exists top : RiskEvent,
           In top matched
           /\ (forall r, In r matched -> risk r <= risk top)
           /\ In (part top) (dict_keys part_keywords)
           /\ response = part_reply str_of_float (risks data) top
           /\ confidence response = 0.92%float
           /\ relatedTimestamp response = Some (timestamp top))
        \/ (matched = [] /\ asks_overview text = true
            /\ confidence response = 0.93%float /\ relatedTimestamp response = None)
        \/ (matched = [] /\ asks_overview text = false
            /\ confidence response = 0.85%float /\ relatedTimestamp response = None
            /\ (risks data = [] ->
                reply response
                = "✅ No significant risks were detected in this session. The biomechanics look good! Keep up the great form."%string))).
Proof.
  intros Hdone text matched. unfold chat_with_ai. rewrite Hdone.
  fold text. fold matched.
  destruct matched as [| e rest] eqn:Hmatched; cbn [is_empty negb max_by_risk].
  - fold (asks_overview text).
    destruct (asks_overview text) eqn:Hoverview.
    + destruct (risks data) as [| r others] eqn:Hrisks; cbn [is_empty negb max_by_risk];
        eexists; (split; [reflexivity |]); right; left;
        (split; [reflexivity | split; [reflexivity | split; reflexivity]]).
    + destruct (risks data) as [| r others] eqn:Hrisks; cbn [is_empty negb max_by_risk];
        eexists; (split; [reflexivity |]); right; right;
        (split; [reflexivity | split; [reflexivity | split; [reflexivity | split;
           [reflexivity |]]]]).
      * intros _. reflexivity.
      * discriminate.
  - eexists. split; [reflexivity |]. left.
    exists (max_from e rest).
    destruct (max_from_spec rest e) as [Hin Hmax].
    split; [exact Hin | split; [exact Hmax |]].
    split.
    { apply (matches_known_part text).
      assert (In (max_from e rest) (filter (matches text) (risks data))) as Hfiltered
        by (fold matched; rewrite Hmatched; exact Hin).
      apply filter_In in Hfiltered. apply Hfiltered. }
    split; [reflexivity | split; reflexivity].
Qed.

Lemma chat_reply_kinds_witness :
  exists response : ChatResponse,
    chat_with_ai (fun _ => ""%string) [("ab12cd34"%string, Done quiet_video)] "ab12cd34"
      {| message := "How is my knee?"; message_videoId := None |} = Some response
    /\ ((exists top : RiskEvent,
           In top (filter (matches (lower "How is my knee?")) (risks quiet_video))
           /\ (forall r, In r (filter (matches (lower "How is my knee?")) (risks quiet_video)) ->
               risk r <= risk top)
           /\ In (part top) (dict_keys part_keywords)
           /\ response = part_reply (fun _ => ""%string) (risks quiet_video) top
           /\ confidence response = 0.92%float
           /\ relatedTimestamp response = Some (timestamp top))
        \/ (filter (matches (lower "How is my knee?")) (risks quiet_video) = []
            /\ asks_overview (lower "How is my knee?") = true
            /\ confidence response = 0.93%float /\ relatedTimestamp response = None)
        \/ (filter (matches (lower "How is my knee?")) (risks quiet_video) = []
            /\ asks_overview (lower "How is my knee?") = false
            /\ confidence response = 0.85%float /\ relatedTimestamp response = None
            /\ (risks quiet_video = [] ->
                reply response
                = "✅ No significant risks were detected in this session. The biomechanics look good! Keep up the great form."%string))).
Proof.
  apply (chat_reply_kinds (fun _ => ""%string) [("ab12cd34"%string, Done quiet_video)]
           "ab12cd34" {| message := "How is my knee?"; message_videoId := None |}
           quiet_video).
  reflexivity.
Defined.

Lemma to_lower_idempotent (c : ascii) : to_lower (to_lower c) = to_lower c.
Proof.
  destruct c as [[] [] [] [] [] [] [] []]; reflexivity.
Qed.

Lemma lower_idempotent (s : string) : lower (lower s) = lower s.
Proof.
  induction s as [| c s IH]; cbn [lower]; [reflexivity |].
  rewrite to_lower_idempotent, IH. reflexivity.
Qed.

(** X24: The reply depends on the message only through its lowercase form, and
    not on the identifier in the body of the request: a question gets the
    same reply as its lowercase form, and as any question that differs from
    it only in the case of letters. *)
Theorem chat_case_insensitive (str_of_float : R -> string) (analyses : dict Analysis)
    (video_id : string) (msg : ChatMessage) :
  (forall other : ChatMessage,
     lower (message other) = lower (message msg) ->
     chat_with_ai str_of_float analyses video_id other
     = chat_with_ai str_of_float analyses video_id msg)
  /\ (forall body_id : option string,
        chat_with_ai str_of_float analyses video_id
          {| message := lower (message msg); message_videoId := body_id |}
        = chat_with_ai str_of_float analyses video_id msg).
Proof.
  assert (forall other : ChatMessage,
            lower (message other) = lower (message msg) ->
            chat_with_ai str_of_float analyses video_id other
            = chat_with_ai str_of_float analyses video_id msg) as Hsame.
  { intros other Hlower. unfold chat_with_ai. rewrite Hlower. reflexivity. }
  split; [exact Hsame |].
  intros body_id. apply Hsame. cbn [message]. apply lower_idempotent.
Qed.

(** ** The player profile *)

Lemma count_injuries_app (a b : list RiskEvent) :
  forall ic : dict (Z * Z),
    count_injuries (a ++ b) ic = count_injuries b (count_injuries a ic).
Proof.
  induction a as [| r a IH]; intros ic; cbn [count_injuries app]; [reflexivity |].
  destruct (dict_get_default _ (part r) (0, 0)) as [total_risk count].
  apply IH.
Qed.

Lemma sessions_spec (completed : list Completed) :
  forall (i : Z) (risk_history : list HistoryPoint) (past_matches : list PastMatch)
         (injury_counts : dict (Z * Z)),
    sessions i completed risk_history past_matches injury_counts
    = (risk_history ++ map history_point (enumerate i completed),
       past_matches ++ map past_match (enumerate i completed),
       count_injuries (all_events completed) injury_counts).
Proof.
  induction completed as [| a rest IH]; intros i rh pm ic.
  - cbn. rewrite !app_nil_r. reflexivity.
  - cbn [sessions]. rewrite IH. unfold Py.append.
    rewrite <- !app_assoc. cbn [enumerate map app all_events flat_map].
    rewrite count_injuries_app.
    f_equal. f_equal. f_equal. f_equal.
    unfold past_match, max_by_risk; cbn [fst snd].
    destruct (risks a) as [| e others]; reflexivity.
Qed.

Lemma enumerate_length {A : Type} (l : list A) :
  forall i : Z, List.length (enumerate i l) = List.length l.
Proof.
  induction l as [| x l IH]; intros i; cbn [enumerate List.length]; [reflexivity |].
  rewrite IH. reflexivity.
Qed.

Lemma last_n_length {A : Type} (n : nat) (l : list A) :
  List.length (last_n n l) = Nat.min n (List.length l).
Proof. unfold last_n. rewrite length_skipn. lia. Qed.

(** X25: The history of the profile lists the completed analyses in the order of
    the store, numbered from 1, each with its overall risk; only the ten
    most recent are kept, under their own numbers.  The name and the sport
    of the profile are those of the most recent one. *)
Theorem get_player_history (analyses : dict Analysis) (player_id : Z)
    (first : Completed) (others : list Completed) :
  completed_of (dict_values analyses) = first :: others ->
  let completed := first :: others in
  let profile := get_player analyses player_id in
  riskHistory profile = last_n 10 (map history_point (enumerate 0 completed))
  /\ pastMatches profile = last_n 10 (map past_match (enumerate 0 completed))
  /\ List.length (riskHistory profile) = Nat.min 10 (List.length completed)
  /\ List.length (pastMatches profile) = Nat.min 10 (List.length completed)
  /\ name profile = playerName (last others first)
  /\ profile_sport profile = sport (last others first)
  /\ playerId profile = player_id
  /\ injuryZones profile = map injury_zone (count_injuries (all_events completed) [])
  /\ drills profile = drills_for (injuryZones profile).
Proof.
  intros Hcompleted completed profile. subst profile.
  unfold get_player. rewrite Hcompleted. rewrite sessions_spec.
  cbn [app riskHistory pastMatches name profile_sport playerId injuryZones drills].
  fold completed.
  repeat match goal with |- _ /\ _ => split end; try reflexivity.
  - rewrite last_n_length, length_map, enumerate_length. reflexivity.
  - rewrite last_n_length, length_map, enumerate_length. reflexivity.
Qed.

Lemma get_player_history_witness :
  riskHistory (get_player [("ab12cd34"%string, Done quiet_video)] 7)
  = last_n 10 (map history_point (enumerate 0 [quiet_video]))
  /\ pastMatches (get_player [("ab12cd34"%string, Done quiet_video)] 7)
     = last_n 10 (map past_match (enumerate 0 [quiet_video]))
  /\ List.length (riskHistory (get_player [("ab12cd34"%string, Done quiet_video)] 7))
     = Nat.min 10 (List.length [quiet_video])
  /\ List.length (pastMatches (get_player [("ab12cd34"%string, Done quiet_video)] 7))
     = Nat.min 10 (List.length [quiet_video])
  /\ name (get_player [("ab12cd34"%string, Done quiet_video)] 7)
     = playerName (last [] quiet_video)
  /\ profile_sport (get_player [("ab12cd34"%string, Done quiet_video)] 7)
     = sport (last [] quiet_video)
  /\ playerId (get_player [("ab12cd34"%string, Done quiet_video)] 7) = 7
  /\ injuryZones (get_player [("ab12cd34"%string, Done quiet_video)] 7)
     = map injury_zone (count_injuries (all_events [quiet_video]) [])
  /\ drills (get_player [("ab12cd34"%string, Done quiet_video)] 7)
     = drills_for (injuryZones (get_player [("ab12cd34"%string, Done quiet_video)] 7)).
Proof.
  apply (get_player_history [("ab12cd34"%string, Done quiet_video)] 7 quiet_video []).
  reflexivity.
Defined.

Lemma dict_get_default_set_same {V : Type} (d : dict V) (k : string) (v default : V) :
  dict_get_default (dict_set d k v) k default = v.
Proof. unfold dict_get_default. rewrite dict_get_set_same. reflexivity. Qed.

Lemma dict_get_default_set_other {V : Type} (d : dict V) (k k' : string) (v default : V) :
  k' <> k -> dict_get_default (dict_set d k v) k' default = dict_get_default d k' default.
Proof. intros H. unfold dict_get_default. rewrite dict_get_set_other by exact H. reflexivity. Qed.

Lemma dict_mem_set {V : Type} (d : dict V) (k k' : string) (v : V) :
  dict_mem (dict_set d k v) k' = String.eqb k k' || dict_mem d k'.
Proof.
  unfold dict_mem. destruct (String.eqb_spec k k') as [<- | Hne].
  - rewrite dict_get_set_same. reflexivity.
  - rewrite dict_get_set_other by congruence. reflexivity.
Qed.

Lemma sum_Z_cons (x : Z) (l : list Z) : sum_Z (x :: l) = x + sum_Z l.
Proof.
  unfold sum_Z. cbn [fold_left].
  assert (forall (l : list Z) (a b : Z), fold_left Z.add l (a + b) = a + fold_left Z.add l b)
    as Hshift.
  { clear. induction l as [| y l IH]; intros a b; cbn [fold_left]; [reflexivity |].
    rewrite <- Z.add_assoc. apply IH. }
  rewrite <- Hshift. f_equal. lia.
Qed.

(** What [count_injuries] holds for each part: the risks of the events on
    that part added up, and their number. *)
Lemma count_injuries_spec (events : list RiskEvent) :
  forall (ic : dict (Z * Z)) (p : string),
    NoDup (dict_keys ic) ->
    NoDup (dict_keys (count_injuries events ic))
    /\ dict_mem (count_injuries events ic) p
       = dict_mem ic p || negb (is_empty (events_on p events))
    /\ dict_get_default (count_injuries events ic) p (0, 0)
       = (fst (dict_get_default ic p (0, 0)) + sum_Z (map risk (events_on p events)),
          snd (dict_get_default ic p (0, 0))
          + Z.of_nat (List.length (events_on p events))).
Proof.
  induction events as [| r rest IH]; intros ic p Hnodup.
  - cbn [count_injuries events_on filter map List.length is_empty negb].
    rewrite orb_false_r. unfold sum_Z; cbn [fold_left Z.of_nat].
    rewrite !Z.add_0_r. split; [exact Hnodup | split; [reflexivity |]].
    destruct (dict_get_default ic p (0, 0)); reflexivity.
  - cbn [count_injuries].
    set (ic1 := if dict_mem ic (part r) then ic else dict_set ic (part r) (0, 0)).
    assert (NoDup (dict_keys ic1)) as Hnodup1.
    { subst ic1. destruct (dict_mem ic (part r)); [exact Hnodup |].
      apply dict_set_nodup. exact Hnodup. }
    assert (forall q, dict_get_default ic1 q (0, 0) = dict_get_default ic q (0, 0)) as Hsame.
    { intros q. subst ic1. destruct (dict_mem ic (part r)) eqn:Hmem; [reflexivity |].
      destruct (String.eqb_spec q (part r)) as [-> | Hne].
      - rewrite dict_get_default_set_same.
        unfold dict_mem in Hmem. unfold dict_get_default.
        destruct (dict_get ic (part r)); [discriminate | reflexivity].
      - apply dict_get_default_set_other. exact Hne. }
    assert (forall q, dict_mem ic1 q = dict_mem ic q || String.eqb (part r) q) as Hmem1.
    { intros q. subst ic1. destruct (dict_mem ic (part r)) eqn:Hmem.
      - destruct (String.eqb_spec (part r) q) as [<- | Hne];
          [rewrite Hmem; reflexivity | rewrite orb_false_r; reflexivity].
      - rewrite dict_mem_set. apply orb_comm. }
    destruct (dict_get_default ic1 (part r) (0, 0)) as [total_risk count] eqn:Hold.
    destruct (IH (dict_set ic1 (part r) (total_risk + risk r, count + 1)) p
                (dict_set_nodup _ _ _ Hnodup1)) as (Hkeys & Hmem & Hget).
    split; [exact Hkeys |].
    rewrite Hmem, Hget, dict_mem_set, Hmem1.
    unfold events_on. cbn [filter].
    destruct (String.eqb_spec (part r) p) as [Heq | Hne].
    + rewrite <- Heq. rewrite dict_get_default_set_same. cbn [fst snd].
      rewrite <- Hsame, Hold. cbn [fst snd map List.length is_empty negb].
      rewrite sum_Z_cons, orb_true_r. cbn [orb].
      split; [reflexivity |]. f_equal; lia.
    + rewrite dict_get_default_set_other by congruence.
      rewrite Hsame. cbn [orb]. rewrite orb_false_r. split; reflexivity.
Qed.

Lemma dict_get_in_pair {V : Type} (d : dict V) (k : string) (v : V) :
  NoDup (dict_keys d) -> In (k, v) d -> dict_get d k = Some v.
Proof.
  unfold dict_keys. induction d as [| [k' v'] d IH]; intros Hnodup Hin; [destruct Hin |].
  cbn [dict_get]. cbn [map fst] in Hnodup. inversion Hnodup as [| ? ? Hnotin Hrest]; subst.
  destruct Hin as [[= -> ->] | Hin].
  - rewrite String.eqb_refl. reflexivity.
  - destruct (String.eqb_spec k' k) as [-> | Hne].
    + exfalso. apply Hnotin. apply (in_map fst) in Hin. exact Hin.
    + apply IH; assumption.
Qed.

(** X26: The profile has one injury zone for each body part on which some
    completed analysis has an event, and no other.  The risk of a zone is
    the mean of the risks of all the events on its part, rounded down, and
    its trend is read from that mean: increasing above 50, stable above 30,
    decreasing otherwise. *)
Theorem injury_zones_spec (analyses : dict Analysis) (player_id : Z) :
  let events := all_events (completed_of (dict_values analyses)) in
  let zones := injuryZones (get_player analyses player_id) in
  NoDup (map zone_part zones)
  /\ (forall p : string, has_zone zones p = negb (is_empty (events_on p events)))
  /\ (forall z : InjuryZone, In z zones ->
        events_on (zone_part z) events <> []
        /\ zone_risk z
           = sum_Z (map risk (events_on (zone_part z) events))
             / Z.of_nat (List.length (events_on (zone_part z) events))
        /\ zone_trend z
           = if 50 <? zone_risk z then "increasing"%string
             else if 30 <? zone_risk z then "stable"%string else "decreasing"%string).
Proof.
  intros events zones.
  assert (zones = map injury_zone (count_injuries events [])) as Hzones.
  { subst zones events. unfold get_player.
    destruct (completed_of (dict_values analyses)) as [| first others] eqn:Hcompleted;
      [reflexivity |].
    rewrite sessions_spec. reflexivity. }
  assert (forall entry : string * (Z * Z), zone_part (injury_zone entry) = fst entry)
    as Hpart by (intros [p [t c]]; reflexivity).
  assert (map zone_part zones = dict_keys (count_injuries events [])) as Hparts.
  { rewrite Hzones, map_map. unfold dict_keys. apply map_ext. exact Hpart. }
  assert (forall p, has_zone zones p = dict_mem (count_injuries events []) p) as Hhas.
  { intros p. unfold has_zone. rewrite Hzones.
    unfold dict_mem. generalize (count_injuries events []). clear.
    induction d as [| [k [t c]] d IH]; cbn [map existsb dict_get]; [reflexivity |].
    cbn [injury_zone zone_part]. destruct (String.eqb k p); [reflexivity | exact IH]. }
  split; [| split].
  - rewrite Hparts. apply (count_injuries_spec events [] ""%string). constructor.
  - intros p. rewrite Hhas.
    destruct (count_injuries_spec events [] p (NoDup_nil _)) as (_ & Hmem & _).
    rewrite Hmem. reflexivity.
  - intros z Hz. rewrite Hzones in Hz. apply in_map_iff in Hz as ([p [t c]] & <- & Hin).
    cbn [injury_zone zone_part zone_risk zone_trend].
    destruct (count_injuries_spec events [] p (NoDup_nil _)) as (Hnodup & Hmem & Hget).
    pose proof (dict_get_in_pair _ _ _ Hnodup Hin) as Hlookup.
    unfold dict_get_default in Hget. rewrite Hlookup in Hget. cbn [dict_get fst snd] in Hget.
    injection Hget as -> ->.
    split; [| split; reflexivity].
    unfold dict_mem in Hmem. rewrite Hlookup in Hmem. cbn [dict_get orb] in Hmem.
    destruct (events_on p events); [discriminate Hmem | discriminate].
Qed.

(** X27: The drills are numbered from 1 without a gap, in the order knee,
    shoulder, lower back, hip; there is one for each of these parts that has
    an injury zone and none for any other part, the ankle included. *)
Theorem drills_for_spec (injury_zones : list InjuryZone) :
  let drills := drills_for injury_zones in
  map drill_id drills = map Z.of_nat (seq 1 (List.length drills))
  /\ map drill_targetArea drills
     = map snd (filter (fun entry => has_zone injury_zones (fst entry)) drill_catalog)
  /\ (List.length drills <= 4)%nat
  /\ ((forall entry, In entry drill_catalog -> has_zone injury_zones (fst entry) = false) ->
      drills = []).
Proof.
  unfold drills_for, drill_catalog. cbv zeta. cbn [filter fst snd].
  destruct (has_zone injury_zones "knee") eqn:Hknee,
    (has_zone injury_zones "shoulder") eqn:Hshoulder,
    (has_zone injury_zones "lower_back") eqn:Hback,
    (has_zone injury_zones "hip") eqn:Hhip;
    cbn [Py.append app map List.length seq fst snd drill_id drill_targetArea];
    (split; [reflexivity |]);
    (split; [reflexivity |]);
    (split; [lia |]);
    intros Hnone;
    try reflexivity;
    first [ pose proof (Hnone ("knee", "Knee")%string ltac:(cbn; tauto)) as Hc;
            cbn [fst] in Hc; rewrite Hknee in Hc; discriminate Hc
          | pose proof (Hnone ("shoulder", "Shoulder")%string ltac:(cbn; tauto)) as Hc;
            cbn [fst] in Hc; rewrite Hshoulder in Hc; discriminate Hc
          | pose proof (Hnone ("lower_back", "Lower Back")%string ltac:(cbn; tauto)) as Hc;
            cbn [fst] in Hc; rewrite Hback in Hc; discriminate Hc
          | pose proof (Hnone ("hip", "Hip")%string ltac:(cbn; tauto)) as Hc;
            cbn [fst] in Hc; rewrite Hhip in Hc; discriminate Hc ].
Qed.

(** ** The console's joint breakdown *)

(** X28: The joint breakdown shows the five factors of the console, whatever
    else [risks] holds, and depends on their values alone: a factor that
    could not be computed is drawn as 0%, exactly as a factor computed as
    safe. *)
Theorem render_breakdown_missing (risks : dict Z) :
  (forall other : dict Z,
     (forall k, In k (dict_keys Console.labels) ->
        dict_get_default risks k 0 = dict_get_default other k 0) ->
     Console.render_breakdown risks = Console.render_breakdown other)
  /\ Console.render_breakdown risks
     = Console.render_breakdown
         (map (fun k => (k, dict_get_default risks k 0)) (dict_keys Console.labels))
  /\ Console.render_breakdown []
     = Console.render_breakdown
         [ ("L_ACL", 0); ("R_ACL", 0); ("L_Hip", 0); ("R_Hip", 0); ("Trunk", 0) ].
Proof.
  assert (forall other : dict Z,
            (forall k, In k (dict_keys Console.labels) ->
               dict_get_default risks k 0 = dict_get_default other k 0) ->
            Console.render_breakdown risks = Console.render_breakdown other) as Hsame.
  { intros other H.
    unfold Console.render_breakdown, Console.labels. cbn [fold_left].
    unfold Console.render_row.
    rewrite (H "L_ACL"%string), (H "R_ACL"%string), (H "L_Hip"%string),
      (H "R_Hip"%string), (H "Trunk"%string) by (cbn; tauto).
    reflexivity. }
  split; [exact Hsame | split].
  - apply Hsame. intros k Hk. cbn in Hk.
    repeat (destruct Hk as [<- | Hk]; [reflexivity |]). destruct Hk.
  - reflexivity.
Qed.
